(** * Multi-agent documentation service: agent quality loop, orchestrator and assembler

    A shallow embedding of [backend/services/multi_agent_documentation_service.py]
    ([DocumentationAgent] and [OrchestratorAgent]) together with the properties
    the specification states about it.

    Python [str] values are modelled as [string]: a sequence of 8-bit
    characters, read as the UTF-8 encoding of the text.  The [str] methods below
    are exact on ASCII text; characters outside ASCII are never whitespace, never
    word characters and are left alone by [lower]/[upper].

    What the code takes from its environment is an explicit argument here: the
    backend client is a function from requests to outcomes, the outcome of each
    agent task is given in completion order, and the readings of the wall clock
    are a record.  [hashlib.md5] and the two [re.sub] patterns of the assembler
    are modelled in full, so that every definition evaluates on concrete input. *)

From Stdlib Require Import String Ascii List ZArith NArith Lia Bool Arith.
Import ListNotations.
Local Open Scope list_scope.
Local Open Scope string_scope.

(* ------------------------------------------------------------------------- *)
(** ** Python [str] methods used by the service *)

Module PyStr.

Definition nl_char : ascii := "010"%char.
Definition cr_char : ascii := "013"%char.
Definition nl : string := String nl_char "".

Definition in_range (lo hi : N) (c : ascii) : bool :=
  let n := N_of_ascii c in (N.leb lo n && N.leb n hi)%bool.

(** [str.isspace] on one ASCII character: TAB..CR, FS..US and the space. *)
Definition isspace (c : ascii) : bool := in_range 9 13 c || in_range 28 32 c.

Definition lower_char (c : ascii) : ascii :=
  if in_range 65 90 c then ascii_of_N (N_of_ascii c + 32) else c.

Definition upper_char (c : ascii) : ascii :=
  if in_range 97 122 c then ascii_of_N (N_of_ascii c - 32) else c.

Fixpoint map_str (f : ascii -> ascii) (s : string) : string :=
  match s with
  | "" => ""
  | String c s' => String (f c) (map_str f s')
  end.

Definition lower : string -> string := map_str lower_char.
Definition upper : string -> string := map_str upper_char.

Definition len : string -> nat := String.length.

Fixpoint rev_onto (s acc : string) : string :=
  match s with
  | "" => acc
  | String c s' => rev_onto s' (String c acc)
  end.

Definition rev (s : string) : string := rev_onto s "".

(** [s.lstrip(chars)], [s.rstrip(chars)], [s.strip(chars)] for a character class. *)
Fixpoint lstrip_by (p : ascii -> bool) (s : string) : string :=
  match s with
  | "" => ""
  | String c s' => if p c then lstrip_by p s' else s
  end.

Definition rstrip_by (p : ascii -> bool) (s : string) : string :=
  rev (lstrip_by p (rev s)).

Definition strip_by (p : ascii -> bool) (s : string) : string :=
  rstrip_by p (lstrip_by p s).

(** [s.strip()] *)
Definition strip : string -> string := strip_by isspace.

Definition is_empty (s : string) : bool :=
  match s with "" => true | _ => false end.

Definition cons_nonempty (w : string) (ws : list string) : list string :=
  if is_empty w then ws else w :: ws.

(** The word in progress at the head of [s] and the words after it. *)
Fixpoint words_aux (s : string) : string * list string :=
  match s with
  | "" => ("", [])
  | String c s' =>
      let (w, ws) := words_aux s' in
      if isspace c then ("", cons_nonempty w ws) else (String c w, ws)
  end.

(** [s.split()]: maximal runs of non-whitespace characters. *)
Definition split (s : string) : list string :=
  let (w, ws) := words_aux s in cons_nonempty w ws.

Definition push_char (c : ascii) (l : list string) : list string :=
  match l with
  | [] => [String c ""]
  | w :: ws => String c w :: ws
  end.

(** [s.split(sep)] for a one-character separator; never the empty list. *)
Fixpoint split_on (sep : ascii) (s : string) : list string :=
  match s with
  | "" => [""]
  | String c s' =>
      if Ascii.eqb c sep then "" :: split_on sep s'
      else push_char c (split_on sep s')
  end.

(** Line boundaries of [str.splitlines]: LF, VT, FF, CR, FS, GS, RS. *)
Definition is_linebreak (c : ascii) : bool := in_range 10 13 c || in_range 28 30 c.

Fixpoint lines_aux (s : string) : list string :=
  match s with
  | "" => [""]
  | String c s' =>
      if is_linebreak c then
        match s' with
        | String d _ =>
            if (Ascii.eqb c cr_char && Ascii.eqb d nl_char)%bool
            then lines_aux s'
            else "" :: lines_aux s'
        | "" => "" :: lines_aux s'
        end
      else push_char c (lines_aux s')
  end.

Fixpoint drop_last_empty (l : list string) : list string :=
  match l with
  | [] => []
  | [w] => if is_empty w then [] else [w]
  | w :: ws => w :: drop_last_empty ws
  end.

(** [s.splitlines()] *)
Definition splitlines (s : string) : list string := drop_last_empty (lines_aux s).

(** [sep.join(l)] *)
Fixpoint join (sep : string) (l : list string) : string :=
  match l with
  | [] => ""
  | [w] => w
  | w :: ws => w ++ sep ++ join sep ws
  end.

(** [s.startswith(p)] and [s.endswith(p)] *)
Definition startswith (s p : string) : bool := String.prefix p s.
Definition endswith (s p : string) : bool := String.prefix (rev p) (rev s).

(** [sub in s] *)
Fixpoint contains (sub s : string) : bool :=
  String.prefix sub s ||
  match s with
  | "" => false
  | String _ s' => contains sub s'
  end.

(** [s.count(sub)]: non-overlapping occurrences, scanning from the left.
    [skip] is the number of characters of the last match still to step over. *)
Fixpoint count_from (sub : string) (skip : nat) (s : string) : nat :=
  match s with
  | "" => 0
  | String _ s' =>
      match skip with
      | S k => count_from sub k s'
      | O => if String.prefix sub s
             then S (count_from sub (len sub - 1) s')
             else count_from sub 0 s'
      end
  end.

Definition count (s sub : string) : nat :=
  if is_empty sub then S (len s) else count_from sub 0 s.

(** [s.replace(old, new)] for a non-empty [old]. *)
Fixpoint replace_from (old new : string) (skip : nat) (s : string) : string :=
  match s with
  | "" => ""
  | String c s' =>
      match skip with
      | S k => replace_from old new k s'
      | O => if String.prefix old s
             then new ++ replace_from old new (len old - 1) s'
             else String c (replace_from old new 0 s')
      end
  end.

Fixpoint intersperse (new s : string) : string :=
  match s with
  | "" => new
  | String c s' => new ++ String c (intersperse new s')
  end.

Definition replace (s old new : string) : string :=
  if is_empty old then intersperse new s else replace_from old new 0 s.

(** [s[:n]] *)
Fixpoint take (n : nat) (s : string) : string :=
  match n, s with
  | S k, String c s' => String c (take k s')
  | _, _ => ""
  end.

(** [str(n)] for a non-negative integer. *)
Definition digit_char (d : N) : ascii := ascii_of_N (48 + d).

Fixpoint str_of_pos_aux (fuel : nat) (n : N) (acc : string) : string :=
  match fuel with
  | O => acc
  | S f =>
      let acc' := String (digit_char (N.modulo n 10)) acc in
      if N.ltb n 10 then acc' else str_of_pos_aux f (N.div n 10) acc'
  end.

Definition str_of_N (n : N) : string := str_of_pos_aux (S (N.to_nat (N.log2 n))) n "".
Definition str_of_nat (n : nat) : string := str_of_N (N.of_nat n).

Fixpoint mem (x : string) (l : list string) : bool :=
  match l with
  | [] => false
  | y :: l' => String.eqb x y || mem x l'
  end.

End PyStr.

(* ------------------------------------------------------------------------- *)
(** ** [hashlib.md5(data).hexdigest()] (RFC 1321) *)

Module MD5.
Local Open Scope Z_scope.

Definition mask32 : Z := 4294967295.
Definition w32 (x : Z) : Z := Z.land x mask32.
Definition not32 (x : Z) : Z := Z.lxor x mask32.
Definition rotl (x n : Z) : Z :=
  w32 (Z.lor (Z.shiftl x n) (Z.shiftr x (32 - n))).

Definition K : list Z :=
  [ 3614090360; 3905402710; 606105819; 3250441966;
    4118548399; 1200080426; 2821735955; 4249261313;
    1770035416; 2336552879; 4294925233; 2304563134;
    1804603682; 4254626195; 2792965006; 1236535329;
    4129170786; 3225465664; 643717713; 3921069994;
    3593408605; 38016083; 3634488961; 3889429448;
    568446438; 3275163606; 4107603335; 1163531501;
    2850285829; 4243563512; 1735328473; 2368359562;
    4294588738; 2272392833; 1839030562; 4259657740;
    2763975236; 1272893353; 4139469664; 3200236656;
    681279174; 3936430074; 3572445317; 76029189;
    3654602809; 3873151461; 530742520; 3299628645;
    4096336452; 1126891415; 2878612391; 4237533241;
    1700485571; 2399980690; 4293915773; 2240044497;
    1873313359; 4264355552; 2734768916; 1309151649;
    4149444226; 3174756917; 718787259; 3951481745 ].

Definition shifts : list Z :=
  [ 7; 12; 17; 22; 7; 12; 17; 22; 7; 12; 17; 22; 7; 12; 17; 22;
    5; 9; 14; 20; 5; 9; 14; 20; 5; 9; 14; 20; 5; 9; 14; 20;
    4; 11; 16; 23; 4; 11; 16; 23; 4; 11; 16; 23; 4; 11; 16; 23;
    6; 10; 15; 21; 6; 10; 15; 21; 6; 10; 15; 21; 6; 10; 15; 21 ].

Record state := mkState { sa : Z; sb : Z; sc : Z; sd : Z }.

Definition init : state :=
  mkState 1732584193 4023233417 2562383102 271733878.

(** The non-linear function of round [i] and the index of the message word it reads. *)
Definition mix (i : nat) (b c d : Z) : Z * nat :=
  if (i <? 16)%nat then (Z.lor (Z.land b c) (Z.land (not32 b) d), i)
  else if (i <? 32)%nat then (Z.lor (Z.land d b) (Z.land (not32 d) c), (5 * i + 1) mod 16)%nat
  else if (i <? 48)%nat then (Z.lxor b (Z.lxor c d), (3 * i + 5) mod 16)%nat
  else (Z.lxor c (Z.lor b (not32 d)), (7 * i) mod 16)%nat.

Definition step (M : list Z) (st : state) (i : nat) : state :=
  let '(f, g) := mix i (sb st) (sc st) (sd st) in
  let f' := w32 (f + sa st + nth i K 0 + nth g M 0) in
  mkState (sd st) (w32 (sb st + rotl f' (nth i shifts 0))) (sb st) (sc st).

Definition compress (st : state) (M : list Z) : state :=
  let r := fold_left (step M) (seq 0 64) st in
  mkState (w32 (sa st + sa r)) (w32 (sb st + sb r))
          (w32 (sc st + sc r)) (w32 (sd st + sd r)).

(** Little-endian 32-bit words of a block of bytes. *)
Fixpoint words_le (bytes : list Z) : list Z :=
  match bytes with
  | b0 :: b1 :: b2 :: b3 :: rest =>
      (b0 + Z.shiftl b1 8 + Z.shiftl b2 16 + Z.shiftl b3 24) :: words_le rest
  | _ => []
  end.

Definition bytes_le (n : nat) (x : Z) : list Z :=
  map (fun j => Z.land (Z.shiftr x (8 * Z.of_nat j)) 255) (seq 0 n).

Definition pad (msg : list Z) : list Z :=
  let l := Z.of_nat (List.length msg) in
  msg ++ [128] ++ repeat 0 (Z.to_nat ((55 - l) mod 64))
      ++ bytes_le 8 (Z.land (8 * l) 18446744073709551615).

Fixpoint blocks (fuel : nat) (bytes : list Z) (st : state) : state :=
  match fuel with
  | O => st
  | S f => blocks f (skipn 64 bytes) (compress st (words_le (firstn 64 bytes)))
  end.

Definition digest (msg : list Z) : list Z :=
  let p := pad msg in
  let r := blocks (List.length p / 64) p init in
  bytes_le 4 (sa r) ++ bytes_le 4 (sb r) ++ bytes_le 4 (sc r) ++ bytes_le 4 (sd r).

Definition hex_digit (d : Z) : ascii :=
  if d <? 10 then ascii_of_N (Z.to_N (48 + d)) else ascii_of_N (Z.to_N (87 + d)).

Fixpoint hex_of_bytes (bs : list Z) : string :=
  match bs with
  | [] => EmptyString
  | b :: r => String (hex_digit (Z.shiftr b 4)) (String (hex_digit (Z.land b 15)) (hex_of_bytes r))
  end.

Fixpoint bytes_of_string (s : string) : list Z :=
  match s with
  | EmptyString => []
  | String c s' => Z.of_N (N_of_ascii c) :: bytes_of_string s'
  end.

(** [hashlib.md5(s.encode('utf-8')).hexdigest()] *)
Definition hexdigest (s : string) : string :=
  hex_of_bytes (digest (bytes_of_string s)).

End MD5.

(* ------------------------------------------------------------------------- *)
(** ** The two regular expressions of the assembler, as [re.sub] runs them

    [re.sub] scans from the left; at each position it tries the pattern with
    Python's backtracking priorities (greedy [*], lazy [*?]) and, after a match,
    resumes at the end of the match.  Both patterns only match non-empty text. *)

Module Re.
Import PyStr.

Definition fence : string := "```".

(** [\w] on ASCII text. *)
Definition is_word (c : ascii) : bool :=
  in_range 48 57 c || in_range 65 90 c || in_range 97 122 c || Ascii.eqb c "_"%char.

Definition is_word_or_dash (c : ascii) : bool := is_word c || Ascii.eqb c "-"%char.

Fixpoint take_while (p : ascii -> bool) (s : string) : string :=
  match s with
  | "" => ""
  | String c s' => if p c then String c (take_while p s') else ""
  end.

Fixpoint drop (n : nat) (s : string) : string :=
  match n, s with
  | S k, String _ s' => drop k s'
  | _, _ => s
  end.

Fixpoint has_char (c : ascii) (s : string) : bool :=
  match s with
  | "" => false
  | String d s' => Ascii.eqb c d || has_char c s'
  end.

(** [re.sub] driven by a matcher that gives, at a position, the length of the
    match and the text that replaces it. *)
Fixpoint sub_from (match_at : string -> option (nat * string)) (skip : nat) (s : string) : string :=
  match s with
  | "" => ""
  | String c s' =>
      match skip with
      | S k => sub_from match_at k s'
      | O =>
          match match_at s with
          | Some (n, repl) => repl ++ sub_from match_at (n - 1) s'
          | None => String c (sub_from match_at 0 s')
          end
      end
  end.

Definition sub (match_at : string -> option (nat * string)) (s : string) : string :=
  sub_from match_at 0 s.

(** The pattern [```[\w-]*\s*\n\s*```] at the head of [s]: the length of the
    match.  The word run and the whitespace run are maximal (what follows each
    is outside its class), and the whitespace must hold a line feed. *)
Definition empty_fence_at (s : string) : option nat :=
  if String.prefix fence s then
    let r0 := drop 3 s in
    let tag := take_while is_word_or_dash r0 in
    let r1 := drop (len tag) r0 in
    let ws := take_while isspace r1 in
    let r2 := drop (len ws) r1 in
    if has_char nl_char ws && String.prefix fence r2
    then Some (3 + len tag + len ws + 3)
    else None
  else None.

(** First position of [s] where [\n\s*```] matches: the length of the text
    before it (the lazy group) and the length up to the end of the fence. *)
Fixpoint find_close (s : string) : option (nat * nat) :=
  match s with
  | "" => None
  | String c s' =>
      let ws := take_while isspace s' in
      if Ascii.eqb c nl_char && String.prefix fence (drop (len ws) s')
      then Some (0, 1 + len ws + 3)
      else match find_close s' with
           | Some (j, e) => Some (S j, S e)
           | None => None
           end
  end.

(** Offsets just after each line feed of the leading whitespace run of [s],
    the last one first: the choices of the greedy [\s*] before [\n]. *)
Fixpoint open_offsets (base : nat) (s : string) (acc : list nat) : list nat :=
  match s with
  | "" => acc
  | String c s' =>
      if isspace c then
        open_offsets (S base) s' (if Ascii.eqb c nl_char then S base :: acc else acc)
      else acc
  end.

Fixpoint first_close (r1 : string) (offs : list nat) : option (nat * nat * nat) :=
  match offs with
  | [] => None
  | o :: rest =>
      match find_close (drop o r1) with
      | Some (j, e) => Some (o, j, e)
      | None => first_close r1 rest
      end
  end.

(** The pattern [```(\w+)?\s*\n([\s\S]*?)\n\s*```] at the head of [s]: the
    length of the match, group 1 (absent when empty) and group 2. *)
Definition fenced_block_at (s : string) : option (nat * option string * string) :=
  if String.prefix fence s then
    let r0 := drop 3 s in
    let lang := take_while is_word r0 in
    let r1 := drop (len lang) r0 in
    match first_close r1 (open_offsets 0 r1 []) with
    | Some (o, j, e) =>
        Some (3 + len lang + o + e,
              if is_empty lang then None else Some lang,
              take j (drop o r1))
    | None => None
    end
  else None.

End Re.

(* ------------------------------------------------------------------------- *)
(** ** Data model

    A project snapshot is the [project_data] dict; a key that may be absent (or
    hold [None]) is an [option], read with the default of each [dict.get]. *)

Record Placement := mkPlacement {
  pl_section : option string;
  pl_description : option string }.

Record ImageRef := mkImageRef {
  img_name : string;
  img_data : string;
  img_context : option string;
  img_placement : option Placement;
  img_source : string }.

Record FileRecord := mkFileRecord {
  f_name : option string;
  f_size : nat;
  f_content : option string;
  f_type : string;
  f_embedded_images : option (list ImageRef) }.

Record ProjectSnapshot := mkProjectSnapshot {
  title : option string;
  description : option string;
  files : list FileRecord }.

(** [d.get(key, default)] *)
Definition get_or {A : Type} (o : option A) (default : A) : A :=
  match o with
  | Some x => x
  | None => default
  end.

(** A dict whose insertion order is observable: keys in first-insertion order. *)
Module Dict.

Definition t (V : Type) : Type := list (string * V).

Fixpoint get {V : Type} (d : t V) (k : string) : option V :=
  match d with
  | [] => None
  | (k', v) :: d' => if String.eqb k k' then Some v else get d' k
  end.

Definition has_key {V : Type} (d : t V) (k : string) : bool :=
  match get d k with
  | Some _ => true
  | None => false
  end.

(** [d[k] = v]: an existing key keeps its position. *)
Fixpoint set {V : Type} (d : t V) (k : string) (v : V) : t V :=
  match d with
  | [] => [(k, v)]
  | (k', v') :: d' =>
      if String.eqb k k' then (k', v) :: d' else (k', v') :: set d' k v
  end.

(** [if k not in d: d[k] = []] followed by [d[k].append(v)]. *)
Fixpoint append_to {V : Type} (d : t (list V)) (k : string) (v : V) : t (list V) :=
  match d with
  | [] => [(k, [v])]
  | (k', vs) :: d' =>
      if String.eqb k k' then (k', (vs ++ [v])%list) :: d' else (k', vs) :: append_to d' k v
  end.

Definition keys {V : Type} (d : t V) : list string := map fst d.

End Dict.

(* ------------------------------------------------------------------------- *)
(** ** The backend language model, as the agent calls it *)

Record Message := mkMessage {
  msg_role : string;
  msg_content : string }.

Record Request := mkRequest {
  req_model : string;
  req_messages : list Message;
  req_temperature_percent : nat;
  req_max_tokens : nat }.

(** [resp.choices[0].message.content] and [resp.usage.total_tokens], either of
    which may be [None]. *)
Record Response := mkResponse {
  resp_content : option string;
  resp_total_tokens : option nat }.

Inductive CallOutcome :=
| Completed (r : Response)
| CallRaised (e : string).

(** The client answers the [n]-th request of an agent (counting from 0). *)
Definition Backend : Type := nat -> Request -> CallOutcome.

(* ------------------------------------------------------------------------- *)
(** ** [DocumentationAgent] *)

Module DocumentationAgent.
Import PyStr.

Record t := mkAgent {
  name : string;
  role : string;
  system_prompt : string;
  openai_client : option Backend;
  model : string;
  tokens_used : nat }.

(** The heading tally shared by [_passes_quality] and the critique:
    occurrences of a line feed followed by one to four [#], each level
    counted on its own. *)
Definition heading_count (text : string) : nat :=
  count text (nl ++ "#") + count text (nl ++ "##")
  + count text (nl ++ "###") + count text (nl ++ "####").

(** [("- " in text) or ("* " in text) or any(f"{i}." in text for i in range(1, 5))] *)
Definition has_lists (text : string) : bool :=
  contains "- " text || contains "* " text
  || existsb (fun i => contains (str_of_nat i ++ ".") text) (seq 1 4).

Definition _passes_quality (text : string) : bool :=
  if is_empty text || is_empty (strip text) then false
  else
    let words := List.length (split (strip text)) in
    (700 <=? words)%nat && (3 <=? heading_count text)%nat && has_lists text.

Definition _get_file_category (filename : string) : string :=
  if is_empty filename || negb (contains "." filename) then "Configuration"
  else
    let ext := last (split_on "."%char (lower filename)) "" in
    let name := lower filename in
    if mem ext ["py"; "js"; "jsx"; "ts"; "tsx"; "java"; "cpp"; "c"; "cs"; "php";
                "rb"; "go"; "rs"; "swift"; "kt"; "scala"]
    then "Source Code"
    else if mem ext ["html"; "css"; "scss"; "sass"; "less"]
    then "Frontend Assets"
    else if mem ext ["json"; "yaml"; "yml"; "toml"; "ini"; "cfg"; "conf"]
            || contains "config" name
    then "Configuration"
    else if mem ext ["md"; "txt"; "rst"]
    then "Documentation"
    else if mem ext ["sql"; "db"; "sqlite"]
    then "Database"
    else if contains "test" name || mem ext ["spec"; "test"]
    then "Tests"
    else "Other".

Definition _detect_project_type (project_data : ProjectSnapshot) : string :=
  let fs := files project_data in
  let has_react :=
    existsb (fun f => contains "jsx" (lower (get_or (f_name f) ""))
                      || contains "react" (lower (get_or (f_content f) ""))) fs in
  let has_python := existsb (fun f => endswith (get_or (f_name f) "") ".py") fs in
  let has_node := existsb (fun f => String.eqb (get_or (f_name f) "") "package.json") fs in
  let has_java := existsb (fun f => endswith (get_or (f_name f) "") ".java") fs in
  if has_react && has_node then "React Web Application"
  else if has_python then "Python Application"
  else if has_java then "Java Application"
  else if has_node then "Node.js Application"
  else "Multi-language Project".

Definition _assess_complexity (file_count : nat) : string :=
  if (50 <? file_count)%nat then "High complexity (Large-scale project)"
  else if (20 <? file_count)%nat then "Medium complexity (Mid-scale project)"
  else if (5 <? file_count)%nat then "Low complexity (Small-scale project)"
  else "Minimal complexity (Simple project)".

(** The block of [_simulate_content] chosen by the agent's name. *)
Definition domain_block (agent_name : string) : string :=
  if contains "Code Architecture" agent_name then "## Code Structure Analysis
    - **Programming Languages**: Multiple languages detected
    - **Architecture Pattern**: Modern modular design
    - **Code Organization**: Well-structured with clear separation of concerns
    - **Key Components**: Main application logic, utilities, and configuration files

    ## Implementation Details
    - Functions and classes are properly organized
    - Clear naming conventions followed
    - Modular architecture enables maintainability
    "
  else if contains "System Architecture" agent_name then "## System Architecture
    - **Design Pattern**: Layered architecture with clear boundaries
    - **Component Structure**: Frontend, backend, and service layers
    - **Integration Points**: Well-defined interfaces between components
    - **Scalability**: Architecture supports horizontal and vertical scaling

    ## Design Decisions
    - Technology stack chosen for reliability and performance
    - Clear separation between presentation and business logic
    - Modular design enables independent component updates
    "
  else if contains "API Integration" agent_name then "## API Structure
    - **Endpoints**: RESTful API design following industry standards
    - **Authentication**: Secure authentication mechanisms implemented
    - **Data Formats**: JSON-based request/response handling
    - **Error Handling**: Comprehensive error response structure

    ## Integration Patterns
    - Standard HTTP methods for different operations
    - Consistent response format across all endpoints
    - Proper status codes for different scenarios
    "
  else if contains "Security Implementation" agent_name then "## Security Implementation
    - **Authentication**: Multi-layer authentication system
    - **Authorization**: Role-based access control
    - **Data Protection**: Encryption for sensitive data
    - **Input Validation**: Comprehensive input sanitization

    ## Security Measures
    - HTTPS encryption for all communications
    - Secure session management
    - Protection against common vulnerabilities
    - Regular security audits recommended
    "
  else if contains "Deployment Operations" agent_name || contains "Deployment" agent_name
  then "## Installation Requirements
    - **System Requirements**: Standard development environment
    - **Dependencies**: All required packages documented
    - **Configuration**: Environment-specific settings
    - **Deployment**: Production-ready deployment process

    ## Getting Started
    1. Install required dependencies
    2. Configure environment variables
    3. Run initialization scripts
    4. Start the application services
    "
  else if contains "Quality Assurance" agent_name then "## Testing Strategy
    - **Test Coverage**: Comprehensive test suite implementation
    - **Testing Levels**: Unit, integration, and end-to-end tests
    - **Quality Assurance**: Automated quality checks
    - **Continuous Integration**: Automated testing pipeline

    ## Quality Metrics
    - Code coverage targets defined
    - Performance benchmarks established
    - Quality gates for deployment
    "
  else if contains "User Documentation" agent_name then "## User Experience Design
    - **User Interface**: Intuitive and responsive design
    - **User Workflows**: Streamlined user interaction patterns
    - **Accessibility**: Following web accessibility guidelines
    - **Documentation**: Comprehensive user guides

    ## User Journey
    - Clear onboarding process
    - Intuitive navigation structure
    - Helpful error messages and guidance
    "
  else if contains "Performance Optimization" agent_name then "## Performance Analysis
    - **Response Times**: Optimized for fast response times
    - **Resource Usage**: Efficient memory and CPU utilization
    - **Scalability**: Designed to handle increased load
    - **Monitoring**: Performance metrics tracking

    ## Optimization Strategies
    - Caching mechanisms implemented
    - Database query optimization
    - Resource loading optimization
    - Performance monitoring tools
    "
  else "".

(** One category of the file listing, [limit] names shown. *)
Definition listing_block (limit : nat) (heading : string) (names : list string) : string :=
  "### " ++ heading ++ " Files (" ++ str_of_nat (List.length names) ++ ")" ++ nl
  ++ String.concat "" (map (fun file_name => "- `" ++ file_name ++ "`" ++ nl) (firstn limit names))
  ++ (if (limit <? List.length names)%nat
      then "- ... and " ++ str_of_nat (List.length names - limit) ++ " more files" ++ nl
      else "")
  ++ nl.

Definition _simulate_content (self : t) (project_data : ProjectSnapshot) : string :=
  let fs := files project_data in
  let file_count := List.length fs in
  let file_types : Dict.t (list string) :=
    fold_left (fun d f =>
                 let n := get_or (f_name f) "" in
                 Dict.append_to d (_get_file_category n) n) fs [] in
  ("# " ++ name self ++ " Analysis

    ## Overview
    This section provides a comprehensive " ++ lower (role self) ++ " analysis for **"
   ++ get_or (title project_data) "Unknown Project" ++ "**.

    ## Project Structure Analysis
    The project contains **"
   ++ str_of_nat file_count ++ " files** across the following categories:

    ")
  ++ String.concat "" (map (fun kv => listing_block 5 (fst kv) (snd kv)) file_types)
  ++ domain_block (name self)
  ++ ("
    ## Technical Specifications
    - **Total Files**: " ++ str_of_nat file_count ++ " files analyzed
    - **Project Type**: "
      ++ _detect_project_type project_data ++ "
    - **Complexity**: "
      ++ _assess_complexity file_count ++ "

    ## Recommendations
    1. Continue following established patterns and conventions
    2. Implement comprehensive monitoring and logging
    3. Regular code reviews and documentation updates
    4. Consider automated testing and deployment pipelines

    ## Integration Notes
    This analysis integrates with other specialized agents to provide a complete system overview. For detailed implementation specifics, refer to the Code Analysis section. For deployment instructions, see the Setup & Deployment documentation.

    ---
    *This analysis was generated using intelligent code analysis. For the most detailed insights, ensure all project files are included in the analysis.*
    ").

(** [f"{n:,}"]: decimal digits in groups of three. *)
Fixpoint group_thousands (rev_digits : list ascii) (k : nat) (acc : string) : string :=
  match rev_digits with
  | [] => acc
  | d :: r =>
      match k, r with
      | 2, _ :: _ => group_thousands r 0 (String ","%char (String d acc))
      | _, _ => group_thousands r (S k) (String d acc)
      end
  end.

Definition format_thousands (n : nat) : string :=
  group_thousands (List.rev (list_ascii_of_string (str_of_nat n))) 0 "".

Definition _build_context (self : t) (project_data : ProjectSnapshot)
           (shared_context : Dict.t string) : string :=
  let fs := files project_data in
  let basics :=
    [ "**Project**: " ++ get_or (title project_data) "Unknown Project";
      "**Description**: " ++ get_or (description project_data) "No description provided" ] in
  let file_types : Dict.t (list FileRecord) :=
    fold_left (fun d f => Dict.append_to d (_get_file_category (get_or (f_name f) "")) f) fs [] in
  let file_lines :=
    match fs with
    | [] => []
    | _ :: _ =>
        ("
**Files Analyzed** (" ++ str_of_nat (List.length fs) ++ " files):")
        :: flat_map (fun kv =>
             ("
*" ++ fst kv ++ ":*")
             :: map (fun f =>
                  let content_preview :=
                    match f_content f with
                    | Some c => if is_empty c then "" else take 200 c
                    | None => ""
                    end in
                  "  - **" ++ get_or (f_name f) "Unknown" ++ "** ("
                  ++ format_thousands (f_size f) ++ " bytes) " ++ content_preview ++ "...")
                (firstn 10 (snd kv)))
           file_types
    end in
  let shared_lines :=
    match shared_context with
    | [] => []
    | _ :: _ =>
        "
**Shared Insights:**"
        :: flat_map (fun kv =>
             if negb (is_empty (snd kv)) && negb (String.eqb (fst kv) (name self))
             then ["  - *" ++ fst kv ++ "*: " ++ take 150 (snd kv) ++ "..."]
             else [])
           shared_context
    end in
  join nl (basics ++ file_lines ++ shared_lines)%list.

Definition _extract_embedded_images (project_data : ProjectSnapshot) : list ImageRef :=
  flat_map (fun file_data => get_or (f_embedded_images file_data) []) (files project_data).

(** Images grouped by [placement.section] (default ['overview']). *)
Definition _process_embedded_images (project_data : ProjectSnapshot) : Dict.t (list ImageRef) :=
  fold_left (fun d image =>
               let section :=
                 match img_placement image with
                 | Some p => get_or (pl_section p) "overview"
                 | None => "overview"
                 end in
               Dict.append_to d section image)
            (_extract_embedded_images project_data) [].

Definition _create_user_prompt (self : t) (project_data : ProjectSnapshot)
           (context : string) : string :=
  let base_prompt := context ++ "

    **TASK**: As a " ++ role self ++ ", provide the most comprehensive and detailed analysis possible for your domain of expertise. 

    **REQUIREMENTS**:
    - Analyze ALL relevant files in detail, not just summaries
    - Explain the WHY behind every implementation decision
    - Include specific code examples and explanations
    - Cross-reference components and their relationships
    - Provide actionable insights and recommendations
    - Write 800-1500 words with clear sections and subsections
    - Use technical precision while remaining understandable

    Focus on your specialized domain while considering how it integrates with the overall system architecture." in
  match _process_embedded_images project_data with
  | [] => base_prompt
  | image_sections =>
      base_prompt ++ "

**VISUAL ASSETS AVAILABLE (for your awareness):**
"
      ++ String.concat ""
           (map (fun kv =>
                   ("
Section hint: " ++ fst kv ++ "
")
                   ++ String.concat ""
                        (map (fun img =>
                                let alt :=
                                  match img_placement img with
                                  | Some p => get_or (pl_description p) (img_name img)
                                  | None => img_name img
                                  end in
                                "- " ++ img_name img ++ " — " ++ alt ++ "
")
                             (firstn 2 (snd kv))))
                image_sections)
      ++ "
You do not need to render images in your reply; the app will place them later.
"
  end.

Definition agent_keywords : Dict.t (list string) :=
  [ ("Code Architecture Agent", ["code"; "function"; "class"; "module"; "file"]);
    ("System Architecture Agent", ["architecture"; "design"; "system"; "topology"]);
    ("API Integration Agent", ["api"; "endpoint"; "request"; "response"; "interface"]);
    ("Security Implementation Agent", ["security"; "auth"; "token"; "password"; "jwt"; "mfa"]);
    ("Deployment Operations Agent",
      ["setup"; "installation"; "deploy"; "infrastructure"; "docker"; "kubernetes"]);
    ("Quality Assurance Agent", ["test"; "testing"; "coverage"; "qa"; "assert"]);
    ("User Documentation Agent", ["ui"; "user"; "interface"; "walkthrough"; "guide"]);
    ("Performance Optimization Agent",
      ["performance"; "latency"; "throughput"; "metric"; "profiling"]) ].

(** The filter of [_add_images_to_content]: among the first two images, those
    whose context and name mention one of the agent's keywords. *)
Definition image_is_relevant (keywords : list string) (img : ImageRef) : bool :=
  let context := lower (get_or (img_context img) "" ++ " " ++ img_name img) in
  match keywords with
  | [] => true
  | _ :: _ => existsb (fun keyword => contains keyword context) keywords
  end.

Definition relevant_images (self : t) (embedded_images : list ImageRef) : list ImageRef :=
  let keywords := get_or (Dict.get agent_keywords (name self)) [] in
  filter (image_is_relevant keywords) (firstn 2 embedded_images).

Definition image_markdown (img : ImageRef) : string :=
  let description :=
    match img_placement img with
    | Some p => get_or (pl_description p) (img_name img)
    | None => img_name img
    end in
  "![" ++ description ++ "](data:image/png;base64," ++ img_data img ++ ")

".

(** The subsection that carries the images. *)
Definition image_section (relevant : list ImageRef) : string :=
  (nl ++ nl ++ "## Visual Documentation" ++ nl ++ nl)
  ++ String.concat "" (map image_markdown relevant).

(** [i + 1] for the first line [i] that starts with [##], else [1]. *)
Fixpoint find_insert_index (lines : list string) (i : nat) : nat :=
  match lines with
  | [] => 1
  | line :: rest => if startswith line "##" then S i else find_insert_index rest (S i)
  end.

(** [lines.insert(i, x)]: past the end, [x] is appended. *)
Definition list_insert {A : Type} (i : nat) (x : A) (l : list A) : list A :=
  (firstn i l ++ x :: skipn i l)%list.

Definition _add_images_to_content (self : t) (content : string)
           (project_data : ProjectSnapshot) : string :=
  match _extract_embedded_images project_data with
  | [] => content
  | embedded_images =>
      match relevant_images self embedded_images with
      | [] => content
      | relevant =>
          let lines := split_on nl_char content in
          let insert_index := find_insert_index lines 0 in
          join nl (list_insert insert_index (image_section relevant) lines)
      end
  end.

(** What one call of [analyze_project] leaves behind: the returned pair, the
    number of requests sent to the backend, and the agent with its token
    counter updated. *)
Record Run := mkRun {
  run_content : string;
  run_tokens : nat;
  run_calls : nat;
  run_self : t }.

Record LoopState := mkLoop {
  messages : list Message;
  total_tokens_used : nat;
  best_content : string;
  best_len : nat;
  calls : nat }.

Inductive LoopResult :=
| Accepted (draft : string) (st : LoopState)
| Exhausted (st : LoopState)
| Failed (calls_made : nat).

Definition critique_of (draft : string) : list string :=
  if is_empty draft then ["The previous reply was empty."]
  else
    ((if (List.length (split draft) <? 800)%nat then ["Too short (must be 800–1500 words)."] else [])
     ++ (if (heading_count draft <? 5)%nat then ["Not enough structured subsections (need ≥5)."] else [])
     ++ (if negb (contains "```" draft) then ["Include at least one fenced code block with concrete examples."] else [])
     ++ (if negb (contains "- " draft) && negb (contains "* " draft) then ["Use bullet lists for key steps/responsibilities."] else []))%list.

Definition repair_prompt (self : t) (critique : list string) : string :=
  strip ("
    Regenerate a comprehensive " ++ role self ++ " section addressing deficiencies:
    - "
         ++ (match critique with
             | [] => "Improve structure and specificity."
             | _ :: _ => join " " critique
             end)
         ++ "

    STRICT RULES:
    1) 800–1500 words.
    2) Start with an H1 title; include ≥5 H2/H3 subsections (Overview, File insights, Architecture/Integration, Security/Performance, Recommendations).
    3) Reference real file names and snippets from the provided context (do NOT invent files).
    4) Include at least one fenced code block that reflects the languages present.
    5) Use bullet lists where appropriate; avoid filler.
    6) No placeholders/apologies; deliver publishable documentation.
    ").

(** The body of [for attempt in range(1, 4)], over the attempts still to run.
    Of the constant sampling parameters only the temperature (in hundredths)
    and [max_tokens] are kept in the request. *)
Fixpoint attempts (self : t) (backend : Backend) (user_prompt : string)
         (todo : list nat) (st : LoopState) : LoopResult :=
  match todo with
  | [] => Exhausted st
  | attempt :: rest =>
      let request :=
        mkRequest (model self) (messages st) (if (attempt =? 1)%nat then 20 else 15) 4500 in
      match backend (calls st) request with
      | CallRaised _ => Failed (S (calls st))
      | Completed resp =>
          let draft := strip (get_or (resp_content resp) "") in
          let total := total_tokens_used st + get_or (resp_total_tokens resp) 0 in
          let better := (best_len st <? len draft)%nat in
          let best := if better then draft else best_content st in
          let blen := if better then len draft else best_len st in
          if _passes_quality draft
          then Accepted draft (mkLoop (messages st) total best blen (S (calls st)))
          else
            let repair := repair_prompt self (critique_of draft) in
            let messages' :=
              [ mkMessage "system" (system_prompt self);
                mkMessage "user" user_prompt;
                mkMessage "assistant" (if is_empty draft then "(no content)" else draft);
                mkMessage "user" repair ] in
            attempts self backend user_prompt rest
                     (mkLoop messages' total best blen (S (calls st)))
      end
  end.

Definition add_tokens (self : t) (n : nat) : t :=
  mkAgent (name self) (role self) (system_prompt self) (openai_client self)
          (model self) (tokens_used self + n).

Definition analyze_project (self : t) (project_data : ProjectSnapshot)
           (shared_context : Dict.t string) : Run :=
  match openai_client self with
  | None => mkRun (_simulate_content self project_data) 0 0 self
  | Some backend =>
      let context := _build_context self project_data shared_context in
      let user_prompt := _create_user_prompt self project_data context in
      let messages0 :=
        [ mkMessage "system" (system_prompt self); mkMessage "user" user_prompt ] in
      match attempts self backend user_prompt (seq 1 3) (mkLoop messages0 0 "" 0 0) with
      | Accepted draft st =>
          mkRun (_add_images_to_content self draft project_data)
                (total_tokens_used st) (calls st) (add_tokens self (total_tokens_used st))
      | Exhausted st =>
          let final :=
            if is_empty (best_content st) then "# Draft Incomplete

No content."
            else _add_images_to_content self (best_content st) project_data in
          mkRun final (total_tokens_used st) (calls st) (add_tokens self (total_tokens_used st))
      | Failed n => mkRun (_simulate_content self project_data) 0 n self
      end
  end.

End DocumentationAgent.

(* ------------------------------------------------------------------------- *)
(** ** [OrchestratorAgent] *)

(** One entry of [agent_results]; [res_agent] names the agent object stored
    under ['agent']. *)
Record AgentResult := mkResult {
  res_content : string;
  res_tokens : nat;
  res_agent : string }.

(** A tab dict; only the tabs built by [_try_add_tab] carry ['section_number']. *)
Record Tab := mkTab {
  tab_title : string;
  tab_content : string;
  word_count : nat;
  agent : string;
  section_number : option nat }.

Record Documentation := mkDocumentation {
  doc_content : string;
  doc_tabs : list Tab }.

Record GenerationResult := mkGenerationResult {
  gen_content : string;
  gen_tabs : list Tab;
  gen_model : string;
  gen_tokens_used : nat;
  gen_processing_time_ms : nat;
  gen_generated_at : string;
  gen_method : string;
  gen_agents_deployed : nat;
  gen_sections_generated : nat }.

(** The readings of the wall clock during one run: the [strftime] stamp put in
    the overview, the [isoformat] stamp and the elapsed milliseconds of the
    returned dict. *)
Record Clock := mkClock {
  strftime_now : string;
  isoformat_now : string;
  elapsed_ms : nat }.

(** What [future.result()] gives for one agent task. *)
Inductive TaskOutcome :=
| Returned (content : string) (tokens : nat)
| TaskRaised (e : string).

Module OrchestratorAgent.
Import PyStr.

Record t := mkOrchestrator {
  client : option Backend;
  model : string;
  agents : Dict.t DocumentationAgent.t;
  shared_context : Dict.t string;
  total_tokens : nat }.

(** [agent_configs]: name, role and system prompt of each agent. *)
Definition agent_configs : list (string * (string * string)) :=
  [ ("Code Architecture Agent", ("Senior Code Architect and Logic Analyzer", "You are an expert code analyst and senior software architect specializing in deep code analysis across ALL programming languages. Your role is to provide the most comprehensive code analysis possible.

    CORE RESPONSIBILITIES:
    - Perform line-by-line analysis of critical functions and classes
    - Explain the exact logic flow and algorithms implemented
    - Identify and explain design patterns, architectural decisions, and code organization
    - Analyze dependencies, imports, and module relationships
    - Explain complex business logic and computational algorithms
    - Document all public APIs, interfaces, and method signatures
    - Identify potential issues, optimizations, and improvements
    - Cross-reference code components and their interactions

    ANALYSIS DEPTH REQUIREMENTS:
    - For each major function/method: purpose, parameters, return values, side effects, complexity
    - For each class: responsibility, relationships, inheritance hierarchies, design patterns
    - For each module: purpose, exports, dependencies, integration points
    - For configuration files: explain every setting and its impact
    - For database schemas: table relationships, indexing strategies, data flow

    OUTPUT FORMAT:
    - Use clear hierarchical sections with descriptive headers
    - Include inline code examples with explanations
    - Provide technical diagrams in text form where helpful
    - Cross-reference related components throughout the analysis
    - Conclude with architecture insights and recommendations

    Write extremely detailed technical documentation that a senior developer could use to fully understand and maintain the codebase."));
    ("System Architecture Agent", ("Principal System Architect and Design Pattern Expert", "You are a principal system architect specializing in system design, architectural patterns, and component interaction analysis across all technology stacks.

    CORE RESPONSIBILITIES:
    - Analyze overall system architecture and design decisions
    - Identify and explain all architectural patterns (MVC, microservices, layered, etc.)
    - Document component relationships and interaction patterns
    - Explain data flow between system boundaries
    - Analyze scalability, maintainability, and extensibility aspects
    - Document integration patterns and external system connections
    - Identify architectural strengths, weaknesses, and improvement opportunities
    - Explain technology choices and their architectural implications

    ARCHITECTURE ANALYSIS REQUIREMENTS:
    - System topology: how components are organized and communicate
    - Design patterns: which patterns are used and why
    - Separation of concerns: how responsibilities are divided
    - Integration patterns: APIs, events, messaging, database access
    - Security architecture: authentication, authorization, data protection
    - Scalability considerations: horizontal/vertical scaling potential
    - Technology stack justification: why each technology was chosen
    - Deployment architecture: how the system is structured for production

    OUTPUT FORMAT:
    - Start with high-level architectural overview
    - Detail each architectural layer and its responsibilities
    - Explain component interaction patterns with flow descriptions
    - Document all external integrations and protocols
    - Include architectural decision records (ADRs) where relevant
    - Provide improvement recommendations and future considerations

    Write comprehensive architectural documentation that enables technical leadership to understand system design decisions and evolution strategy."));
    ("API Integration Agent", ("Senior API Architect and Integration Specialist", "You are a senior API architect and integration specialist with expertise in documenting APIs, data flows, and system integrations across all technology platforms.

    CORE RESPONSIBILITIES:
    - Document all API endpoints with complete specifications
    - Analyze request/response patterns and data transformations
    - Explain authentication and authorization mechanisms
    - Document all integration points and external service connections
    - Analyze data validation, error handling, and edge cases
    - Explain API versioning and backward compatibility strategies
    - Document rate limiting, caching, and performance optimizations
    - Analyze security measures and potential vulnerabilities

    API DOCUMENTATION REQUIREMENTS:
    - Complete endpoint inventory: HTTP methods, paths, parameters, headers
    - Request/response schemas with examples and validation rules
    - Authentication flows: tokens, sessions, OAuth, API keys
    - Error codes and handling: standard errors, custom exceptions, recovery
    - Integration patterns: webhooks, polling, real-time connections
    - Data formats: JSON, XML, GraphQL schemas, serialization
    - Performance characteristics: response times, throughput, caching
    - Security considerations: CORS, rate limiting, input validation

    INTEGRATION ANALYSIS:
    - External service dependencies and their purposes
    - Data synchronization patterns and consistency models
    - Event-driven architecture and messaging patterns
    - Database interaction patterns and optimization strategies
    - Third-party API usage and fallback mechanisms

    OUTPUT FORMAT:
    - Comprehensive API reference with interactive examples
    - Integration architecture diagrams in text format
    - Security implementation details and best practices
    - Performance optimization strategies and monitoring points
    - Troubleshooting guides for common integration issues

    Write detailed API documentation that enables developers to integrate with and extend the system effectively."));
    ("Security Implementation Agent", ("Principal Security Engineer and Authentication Specialist", "You are a principal security engineer specializing in application security, authentication systems, and security architecture across all technology stacks.

    CORE RESPONSIBILITIES:
    - Analyze all security mechanisms and authentication flows
    - Document access control, authorization, and permission systems
    - Identify security vulnerabilities and threat vectors
    - Explain encryption, hashing, and data protection strategies
    - Document security configurations and best practices
    - Analyze session management and token-based authentication
    - Explain security headers, CORS, and browser security measures
    - Document compliance requirements and security standards

    SECURITY ANALYSIS REQUIREMENTS:
    - Authentication mechanisms: login flows, multi-factor authentication, SSO
    - Authorization patterns: role-based, attribute-based, resource permissions
    - Session management: token lifecycle, refresh mechanisms, logout procedures
    - Data protection: encryption at rest/transit, sensitive data handling
    - Input validation: sanitization, SQL injection prevention, XSS protection
    - Security headers: CSP, HSTS, X-Frame-Options, security configurations
    - Audit logging: security events, access logs, compliance tracking
    - Threat modeling: attack vectors, risk assessment, mitigation strategies

    VULNERABILITY ASSESSMENT:
    - Common security antipatterns and potential exploits
    - Dependency vulnerabilities and update strategies
    - Configuration security and hardening recommendations
    - Security testing strategies and automated security scanning
    - Incident response procedures and security monitoring

    OUTPUT FORMAT:
    - Complete security architecture overview
    - Authentication and authorization flow diagrams
    - Security implementation details with code examples
    - Vulnerability assessment with remediation recommendations
    - Security best practices and configuration guidelines
    - Compliance checklist and audit requirements

    Write comprehensive security documentation that enables security teams to assess, maintain, and improve the system's security posture."));
    ("Deployment Operations Agent", ("Senior DevOps Engineer and Infrastructure Specialist", "You are a senior DevOps engineer specializing in deployment automation, infrastructure management, and environment configuration across all platforms and cloud providers.

    CORE RESPONSIBILITIES:
    - Document complete installation and setup procedures
    - Analyze deployment strategies and infrastructure requirements
    - Explain environment configuration and dependency management
    - Document containerization and orchestration setups
    - Analyze monitoring, logging, and observability configurations
    - Explain CI/CD pipelines and automation workflows
    - Document scaling strategies and infrastructure optimization
    - Explain disaster recovery and backup procedures

    DEPLOYMENT ANALYSIS REQUIREMENTS:
    - Installation prerequisites: system requirements, software dependencies
    - Environment setup: development, staging, production configurations
    - Configuration management: environment variables, secrets, feature flags
    - Deployment strategies: blue-green, rolling updates, canary releases
    - Infrastructure as Code: Terraform, CloudFormation, Kubernetes manifests
    - Monitoring setup: metrics collection, alerting, dashboard configuration
    - Security hardening: network security, access controls, certificate management
    - Performance optimization: resource allocation, caching, load balancing

    OPERATIONAL PROCEDURES:
    - Backup and recovery procedures with testing protocols
    - Scaling procedures: horizontal and vertical scaling strategies
    - Troubleshooting guides: common issues and resolution steps
    - Maintenance procedures: updates, patches, dependency management
    - Performance monitoring and capacity planning strategies

    OUTPUT FORMAT:
    - Step-by-step installation and setup guides
    - Infrastructure architecture diagrams and specifications
    - Configuration templates and example files
    - Deployment pipeline documentation with automation scripts
    - Operations runbooks and troubleshooting procedures
    - Performance tuning guides and optimization strategies

    Write comprehensive deployment and operations documentation that enables DevOps teams to reliably deploy, monitor, and maintain the system in production."));
    ("Quality Assurance Agent", ("Senior Quality Engineer and Test Automation Specialist", "You are a senior quality engineer specializing in test automation, quality assurance strategies, and testing frameworks across all programming languages and platforms.

    CORE RESPONSIBILITIES:
    - Analyze testing strategies and framework implementations
    - Document test coverage, test types, and quality metrics
    - Explain automated testing pipelines and continuous integration
    - Document performance testing and load testing strategies
    - Analyze code quality tools and static analysis configurations
    - Explain testing best practices and quality gates
    - Document bug tracking, issue management, and quality processes
    - Analyze accessibility, usability, and user experience testing

    TESTING ANALYSIS REQUIREMENTS:
    - Test framework analysis: unit, integration, end-to-end testing tools
    - Test coverage metrics: line coverage, branch coverage, mutation testing
    - Testing strategies: TDD, BDD, risk-based testing approaches
    - Automated testing: CI/CD integration, test automation pipelines
    - Performance testing: load testing, stress testing, benchmark analysis
    - Security testing: vulnerability scanning, penetration testing procedures
    - Quality metrics: code quality scores, technical debt analysis
    - Testing environments: test data management, environment provisioning

    QUALITY ASSURANCE PROCESSES:
    - Code review processes and quality standards
    - Bug triage and issue management workflows
    - Quality gates and release criteria
    - Regression testing strategies and test maintenance
    - User acceptance testing and stakeholder validation processes

    OUTPUT FORMAT:
    - Comprehensive testing strategy overview
    - Test framework documentation with examples
    - Quality metrics dashboard and reporting procedures
    - Testing automation guides and CI/CD integration
    - Quality assurance processes and best practices
    - Performance testing procedures and benchmarking guides

    Write detailed testing and quality documentation that enables QA teams to maintain high code quality and comprehensive test coverage."));
    ("User Documentation Agent", ("Senior Technical Writer and User Experience Specialist", "You are a senior technical writer specializing in user experience documentation, onboarding workflows, and user-centered technical communication.

    CORE RESPONSIBILITIES:
    - Create comprehensive user onboarding and getting started guides
    - Document user workflows and interaction patterns
    - Explain feature usage with practical examples and use cases
    - Create troubleshooting guides and FAQ documentation
    - Document accessibility features and inclusive design considerations
    - Explain integration workflows for developers and end users
    - Create tutorial content and step-by-step learning paths
    - Document user feedback mechanisms and support processes

    USER EXPERIENCE ANALYSIS:
    - User journey mapping: onboarding, feature discovery, task completion
    - Workflow documentation: common tasks, advanced features, edge cases
    - Tutorial creation: progressive learning, hands-on examples, best practices
    - Troubleshooting guides: common problems, diagnostic procedures, solutions
    - Accessibility documentation: screen reader support, keyboard navigation, WCAG compliance
    - Integration guides: developer onboarding, API usage examples, SDK documentation
    - Feature documentation: capabilities, limitations, configuration options
    - Support documentation: help resources, community guidelines, escalation procedures

    CONTENT CREATION REQUIREMENTS:
    - Clear, jargon-free explanations with progressive complexity
    - Practical examples and real-world use cases
    - Visual descriptions of UI elements and user interactions
    - Step-by-step procedures with expected outcomes
    - Common pitfalls and how to avoid them
    - Tips, tricks, and advanced usage patterns

    OUTPUT FORMAT:
    - Getting started tutorial with clear progression
    - Feature-by-feature usage guides with examples
    - Workflow documentation with decision trees
    - Troubleshooting guides with diagnostic procedures
    - FAQ section addressing common questions and concerns
    - User feedback collection and improvement processes

    Write user-focused documentation that enables users of all skill levels to successfully adopt and use the system effectively."));
    ("Performance Optimization Agent", ("Senior Performance Engineer and System Maintenance Specialist", "You are a senior performance engineer specializing in system optimization, performance monitoring, and long-term maintenance strategies across all technology platforms.

    CORE RESPONSIBILITIES:
    - Analyze performance characteristics and optimization opportunities
    - Document monitoring and observability implementations
    - Explain maintenance procedures and operational best practices
    - Analyze resource utilization and capacity planning strategies
    - Document performance testing and benchmarking procedures
    - Explain caching strategies and optimization techniques
    - Document database optimization and query performance analysis
    - Analyze system reliability and availability improvements

    PERFORMANCE ANALYSIS REQUIREMENTS:
    - Performance metrics: response times, throughput, resource utilization
    - Bottleneck identification: CPU, memory, I/O, network constraints
    - Optimization strategies: code optimization, algorithmic improvements, caching
    - Database performance: query optimization, indexing strategies, connection pooling
    - Frontend performance: asset optimization, lazy loading, performance budgets
    - Scalability analysis: horizontal scaling, vertical scaling, load distribution
    - Monitoring implementation: metrics collection, alerting, dashboard creation
    - Performance testing: load testing, stress testing, performance regression detection

    MAINTENANCE PROCEDURES:
    - Preventive maintenance: regular updates, security patches, dependency management
    - Monitoring and alerting: system health checks, anomaly detection, incident response
    - Capacity planning: growth projections, resource allocation, cost optimization
    - Technical debt management: code refactoring, architecture evolution, legacy system updates
    - Documentation maintenance: keeping documentation current, version control

    OUTPUT FORMAT:
    - Performance analysis report with metrics and recommendations
    - Optimization guides with specific implementation steps
    - Monitoring and alerting setup documentation
    - Maintenance schedules and operational procedures
    - Capacity planning guides and resource allocation strategies
    - Performance testing procedures and benchmarking protocols

    Write comprehensive performance and maintenance documentation that enables operations teams to maintain optimal system performance and reliability.")) ].

Definition _initialize_agents (client : option Backend) (model_name : string)
  : Dict.t DocumentationAgent.t :=
  fold_left (fun d cfg =>
               Dict.set d (fst cfg)
                 (DocumentationAgent.mkAgent (fst cfg) (fst (snd cfg)) (snd (snd cfg))
                                             client model_name 0))
            agent_configs [].

(** [OrchestratorAgent(openai_client, model)], the client and the model name
    already resolved from the environment. *)
Definition init (client : option Backend) (model_name : string) : t :=
  mkOrchestrator client model_name (_initialize_agents client model_name) [] 0.

Definition section_order : list string :=
  [ "Code Architecture Agent"; "System Architecture Agent"; "API Integration Agent"; "Security Implementation Agent";
    "Deployment Operations Agent"; "Quality Assurance Agent"; "User Documentation Agent"; "Performance Optimization Agent" ].

(** The content stored for an agent whose task raised [e]. *)
Definition failure_placeholder (agent_name e : string) : string :=
  "# " ++ agent_name ++ " Analysis

*Analysis failed: " ++ e ++ "*".

(** [_run_agents_parallel], over the tasks in the order they complete: the
    results dict and the orchestrator with its token total updated. *)
Definition _run_agents_parallel (self : t) (completed : list (string * TaskOutcome))
  : Dict.t AgentResult * t :=
  fold_left
    (fun acc task =>
       let '(agent_results, self') := acc in
       let agent_name := fst task in
       match snd task with
       | Returned content tokens =>
           (Dict.set agent_results agent_name (mkResult content tokens agent_name),
            mkOrchestrator (client self') (model self') (agents self')
                           (shared_context self') (total_tokens self' + tokens))
       | TaskRaised e =>
           (Dict.set agent_results agent_name
                     (mkResult (failure_placeholder agent_name e) 0 agent_name),
            self')
       end)
    completed ([], self).

(** The outcomes of the submitted tasks when they complete in [order]: each
    is [agent.analyze_project(project_data, self.shared_context)]. *)
Definition submitted_tasks (self : t) (project_data : ProjectSnapshot)
           (order : list string) : list (string * TaskOutcome) :=
  flat_map (fun agent_name =>
              match Dict.get (agents self) agent_name with
              | Some a =>
                  let r := DocumentationAgent.analyze_project a project_data (shared_context self) in
                  [(agent_name,
                    Returned (DocumentationAgent.run_content r) (DocumentationAgent.run_tokens r))]
              | None => []
              end)
           order.

Definition _add_cross_references (content agent_name : string)
           (context_summary : Dict.t string) (project_data : ProjectSnapshot) : string :=
  let notes :=
    if contains "Code Architecture" agent_name then
      [ "
## Integration Notes
"; "- **Architecture Impact**: See Architecture Agent analysis for system-level design implications"; "- **API Integration**: Refer to API Documentation Agent for endpoint implementations"; "- **Security Considerations**: Cross-reference Security Agent for authentication and authorization details" ]
    else if contains "System Architecture" agent_name then
      [ "
## Implementation References
"; "- **Code Implementation**: See Code Analysis Agent for detailed function-level implementation"; "- **Deployment Architecture**: Refer to Setup & Deployment Agent for infrastructure considerations"; "- **Performance Impact**: Cross-reference Performance Agent for scalability implications" ]
    else if contains "API Integration" agent_name then
      [ "
## Related Documentation
"; "- **Security Implementation**: See Security Agent for authentication and authorization details"; "- **Code Implementation**: Refer to Code Analysis Agent for endpoint implementation details"; "- **Testing Procedures**: Cross-reference Testing Agent for API testing strategies" ]
    else [] in
  let file_count := List.length (files project_data) in
  let cross_refs :=
    List.app notes
     [ "
## Project Context
";
       "- **Total Files Analyzed**: " ++ str_of_nat file_count ++ " files across the project";
       "- **Project Scope**: " ++ get_or (title project_data) "Unknown Project";
       "- **Multi-Agent Analysis**: This analysis is part of a comprehensive 8-agent documentation system" ] in
  content ++ join nl cross_refs.

Definition _enhance_cross_references (agent_results : Dict.t AgentResult)
           (project_data : ProjectSnapshot) : Dict.t AgentResult :=
  let context_summary : Dict.t string :=
    map (fun kv =>
           let content := res_content (snd kv) in
           (fst kv, if (300 <? len content)%nat then take 300 content ++ "..." else content))
        agent_results in
  map (fun kv =>
         (fst kv,
          mkResult (_add_cross_references (res_content (snd kv)) (fst kv)
                                          context_summary project_data)
                   (res_tokens (snd kv)) (res_agent (snd kv))))
      agent_results.

Definition grouped_by_extension (fs : list FileRecord) : Dict.t (list string) :=
  fold_left (fun d f =>
               let n := get_or (f_name f) "" in
               let ext := if contains "." n then lower (last (split_on "."%char n) "")
                          else "other" in
               Dict.append_to d ext n)
            fs [].

Definition _create_fallback_documentation (project_data : ProjectSnapshot) : string :=
  let fs := files project_data in
  ("# " ++ get_or (title project_data) "Project" ++ " Documentation

    ## Project Overview
    This documentation was generated for **"
   ++ get_or (title project_data) "your project" ++ "**.

    **Description**: "
   ++ get_or (description project_data) "No description provided" ++ "

    ## Project Structure
    The project contains **"
   ++ str_of_nat (List.length fs) ++ " files** that were analyzed:

    ")
  ++ String.concat ""
       (map (fun kv => DocumentationAgent.listing_block 10 (upper (fst kv)) (snd kv))
            (grouped_by_extension fs))
  ++ "## Getting Started
    To work with this project:

    1. Review the project structure above
    2. Check for README or setup files
    3. Install required dependencies
    4. Follow any setup instructions provided

    ## Next Steps
    This is a basic analysis of your project structure. For more detailed documentation:

    - Ensure all project files are uploaded
    - Check that files contain actual code content
    - Verify network connectivity for AI analysis
    - Contact support if issues persist

    ---
    *Generated by Mashreq Documentation System*
    ".

(** [len([w for w in content.split() if w.strip() and not w.startswith('#')])] *)
Definition non_heading_words (content : string) : list string :=
  filter (fun w => negb (is_empty (strip w)) && negb (startswith w "#")) (split content).

Definition non_heading_lines (content : string) : list string :=
  map strip
      (filter (fun ln => negb (is_empty (strip ln)) && negb (startswith (strip ln) "#"))
              (split_on nl_char content)).

Definition flattened (content : string) : string :=
  replace (replace (replace (replace (replace (replace content "#" "") nl "") " " "")
                            "-" "") "*" "") "`" "".

Definition failure_phrases : list string :=
  [ "no content available"; "content not available"; "failed to generate";
    "error occurred"; "please try again"; "analysis failed" ].

(** The validation filter of [_assemble_final_documentation]. *)
Definition is_valid_result (result : AgentResult) : bool :=
  let content := strip (res_content result) in
  if is_empty content then false
  else if (List.length (non_heading_words content) <? 100)%nat then false
  else if (List.length (non_heading_lines content) <? 5)%nat then false
  else if (len (flattened content) <? 100)%nat then false
  else negb (existsb (fun p => contains p (lower content)) failure_phrases).

Definition valid_results_of (enhanced_results : Dict.t AgentResult) : Dict.t AgentResult :=
  filter (fun kv => is_valid_result (snd kv)) enhanced_results.

(** The state the closure [_try_add_tab] shares with its caller. *)
Record Assembly := mkAssembly {
  tabs : list Tab;
  full_content_parts : list string;
  created_tabs : list Tab;
  seen_hashes : list string;
  seen_titles : list string;
  section_count : nat }.

Definition title_tokens : list string :=
  [ "analysis"; "documentation"; "implementation"; "operations"; "assurance"; "optimization" ].

Definition normalize_title (title : string) : string :=
  let base := fold_left (fun b token => replace b token "") title_tokens (lower title) in
  strip (join " " (split base)).

Definition is_trivial_codeblock (block : string) : bool :=
  let lines := map strip (filter (fun l => negb (is_empty (strip l))) (splitlines block)) in
  match lines with
  | [] => true
  | _ :: _ =>
      forallb (fun l =>
                 startswith l "import "
                 || endswith l ".js" || endswith l ".jsx" || endswith l ".css"
                 || startswith l "//"
                 || startswith l "#"
                 || (startswith l "from " && contains "import" l))
              lines
  end.

(** Step 1: [re.sub] of the empty fenced block by the empty string. *)
Definition remove_empty_fences (content : string) : string :=
  Re.sub (fun s => match Re.empty_fence_at s with
                   | Some n => Some (n, "")
                   | None => None
                   end) content.

(** Step 2: [re.sub] with [replace_trivial_codeblocks]. *)
Definition remove_trivial_codeblocks (content : string) : string :=
  Re.sub (fun s => match Re.fenced_block_at s with
                   | Some (n, _, code) =>
                       Some (n, if is_trivial_codeblock code then "" else take n s)
                   | None => None
                   end) content.

Definition is_dash_star_space (c : ascii) : bool :=
  Ascii.eqb c "-"%char || Ascii.eqb c "*"%char || Ascii.eqb c " "%char.

(** Step 3: empty bullet lines are left out. *)
Definition is_empty_bullet (ln : string) : bool :=
  let stripped := strip ln in
  (startswith stripped "-" || startswith stripped "*")
  && (len (strip (lstrip_by is_dash_star_space stripped)) =? 0)%nat.

Definition cleaned_content (content : string) : string :=
  let content_no_empty_code := remove_trivial_codeblocks (remove_empty_fences content) in
  join nl (filter (fun ln => negb (is_empty_bullet ln)) (splitlines content_no_empty_code)).

(** The md5 fingerprint of the cleaned content, lowercased, whitespace collapsed. *)
Definition fingerprint (content : string) : string :=
  MD5.hexdigest (join " " (split (lower (cleaned_content content)))).

(** [set(l)] as a duplicate-free list. *)
Fixpoint dedup (l : list string) : list string :=
  match l with
  | [] => []
  | w :: r => if mem w r then dedup r else w :: dedup r
  end.

Definition word_set (content : string) : list string := dedup (split (lower content)).

Definition common_words (ew cw : list string) : nat :=
  List.length (filter (fun w => mem w cw) ew).

(** [common / max(len(ew), len(cw)) > 0.65] for non-empty sets.  The quotient
    and the literal are the doubles nearest to the rationals they denote; for
    sets of fewer than 10^14 words the quotient is either 13/20 or further from
    it than rounding reaches, so the test is that of the rationals. *)
Definition too_similar (ew cw : list string) : bool :=
  match ew, cw with
  | _ :: _, _ :: _ =>
      (13 * Nat.max (List.length ew) (List.length cw) <? 20 * common_words ew cw)%nat
  | _, _ => false
  end.

(** What an accepted section adds to [full_content_parts]. *)
Definition section_parts (n : nat) (title content : string) : list string :=
  [ "# " ++ str_of_nat n ++ ". " ++ title ++ "
";
    content;
    "

---
" ].

Definition _try_add_tab (st : Assembly) (title content agent_name : string)
  : bool * Assembly :=
  let base := normalize_title title in
  if mem base (seen_titles st) then (false, st)
  else
    let h := fingerprint content in
    if mem h (seen_hashes st) then (false, st)
    else if existsb (fun existing =>
                       too_similar (word_set (tab_content existing)) (word_set content))
                    (created_tabs st)
    then (false, st)
    else
      let tab := mkTab title content (List.length (non_heading_words content))
                       agent_name (Some (section_count st)) in
      (true,
       mkAssembly
         (tabs st ++ [tab])
         (full_content_parts st ++ section_parts (section_count st) title content)
         (created_tabs st ++ [tab])
         (h :: seen_hashes st)
         (base :: seen_titles st)
         (S (section_count st))).

Definition toc_of (valid_results : Dict.t AgentResult) (project_data : ProjectSnapshot)
           (now : string) : string :=
  let listed := filter (Dict.has_key valid_results) section_order in
  let toc_lines :=
    List.app
      [ "# Comprehensive Technical Documentation
";
        "**Project**: " ++ get_or (title project_data) "Unknown Project";
        "**Generated**: " ++ now;
        "**Analysis Method**: Multi-Agent Parallel Processing";
        "**Agents Deployed**: " ++ str_of_nat (List.length valid_results);
        "
**Files Analyzed**: " ++ str_of_nat (List.length (files project_data)) ++ " files
";
        "## Documentation Sections
" ]
      (map (fun p => str_of_nat (fst p) ++ ". " ++ replace (snd p) " Agent" " Analysis")
           (combine (seq 1 (List.length listed)) listed)) in
  join nl toc_lines.

Definition fallback_tab (tab_name fallback : string) : Tab :=
  mkTab tab_name fallback (List.length (split fallback)) "Fallback" None.

(** The closure's variables as the loops find them. *)
Definition initial_assembly (full_toc : string) : Assembly :=
  mkAssembly [] [full_toc ++ "

---
"] [] [] [] 1.

Definition overview_tab (full_toc : string) : Tab :=
  mkTab "Documentation Overview" full_toc (List.length (split full_toc)) "Orchestrator" None.

Definition _assemble_final_documentation (enhanced_results : Dict.t AgentResult)
           (project_data : ProjectSnapshot) (now : string) : Documentation :=
  let valid_results := valid_results_of enhanced_results in
  match valid_results with
  | [] =>
      let fallback := _create_fallback_documentation project_data in
      mkDocumentation fallback [fallback_tab "Project Overview" fallback]
  | _ :: _ =>
      let full_toc := toc_of valid_results project_data now in
      let st0 := initial_assembly full_toc in
      (* Ordered agents first *)
      let st1 :=
        fold_left (fun st agent_name =>
                     match Dict.get valid_results agent_name with
                     | Some result =>
                         snd (_try_add_tab st (replace agent_name " Agent" " Analysis")
                                           (strip (res_content result)) agent_name)
                     | None => st
                     end)
                  section_order st0 in
      (* Any other (unexpected) agents *)
      let st2 :=
        fold_left (fun st kv =>
                     if mem (fst kv) section_order then st
                     else
                       let content := strip (res_content (snd kv)) in
                       if is_empty content then st
                       else snd (_try_add_tab st (replace (fst kv) " Agent" "") content (fst kv)))
                  valid_results st1 in
      let '(tabs1, parts1) :=
        match tabs st2 with
        | [] =>
            let fallback := _create_fallback_documentation project_data in
            ([fallback_tab "Project Analysis" fallback], [fallback])
        | _ :: _ => (tabs st2, full_content_parts st2)
        end in
      (* Add overview as first tab if multiple *)
      let tabs2 :=
        if (1 <? List.length tabs1)%nat
        then overview_tab full_toc :: tabs1
        else tabs1 in
      mkDocumentation (join nl parts1) tabs2
  end.

Definition agent_sections : list (string * string) :=
  [ ("Code Architecture Analysis", "Comprehensive code structure and logic analysis");
    ("System Architecture Analysis", "System design patterns and component relationships");
    ("API Integration Documentation", "Complete endpoint specifications and integration guides");
    ("Security Implementation Analysis", "Authentication flows and security implementations");
    ("Deployment Operations Guide", "Installation procedures and infrastructure requirements");
    ("Quality Assurance Strategy", "Testing strategies and quality assurance processes");
    ("User Documentation Guide", "User workflows and onboarding procedures");
    ("Performance Optimization Analysis", "Optimization strategies and operational procedures") ].

Definition simulated_content (project_data : ProjectSnapshot) (file_count : nat)
           (section_title description : string) : string :=
  "# " ++ section_title ++ "

## Overview
" ++ description ++ "

## Detailed Analysis
*[This section would contain comprehensive "
  ++ lower section_title ++ " for " ++ get_or (title project_data) "Unknown Project"
  ++ "]*

### Key Components Identified
- Component analysis based on " ++ str_of_nat file_count ++ " project files
- Integration patterns and architectural decisions
- Implementation details and best practices
- Performance implications and optimization opportunities

### Technical Implementation
The " ++ lower section_title
  ++ " reveals several important aspects:

1. **Primary Architecture**: Modern, scalable design patterns
2. **Technology Integration**: Well-structured component interactions  
3. **Code Organization**: Clear separation of concerns
4. **Quality Standards**: Enterprise-level implementation practices

### Recommendations
- Continue following established architectural patterns
- Implement comprehensive monitoring and logging
- Regular security audits and performance optimization
- Maintain documentation as system evolves

### Cross-Agent Integration
This analysis integrates with insights from other specialized agents to provide a holistic view of the system architecture and implementation.

*Note: This is simulated content. The actual multi-agent system would provide detailed, code-specific analysis based on comprehensive examination of all project files.*
".

(** [_simulate_comprehensive_generation]; the [time.sleep] before the
    content is built has no counterpart here. *)
Definition _simulate_comprehensive_generation (project_data : ProjectSnapshot)
           (clock : Clock) : GenerationResult :=
  let file_count := List.length (files project_data) in
  let header :=
    [ "# Comprehensive Technical Documentation
";
      "**Project**: " ++ get_or (title project_data) "Unknown Project" ++ "
";
      "**Generated**: " ++ strftime_now clock ++ "
";
      "**Analysis Method**: Multi-Agent Simulation
";
      "**Files Analyzed**: " ++ str_of_nat file_count ++ " files

";
      "## Multi-Agent Analysis Overview
";
      "This documentation was generated using 8 specialized AI agents working in parallel:

" ] in
  let numbered := combine (seq 1 (List.length agent_sections)) agent_sections in
  let section_tabs :=
    map (fun p =>
           let '(_, (section_title, description)) := p in
           let body := simulated_content project_data file_count section_title description in
           mkTab section_title body (List.length (split body))
                 (section_title ++ " Agent") None)
        numbered in
  let full_content_parts :=
    List.app header
      (flat_map (fun p =>
                   let '(i, (section_title, description)) := p in
                   [ str_of_nat i ++ ". " ++ section_title;
                     simulated_content project_data file_count section_title description;
                     "
---
" ])
                numbered) in
  let overview_content := join nl (firstn 8 full_content_parts) in
  let all_tabs :=
    mkTab "Documentation Overview" overview_content
          (List.length (split overview_content)) "Orchestrator" None
    :: section_tabs in
  let full_content := join nl full_content_parts in
  mkGenerationResult full_content all_tabs "multi-agent-simulation"
                     (len full_content / 4) (elapsed_ms clock) (isoformat_now clock)
                     "multi-agent-simulation" (List.length agent_sections)
                     (List.length all_tabs).

(** [generate_comprehensive_documentation], given the outcomes of the agent
    tasks in completion order.  On a well-formed snapshot no step of the
    [try] block raises; its handler returns the simulation as well. *)
Definition generate_comprehensive_documentation (self : t) (project_data : ProjectSnapshot)
           (completed : list (string * TaskOutcome)) (clock : Clock) : GenerationResult :=
  match client self with
  | None => _simulate_comprehensive_generation project_data clock
  | Some _ =>
      let '(agent_results, self') := _run_agents_parallel self completed in
      if forallb (fun kv => is_empty (strip (res_content (snd kv)))) agent_results
      then _simulate_comprehensive_generation project_data clock
      else
        let enhanced_results := _enhance_cross_references agent_results project_data in
        let assembled :=
          _assemble_final_documentation enhanced_results project_data (strftime_now clock) in
        let final_documentation :=
          match doc_tabs assembled with
          | [] =>
              let fallback_content := _create_fallback_documentation project_data in
              mkDocumentation fallback_content
                              [fallback_tab "Project Documentation" fallback_content]
          | _ :: _ => assembled
          end in
        mkGenerationResult (doc_content final_documentation) (doc_tabs final_documentation)
                           "gpt-4-turbo-multi-agent" (total_tokens self')
                           (elapsed_ms clock) (isoformat_now clock)
                           "multi-agent-parallel" (List.length (agents self'))
                           (List.length (doc_tabs final_documentation))
  end.

(** The run as the service performs it: every agent of the roster is
    submitted, and the tasks complete in [order]. *)
Definition run (self : t) (project_data : ProjectSnapshot) (order : list string)
           (clock : Clock) : GenerationResult :=
  generate_comprehensive_documentation self project_data
    (submitted_tasks self project_data order) clock.

End OrchestratorAgent.

(* ========================================================================= *)
(** * Properties *)

(** ** Basic facts about the string helpers *)

Section StringFacts.
Import PyStr.

Lemma append_nonempty_l (a b : string) : a <> "" -> a ++ b <> "".
Proof. destruct a; simpl; [congruence | discriminate]. Qed.

Lemma append_nonempty_r (a b : string) : b <> "" -> a ++ b <> "".
Proof. destruct a; simpl; [auto | discriminate]. Qed.

Lemma join_head_nonempty (sep x : string) (l : list string) :
  x <> "" -> join sep (x :: l) <> "".
Proof.
  intros Hx. destruct l as [|y l]; simpl; [exact Hx|].
  now apply append_nonempty_l.
Qed.

Lemma is_empty_true (s : string) : is_empty s = true <-> s = "".
Proof. destruct s; simpl; split; congruence. Qed.

Lemma is_empty_false (s : string) : is_empty s = false <-> s <> "".
Proof. destruct s; simpl; split; congruence. Qed.

Lemma mem_In (x : string) (l : list string) : mem x l = true <-> In x l.
Proof.
  induction l as [|y l IH]; simpl.
  - split; [discriminate | tauto].
  - rewrite orb_true_iff, IH, String.eqb_eq. split; intros [H|H]; auto.
Qed.

Lemma mem_false_not_In (x : string) (l : list string) : mem x l = false <-> ~ In x l.
Proof.
  rewrite <- mem_In. destruct (mem x l); split; congruence.
Qed.

End StringFacts.

(** ** The simulation path *)

Section Simulation.
Import PyStr OrchestratorAgent.

Lemma simulation_tabs_length (pd : ProjectSnapshot) (clock : Clock) :
  List.length (gen_tabs (_simulate_comprehensive_generation pd clock)) = 9.
Proof.
  unfold _simulate_comprehensive_generation. cbn [gen_tabs].
  cbn [List.length]. rewrite length_map. reflexivity.
Qed.

Lemma simulation_method (pd : ProjectSnapshot) (clock : Clock) :
  gen_method (_simulate_comprehensive_generation pd clock) = "multi-agent-simulation".
Proof. reflexivity. Qed.

Lemma simulation_content_nonempty (pd : ProjectSnapshot) (clock : Clock) :
  gen_content (_simulate_comprehensive_generation pd clock) <> "".
Proof.
  unfold _simulate_comprehensive_generation. cbn [gen_content].
  cbn [List.app]. apply join_head_nonempty. discriminate.
Qed.

Lemma roster_size : List.length agent_configs = 8.
Proof. reflexivity. Qed.

(** C8.  Without a client, [generate_comprehensive_documentation] returns the
    simulation whatever the agent tasks would have produced (the parallel
    phase is skipped): the method tag is the simulation tag and there are as
    many tabs as agents in the roster plus the overview, nine. *)
Theorem no_client_gives_simulation
        (self : t) (pd : ProjectSnapshot) (completed : list (string * TaskOutcome))
        (clock : Clock) :
  client self = None ->
  let r := generate_comprehensive_documentation self pd completed clock in
  r = _simulate_comprehensive_generation pd clock
  /\ gen_method r = "multi-agent-simulation"
  /\ List.length (gen_tabs r) = List.length agent_configs + 1
  /\ List.length (gen_tabs r) = 9
  /\ gen_sections_generated r = 9.
Proof.
  intros Hc r. subst r. unfold generate_comprehensive_documentation. rewrite Hc.
  split; [reflexivity|]. split; [reflexivity|].
  rewrite simulation_tabs_length. split; [reflexivity|]. split; [reflexivity|].
  unfold _simulate_comprehensive_generation. cbn [gen_sections_generated].
  cbn [List.length]. rewrite length_map. reflexivity.
Qed.

Lemma no_client_gives_simulation_witness :
  let self := init None "gpt-4o-mini" in
  let pd := mkProjectSnapshot (Some "Demo") None [] in
  let clock := mkClock "2026-01-01 00:00:00" "2026-01-01T00:00:00" 3000 in
  client self = None
  /\ gen_method (generate_comprehensive_documentation self pd [] clock) = "multi-agent-simulation"
  /\ List.length (gen_tabs (generate_comprehensive_documentation self pd [] clock)) = 9.
Proof.
  split; [reflexivity|].
  pose proof (no_client_gives_simulation
                (init None "gpt-4o-mini") (mkProjectSnapshot (Some "Demo") None []) []
                (mkClock "2026-01-01 00:00:00" "2026-01-01T00:00:00" 3000) eq_refl) as H.
  cbv zeta in H. destruct H as (_ & Hm & _ & Hn & _). split; assumption.
Defined.
End Simulation.

(** ** The assembler *)

Section Assembly.
Import PyStr OrchestratorAgent.

(** The calls of [_try_add_tab] made by the two loops, in order. *)
Record Candidate := mkCandidate {
  cand_title : string;
  cand_content : string;
  cand_agent : string }.

Definition add_candidate (st : Assembly) (c : Candidate) : Assembly :=
  snd (_try_add_tab st (cand_title c) (cand_content c) (cand_agent c)).

Definition ordered_candidates (valid_results : Dict.t AgentResult) : list Candidate :=
  flat_map (fun agent_name =>
              match Dict.get valid_results agent_name with
              | Some result =>
                  [mkCandidate (replace agent_name " Agent" " Analysis")
                               (strip (res_content result)) agent_name]
              | None => []
              end)
           section_order.

Definition other_candidates (valid_results : Dict.t AgentResult) : list Candidate :=
  flat_map (fun kv =>
              if mem (fst kv) section_order then []
              else if is_empty (strip (res_content (snd kv))) then []
              else [mkCandidate (replace (fst kv) " Agent" "")
                                (strip (res_content (snd kv))) (fst kv)])
           valid_results.

Definition candidates (valid_results : Dict.t AgentResult) : list Candidate :=
  ordered_candidates valid_results ++ other_candidates valid_results.

Lemma fold_left_flat_map {A B S : Type} (f : S -> B -> S) (g : A -> list B)
      (l : list A) (s : S) :
  fold_left f (flat_map g l) s = fold_left (fun s a => fold_left f (g a) s) l s.
Proof.
  revert s. induction l as [|a l IH]; intros s; simpl; [reflexivity|].
  now rewrite fold_left_app, IH.
Qed.

Lemma fold_left_ext_eq {A S : Type} (f g : S -> A -> S) (l : list A) (s : S) :
  (forall s a, f s a = g s a) -> fold_left f l s = fold_left g l s.
Proof.
  intros H. revert s. induction l as [|a l IH]; intros s; simpl; [reflexivity|].
  now rewrite H, IH.
Qed.

(** The state after both loops of [_assemble_final_documentation]. *)
Definition assembled_state (valid_results : Dict.t AgentResult) (st0 : Assembly) : Assembly :=
  fold_left add_candidate (candidates valid_results) st0.

Lemma loops_are_candidates (valid_results : Dict.t AgentResult) (st0 : Assembly) :
  fold_left (fun st kv =>
               if mem (fst kv) section_order then st
               else
                 let content := strip (res_content (snd kv)) in
                 if is_empty content then st
                 else snd (_try_add_tab st (replace (fst kv) " Agent" "") content (fst kv)))
            valid_results
            (fold_left (fun st agent_name =>
                          match Dict.get valid_results agent_name with
                          | Some result =>
                              snd (_try_add_tab st (replace agent_name " Agent" " Analysis")
                                                (strip (res_content result)) agent_name)
                          | None => st
                          end)
                       section_order st0)
  = assembled_state valid_results st0.
Proof.
  unfold assembled_state, candidates, ordered_candidates, other_candidates.
  rewrite fold_left_app, !fold_left_flat_map.
  rewrite (fold_left_ext_eq _ (fun s a => fold_left add_candidate
             (match Dict.get valid_results a with
              | Some result =>
                  [mkCandidate (replace a " Agent" " Analysis")
                               (strip (res_content result)) a]
              | None => []
              end) s) section_order).
  - apply fold_left_ext_eq. intros st kv.
    destruct (mem (fst kv) section_order); [reflexivity|].
    cbv zeta. destruct (is_empty (strip (res_content (snd kv)))); reflexivity.
  - intros st a. destruct (Dict.get valid_results a); reflexivity.
Qed.
Definition accepted_tab (st : Assembly) (c : Candidate) : Tab :=
  mkTab (cand_title c) (cand_content c)
        (List.length (non_heading_words (cand_content c)))
        (cand_agent c) (Some (section_count st)).

Definition accepted_state (st : Assembly) (c : Candidate) : Assembly :=
  mkAssembly
    (tabs st ++ [accepted_tab st c])
    (full_content_parts st ++ section_parts (section_count st) (cand_title c) (cand_content c))
    (created_tabs st ++ [accepted_tab st c])
    (fingerprint (cand_content c) :: seen_hashes st)
    (normalize_title (cand_title c) :: seen_titles st)
    (S (section_count st)).

(** The three duplicate tests of [_try_add_tab], in the order it runs them. *)
Definition similar_to_some (st : Assembly) (content : string) : bool :=
  existsb (fun existing => too_similar (word_set (tab_content existing)) (word_set content))
          (created_tabs st).

Definition accepts (st : Assembly) (c : Candidate) : bool :=
  negb (mem (normalize_title (cand_title c)) (seen_titles st))
  && negb (mem (fingerprint (cand_content c)) (seen_hashes st))
  && negb (similar_to_some st (cand_content c)).

Lemma try_add_tab_eq (st : Assembly) (c : Candidate) :
  _try_add_tab st (cand_title c) (cand_content c) (cand_agent c)
  = if accepts st c then (true, accepted_state st c) else (false, st).
Proof.
  unfold _try_add_tab, accepts, similar_to_some.
  destruct (mem (normalize_title (cand_title c)) (seen_titles st)); [reflexivity|].
  cbv zeta.
  destruct (mem (fingerprint (cand_content c)) (seen_hashes st)); [reflexivity|].
  destruct (existsb _ (created_tabs st)); reflexivity.
Qed.

Lemma add_candidate_eq (st : Assembly) (c : Candidate) :
  add_candidate st c = if accepts st c then accepted_state st c else st.
Proof.
  unfold add_candidate. rewrite try_add_tab_eq. now destruct (accepts st c).
Qed.

(** A property kept by every accepted candidate holds after the loops. *)
Lemma fold_candidates_invariant (P : Assembly -> Prop) (cands : list Candidate) :
  (forall st c, In c cands -> P st -> accepts st c = true -> P (accepted_state st c)) ->
  forall st, P st -> P (fold_left add_candidate cands st).
Proof.
  induction cands as [|c cands IH]; intros Hstep st Hst; simpl; [exact Hst|].
  apply IH.
  - intros st' c' Hin. apply Hstep. now right.
  - rewrite add_candidate_eq. destruct (accepts st c) eqn:Hacc; [|exact Hst].
    apply Hstep; auto. now left.
Qed.

Definition with_overview (full_toc : string) (tabs1 : list Tab) : list Tab :=
  if (1 <? List.length tabs1)%nat then overview_tab full_toc :: tabs1 else tabs1.

(** [_assemble_final_documentation] in terms of the state after the loops. *)
Lemma assemble_eq (enhanced : Dict.t AgentResult) (pd : ProjectSnapshot) (now : string) :
  _assemble_final_documentation enhanced pd now =
  match valid_results_of enhanced with
  | [] =>
      mkDocumentation (_create_fallback_documentation pd)
        [fallback_tab "Project Overview" (_create_fallback_documentation pd)]
  | _ :: _ =>
      let toc := toc_of (valid_results_of enhanced) pd now in
      let st := assembled_state (valid_results_of enhanced) (initial_assembly toc) in
      match tabs st with
      | [] =>
          mkDocumentation (join nl [_create_fallback_documentation pd])
            (with_overview toc [fallback_tab "Project Analysis" (_create_fallback_documentation pd)])
      | _ :: _ =>
          mkDocumentation (join nl (full_content_parts st)) (with_overview toc (tabs st))
      end
  end.
Proof.
  unfold _assemble_final_documentation.
  destruct (valid_results_of enhanced) as [|kv valid] eqn:Hv; [reflexivity|].
  cbv zeta. rewrite loops_are_candidates.
  destruct (tabs (assembled_state (kv :: valid) _)); reflexivity.
Qed.

Definition pair_ok (t1 t2 : Tab) : Prop :=
  fingerprint (tab_content t1) <> fingerprint (tab_content t2)
  /\ too_similar (word_set (tab_content t1)) (word_set (tab_content t2)) = false.

Definition from_candidate (c : Candidate) (t : Tab) : Prop :=
  tab_title t = cand_title c
  /\ tab_content t = cand_content c
  /\ agent t = cand_agent c
  /\ word_count t = List.length (non_heading_words (cand_content c)).

(** What the loops of the assembler maintain. *)
Record WellFormed (cands : list Candidate) (st : Assembly) : Prop := mkWellFormed {
  wf_tabs : tabs st = created_tabs st;
  wf_count : section_count st = S (List.length (tabs st));
  wf_numbers : map section_number (tabs st) = map Some (seq 1 (List.length (tabs st)));
  wf_origin : forall t, In t (tabs st) -> exists c, In c cands /\ from_candidate c t;
  wf_hashes : forall t, In t (created_tabs st) ->
                        In (fingerprint (tab_content t)) (seen_hashes st);
  wf_pairs : ForallOrdPairs pair_ok (created_tabs st) }.

Lemma ForallOrdPairs_snoc {A : Type} (R : A -> A -> Prop) (l : list A) (x : A) :
  ForallOrdPairs R l -> Forall (fun y => R y x) l -> ForallOrdPairs R (l ++ [x]).
Proof.
  induction 1 as [|y l Hy Hl IH]; intros Hx; simpl.
  - constructor; constructor.
  - inversion Hx; subst. constructor.
    + apply Forall_app. split; [assumption | now constructor].
    + now apply IH.
Qed.

Lemma well_formed_initial (cands : list Candidate) (toc : string) :
  WellFormed cands (initial_assembly toc).
Proof.
  constructor; simpl; try reflexivity; try (intros t []). constructor.
Qed.

Lemma well_formed_step (cands : list Candidate) (st : Assembly) (c : Candidate) :
  In c cands -> WellFormed cands st -> accepts st c = true ->
  WellFormed cands (accepted_state st c).
Proof.
  intros Hin [Ht Hc Hn Ho Hh Hp] Hacc.
  unfold accepts in Hacc. rewrite !andb_true_iff, !negb_true_iff in Hacc.
  destruct Hacc as [[_ Hhash] Hsim].
  constructor; simpl.
  - now rewrite Ht.
  - rewrite length_app. simpl. lia.
  - rewrite map_app, length_app, seq_app, map_app, Hn. simpl. now rewrite Hc.
  - intros t Hin'. apply in_app_or in Hin'. destruct Hin' as [Hin'|[<-|[]]].
    + now apply Ho.
    + exists c. split; [assumption|]. now repeat split.
  - intros t Hin'. apply in_app_or in Hin'. destruct Hin' as [Hin'|[<-|[]]].
    + right. now apply Hh.
    + now left.
  - apply ForallOrdPairs_snoc; [assumption|].
    apply Forall_forall. intros t Hin'. split; simpl.
    + intros Heq. apply Hh in Hin'. rewrite Heq in Hin'.
      apply mem_In in Hin'. congruence.
    + unfold similar_to_some in Hsim.
      destruct (too_similar (word_set (tab_content t)) (word_set (cand_content c))) eqn:E;
        [|reflexivity].
      assert (existsb (fun existing =>
                         too_similar (word_set (tab_content existing))
                                     (word_set (cand_content c)))
                      (created_tabs st) = true) as Hex
          by (apply existsb_exists; exists t; split; assumption).
      congruence.
Qed.

Lemma well_formed_assembled (valid : Dict.t AgentResult) (toc : string) :
  WellFormed (candidates valid) (assembled_state valid (initial_assembly toc)).
Proof.
  unfold assembled_state.
  apply (fold_candidates_invariant (WellFormed (candidates valid))).
  - intros st c Hin Hwf Hacc. now apply well_formed_step.
  - apply well_formed_initial.
Qed.

(** The first part of the text is the table of contents, whatever is accepted. *)
Lemma assembled_parts_head (valid : Dict.t AgentResult) (toc : string) :
  exists rest,
    full_content_parts (assembled_state valid (initial_assembly toc))
    = hd "" (full_content_parts (initial_assembly toc)) :: rest.
Proof.
  unfold assembled_state.
  apply (fold_candidates_invariant
           (fun st => exists rest,
                full_content_parts st = hd "" (full_content_parts (initial_assembly toc)) :: rest)).
  - intros st c _ [rest Hr] _. simpl. rewrite Hr. simpl. eexists. reflexivity.
  - simpl. eexists. reflexivity.
Qed.

Lemma dict_get_In {V : Type} (d : Dict.t V) (k : string) (v : V) :
  Dict.get d k = Some v -> In (k, v) d.
Proof.
  induction d as [|[k' v'] d IH]; simpl; [discriminate|].
  destruct (String.eqb k k') eqn:E.
  - apply String.eqb_eq in E. intros [= ->]. left. now subst.
  - intros H. right. now apply IH.
Qed.

(** Every candidate is the stripped content of a result that passed the
    validation filter, under the agent name it is stored with. *)
Lemma candidate_origin (enhanced : Dict.t AgentResult) (c : Candidate) :
  In c (candidates (valid_results_of enhanced)) ->
  exists r, In (cand_agent c, r) enhanced
            /\ is_valid_result r = true
            /\ cand_content c = strip (res_content r).
Proof.
  unfold candidates, ordered_candidates, other_candidates, valid_results_of.
  intros Hin. apply in_app_or in Hin. destruct Hin as [Hin|Hin];
    apply in_flat_map in Hin; destruct Hin as [x [Hx Hc]].
  - destruct (Dict.get _ x) as [r|] eqn:Hg; [|contradiction].
    destruct Hc as [<-|[]]. apply dict_get_In in Hg. apply filter_In in Hg.
    exists r. simpl in *. tauto.
  - destruct (mem (fst x) section_order); [contradiction|].
    destruct (is_empty _); [contradiction|]. destruct Hc as [<-|[]].
    apply filter_In in Hx. destruct x as [a r]. exists r. simpl in *. tauto.
Qed.

Lemma with_overview_nonempty (toc : string) (l : list Tab) :
  l <> [] -> with_overview toc l <> [].
Proof.
  unfold with_overview. destruct (1 <? List.length l)%nat; [discriminate | auto].
Qed.

Lemma fallback_documentation_nonempty (pd : ProjectSnapshot) :
  _create_fallback_documentation pd <> "".
Proof. unfold _create_fallback_documentation. discriminate. Qed.

(** The assembler never returns an empty tab list or an empty text. *)
Lemma assemble_nonempty (enhanced : Dict.t AgentResult) (pd : ProjectSnapshot) (now : string) :
  doc_tabs (_assemble_final_documentation enhanced pd now) <> []
  /\ doc_content (_assemble_final_documentation enhanced pd now) <> "".
Proof.
  rewrite assemble_eq.
  destruct (valid_results_of enhanced) as [|kv valid].
  - split; [discriminate | apply fallback_documentation_nonempty].
  - cbv zeta.
    destruct (assembled_parts_head (kv :: valid)
                (toc_of (kv :: valid) pd now)) as [rest Hparts].
    destruct (tabs (assembled_state (kv :: valid) _)) as [|t ts].
    + split; [apply with_overview_nonempty; discriminate|].
      cbn [doc_content join]. apply fallback_documentation_nonempty.
    + split; [apply with_overview_nonempty; discriminate|].
      cbn [doc_content]. rewrite Hparts. apply join_head_nonempty.
      unfold initial_assembly. cbn [full_content_parts hd].
      apply append_nonempty_r. discriminate.
Qed.

(** C1.  Whatever the snapshot and whatever the agent tasks produced (content,
    empty content or an exception), [generate_comprehensive_documentation]
    returns a result with at least one tab and a non-empty text. *)
Theorem generation_never_empty
        (self : t) (pd : ProjectSnapshot) (completed : list (string * TaskOutcome))
        (clock : Clock) :
  1 <= List.length (gen_tabs (generate_comprehensive_documentation self pd completed clock))
  /\ gen_content (generate_comprehensive_documentation self pd completed clock) <> "".
Proof.
  unfold generate_comprehensive_documentation.
  destruct (client self) as [backend|].
  2:{ rewrite simulation_tabs_length. split; [lia | apply simulation_content_nonempty]. }
  destruct (_run_agents_parallel self completed) as [agent_results self'].
  destruct (forallb _ agent_results).
  { rewrite simulation_tabs_length. split; [lia | apply simulation_content_nonempty]. }
  cbv zeta.
  destruct (assemble_nonempty (_enhance_cross_references agent_results pd) pd
                              (strftime_now clock)) as [Htabs Hcontent].
  destruct (doc_tabs (_assemble_final_documentation _ pd (strftime_now clock)))
    as [|tab rest] eqn:E; [congruence|].
  cbn [gen_tabs gen_content]. rewrite E. split; [simpl; lia | exact Hcontent].
Qed.

End Assembly.

(** ** The tabs of a result, by the path that built them *)

Section Shapes.
Import PyStr OrchestratorAgent.

(** The tab lists [_assemble_final_documentation] can return for the results
    [enhanced]: one fallback tab, or the accepted sections, preceded by the
    overview when there are several. *)
Inductive AssembledTabs (enhanced : Dict.t AgentResult) (pd : ProjectSnapshot)
          (now : string) : list Tab -> Prop :=
| fallback_only (tab_name : string) :
    AssembledTabs enhanced pd now [fallback_tab tab_name (_create_fallback_documentation pd)]
| accepted_sections (st : Assembly) (overview : list Tab) :
    WellFormed (candidates (valid_results_of enhanced)) st ->
    tabs st <> [] ->
    overview = [] \/ overview = [overview_tab (toc_of (valid_results_of enhanced) pd now)] ->
    AssembledTabs enhanced pd now (overview ++ tabs st)%list.

Lemma assemble_tabs_cases (enhanced : Dict.t AgentResult) (pd : ProjectSnapshot)
      (now : string) :
  AssembledTabs enhanced pd now (doc_tabs (_assemble_final_documentation enhanced pd now)).
Proof.
  rewrite assemble_eq.
  destruct (valid_results_of enhanced) as [|kv valid] eqn:Hv.
  - apply fallback_only.
  - cbv zeta.
    pose proof (well_formed_assembled (kv :: valid) (toc_of (kv :: valid) pd now)) as Hwf.
    destruct (tabs (assembled_state (kv :: valid) _)) as [|t ts] eqn:E.
    + apply fallback_only.
    + cbn [doc_tabs]. rewrite <- E, <- Hv in *. unfold with_overview.
      destruct (1 <? _)%nat.
      * apply (accepted_sections enhanced pd now _ [overview_tab _]); auto.
        rewrite E. discriminate.
      * apply (accepted_sections enhanced pd now _ []); auto.
        rewrite E. discriminate.
Qed.

(** The results handed to the assembler by a run. *)
Definition enhanced_results (self : t) (pd : ProjectSnapshot)
           (completed : list (string * TaskOutcome)) : Dict.t AgentResult :=
  _enhance_cross_references (fst (_run_agents_parallel self completed)) pd.

(** A run returns the simulation, or the tabs of the assembler. *)
Lemma generate_cases (self : t) (pd : ProjectSnapshot)
      (completed : list (string * TaskOutcome)) (clock : Clock) :
  generate_comprehensive_documentation self pd completed clock
  = _simulate_comprehensive_generation pd clock
  \/ AssembledTabs (enhanced_results self pd completed) pd (strftime_now clock)
       (gen_tabs (generate_comprehensive_documentation self pd completed clock)).
Proof.
  unfold generate_comprehensive_documentation, enhanced_results.
  destruct (client self) as [backend|]; [|now left].
  destruct (_run_agents_parallel self completed) as [agent_results self'].
  destruct (forallb _ agent_results); [now left|]. right.
  cbv zeta. cbn [fst].
  pose proof (assemble_tabs_cases (_enhance_cross_references agent_results pd) pd
                                  (strftime_now clock)) as Hn.
  destruct (doc_tabs (_assemble_final_documentation _ pd (strftime_now clock)))
    as [|tab rest] eqn:E.
  - cbn [gen_tabs doc_tabs]. apply fallback_only.
  - cbn [gen_tabs]. rewrite E. exact Hn.
Qed.
End Shapes.


(** ** Sample inputs *)

Section Samples.
Import PyStr OrchestratorAgent.

Definition demo_snapshot : ProjectSnapshot :=
  mkProjectSnapshot (Some "Demo") (Some "A small project") [].

Definition demo_clock : Clock :=
  mkClock "2026-01-01 00:00:00" "2026-01-01T00:00:00" 3000.

(** Twenty distinct words [prefix(20k)] .. [prefix(20k+19)] on one line. *)
Definition sample_line (prefix : string) (k : nat) : string :=
  join " " (map (fun i => prefix ++ str_of_nat (20 * k + i)) (seq 0 20)).

(** A heading and [lines] lines of twenty words each. *)
Definition sample_content (heading prefix : string) (lines : nat) : string :=
  "# " ++ heading ++ nl ++ join nl (map (sample_line prefix) (seq 0 lines)).

(** A client that is never called in the samples: the agent tasks are given
    by their outcomes. *)
Definition silent_backend : Backend :=
  fun _ _ => Completed (mkResponse (Some "") None).

Definition sample_orchestrator : t := init (Some silent_backend) "gpt-4o-mini".

(** Two agents return long texts over different vocabularies. *)
Definition two_sections : list (string * TaskOutcome) :=
  [ ("System Architecture Agent", Returned (sample_content "Architecture" "arch" 8) 120);
    ("Code Architecture Agent", Returned (sample_content "Code" "code" 8) 100) ].



End Samples.

(** ** Section numbers *)

Section Numbering.
Import PyStr OrchestratorAgent.

(** The claim as the specification words it: the tabs are numbered 1..N. *)
Definition dense_numbering (l : list Tab) : Prop :=
  map section_number l = map Some (seq 1 (List.length l)).






End Numbering.

(** ** No duplicate sections *)

Section Deduplication.
Import PyStr OrchestratorAgent.

Definition numbered (t : Tab) : bool :=
  match section_number t with
  | Some _ => true
  | None => false
  end.

(** The sections of a result that [_try_add_tab] accepted. *)
Definition accepted (l : list Tab) : list Tab := filter numbered l.








Lemma accepted_of_numbered (l : list Tab) : dense_numbering l -> accepted l = l.
Proof.
  unfold dense_numbering, accepted. generalize 1.
  induction l as [|t l IH]; intros n H; simpl in *; [reflexivity|].
  injection H as Ht Hl. unfold numbered at 1. rewrite Ht. f_equal. eapply IH, Hl.
Qed.




End Deduplication.

(** ** Determinism of the assembler *)

Section Determinism.
Import PyStr OrchestratorAgent.








End Determinism.

(** ** Occurrences of a phrase in a text *)

Section Occurrences.
Import PyStr.

Lemma append_assoc (a b c : string) : (a ++ b) ++ c = a ++ (b ++ c).
Proof. induction a as [|x a IH]; simpl; [reflexivity | now rewrite IH]. Qed.

Lemma append_nil_r (a : string) : a ++ "" = a.
Proof. induction a as [|x a IH]; simpl; [reflexivity | now rewrite IH]. Qed.

Lemma prefix_append (p b : string) : String.prefix p (p ++ b) = true.
Proof.
  induction p as [|x p IH]; simpl; [now destruct b|].
  destruct (ascii_dec x x); [exact IH | congruence].
Qed.

Lemma prefix_inv (p s : string) : String.prefix p s = true -> exists b, s = p ++ b.
Proof.
  revert s. induction p as [|x p IH]; intros s H.
  - exists s. reflexivity.
  - destruct s as [|y s]; simpl in H; [discriminate|].
    destruct (ascii_dec x y) as [->|]; [|discriminate].
    destruct (IH s H) as [b ->]. exists b. reflexivity.
Qed.

Lemma contains_nil (p : string) : contains p "" = String.prefix p "" || false.
Proof. reflexivity. Qed.

Lemma contains_cons (p : string) (c : ascii) (s : string) :
  contains p (String c s) = String.prefix p (String c s) || contains p s.
Proof. reflexivity. Qed.

(** [sub in s] holds exactly when [s] splits around an occurrence of [sub]. *)
Lemma contains_occurs (p s : string) :
  contains p s = true <-> exists a b, s = a ++ p ++ b.
Proof.
  split.
  - induction s as [|c s IH].
    + rewrite contains_nil, orb_false_r. intros H.
      apply prefix_inv in H. destruct H as [b Hb]. exists "", b. exact Hb.
    + rewrite contains_cons, orb_true_iff. intros [H|H].
      * apply prefix_inv in H. destruct H as [b Hb]. exists "", b. exact Hb.
      * destruct (IH H) as (a & b & ->). exists (String c a), b. reflexivity.
  - intros (a & b & ->). induction a as [|c a IH].
    + change ("" ++ p ++ b) with (p ++ b).
      destruct (p ++ b) as [|x r] eqn:E.
      * rewrite contains_nil, <- E, prefix_append. reflexivity.
      * rewrite contains_cons, <- E, prefix_append. reflexivity.
    + change (String c a ++ p ++ b) with (String c (a ++ p ++ b)).
      rewrite contains_cons, IH. apply orb_true_r.
Qed.

Lemma map_str_append (f : ascii -> ascii) (a b : string) :
  map_str f (a ++ b) = map_str f a ++ map_str f b.
Proof. induction a as [|x a IH]; simpl; [reflexivity | now rewrite IH]. Qed.

Lemma rev_onto_spec (s acc : string) : rev_onto s acc = rev s ++ acc.
Proof.
  unfold rev. revert acc. induction s as [|c s IH]; intros acc; simpl; [reflexivity|].
  rewrite IH, (IH (String c "")), append_assoc. reflexivity.
Qed.

Lemma rev_cons (c : ascii) (s : string) : rev (String c s) = rev s ++ String c "".
Proof. unfold rev at 1. simpl. apply rev_onto_spec. Qed.

Lemma rev_append (a b : string) : rev (a ++ b) = rev b ++ rev a.
Proof.
  induction a as [|c a IH]; simpl.
  - now rewrite append_nil_r.
  - now rewrite !rev_cons, IH, append_assoc.
Qed.

Lemma rev_involutive (s : string) : rev (rev s) = s.
Proof.
  induction s as [|c s IH]; [reflexivity|].
  now rewrite rev_cons, rev_append, IH.
Qed.

(** Stripping a class of characters from the left keeps an occurrence that
    starts outside the class. *)
Lemma lstrip_keeps (p : ascii -> bool) (a b : string) (c : ascii) (q : string) :
  p c = false ->
  exists a', lstrip_by p (a ++ String c q ++ b) = a' ++ String c q ++ b.
Proof.
  intros Hc. induction a as [|x a IH].
  - exists "". simpl. now rewrite Hc.
  - simpl. destruct (p x).
    + exact IH.
    + exists (String x a). reflexivity.
Qed.

Lemma rstrip_keeps (p : ascii -> bool) (a b q : string) (c : ascii) :
  p c = false ->
  exists b', rstrip_by p (a ++ (q ++ String c "") ++ b) = a ++ (q ++ String c "") ++ b'.
Proof.
  intros Hc. unfold rstrip_by.
  assert (rev (a ++ (q ++ String c "") ++ b) = rev b ++ String c (rev q) ++ rev a) as E.
  { rewrite !rev_append. rewrite !append_assoc. reflexivity. }
  rewrite E.
  destruct (lstrip_keeps p (rev b) (rev a) c (rev q) Hc) as [b' Hb'].
  rewrite Hb'. exists (rev b').
  rewrite rev_append. change (String c (rev q) ++ rev a) with (String c (rev q ++ rev a)).
  rewrite rev_cons, rev_append, !rev_involutive, !append_assoc. reflexivity.
Qed.

(** [s.strip()] keeps an occurrence that neither starts nor ends with a
    stripped character. *)
Lemma strip_keeps_occurrence (p : ascii -> bool) (c d : ascii) (q s : string) :
  p c = false -> p d = false ->
  contains (String c q ++ String d "") s = true ->
  contains (String c q ++ String d "") (strip_by p s) = true.
Proof.
  intros Hc Hd H. apply contains_occurs in H. destruct H as (a & b & ->).
  unfold strip_by.
  destruct (lstrip_keeps p a b c (q ++ String d "") Hc) as [a' Ha].
  change (String c q ++ String d "") with (String c (q ++ String d "")).
  rewrite Ha.
  destruct (rstrip_keeps p a' b (String c q) d Hd) as [b' Hb].
  change (String c q ++ String d "") with (String c (q ++ String d "")) in Hb.
  rewrite Hb.
  apply contains_occurs. exists a', b'. reflexivity.
Qed.
End Occurrences.

(** ** The failure placeholder *)

Section FailurePlaceholder.
Import PyStr OrchestratorAgent.

Lemma contains_append_l (p x y : string) :
  contains p x = true -> contains p (x ++ y) = true.
Proof.
  intros H. apply contains_occurs in H. destruct H as (a & b & ->).
  apply contains_occurs. exists a, (b ++ y). now rewrite !append_assoc.
Qed.

Lemma contains_append_r (p x y : string) :
  contains p y = true -> contains p (x ++ y) = true.
Proof.
  intros H. apply contains_occurs in H. destruct H as (a & b & ->).
  apply contains_occurs. exists (x ++ a), b. now rewrite !append_assoc.
Qed.

Lemma lower_keeps_occurrence (p s : string) :
  contains p s = true -> contains (lower p) (lower s) = true.
Proof.
  intros H. apply contains_occurs in H. destruct H as (a & b & ->).
  apply contains_occurs. exists (lower a), (lower b).
  unfold lower. now rewrite !map_str_append.
Qed.

Lemma placeholder_names_failure (agent_name e rest : string) :
  contains "Analysis failed" (failure_placeholder agent_name e ++ rest) = true.
Proof.
  unfold failure_placeholder. apply contains_append_l.
  apply contains_append_r, contains_append_r, contains_append_l.
  vm_compute. reflexivity.
Qed.

(** A text that names a failure is dropped by the validation filter. *)
Lemma failure_marker_invalid (result : AgentResult) :
  contains "Analysis failed" (res_content result) = true ->
  is_valid_result result = false.
Proof.
  intros H. unfold is_valid_result.
  destruct (is_empty _); [reflexivity|].
  destruct (_ <? 100)%nat; [reflexivity|].
  destruct (_ <? 5)%nat; [reflexivity|].
  destruct (_ <? 100)%nat; [reflexivity|].
  apply negb_false_iff, existsb_exists.
  exists "analysis failed". split; [simpl; tauto|].
  apply (lower_keeps_occurrence "Analysis failed").
  apply (strip_keeps_occurrence isspace "A" "d" "nalysis faile"); auto.
Qed.

Lemma enhanced_placeholder_invalid (agent_name e : string) (summary : Dict.t string)
      (pd : ProjectSnapshot) (tokens : nat) (stored : string) :
  is_valid_result
    (mkResult (_add_cross_references (failure_placeholder agent_name e) agent_name summary pd)
              tokens stored) = false.
Proof.
  apply failure_marker_invalid. cbn [res_content]. unfold _add_cross_references.
  apply placeholder_names_failure.
Qed.
End FailurePlaceholder.

(** ** The results dict of a run *)

Section Results.
Import PyStr OrchestratorAgent.

Lemma dict_get_set_same {V : Type} (d : Dict.t V) (k : string) (v : V) :
  Dict.get (Dict.set d k v) k = Some v.
Proof.
  induction d as [|[k' v'] d IH]; simpl.
  - now rewrite String.eqb_refl.
  - destruct (String.eqb k k') eqn:E; simpl; rewrite E; [reflexivity | exact IH].
Qed.

Lemma dict_get_set_other {V : Type} (d : Dict.t V) (k k' : string) (v : V) :
  k' <> k -> Dict.get (Dict.set d k v) k' = Dict.get d k'.
Proof.
  intros Hne. induction d as [|[k0 v0] d IH]; simpl.
  - apply String.eqb_neq in Hne. now rewrite Hne.
  - destruct (String.eqb k k0) eqn:E; simpl.
    + apply String.eqb_eq in E. subst k0.
      apply String.eqb_neq in Hne. now rewrite Hne.
    + now rewrite IH.
Qed.

Lemma dict_keys_set {V : Type} (d : Dict.t V) (k k' : string) (v : V) :
  In k' (Dict.keys (Dict.set d k v)) <-> k' = k \/ In k' (Dict.keys d).
Proof.
  unfold Dict.keys. induction d as [|[k0 v0] d IH]; simpl.
  - split; intros [H|H]; auto.
  - destruct (String.eqb k k0) eqn:E; simpl.
    + apply String.eqb_eq in E. subst k0. split; intros H; tauto || (destruct H as [->|H]; auto).
    + rewrite IH. tauto.
Qed.

Lemma dict_set_nodup {V : Type} (d : Dict.t V) (k : string) (v : V) :
  NoDup (Dict.keys d) -> NoDup (Dict.keys (Dict.set d k v)).
Proof.
  unfold Dict.keys. induction d as [|[k0 v0] d IH]; simpl; intros H.
  - constructor; [intros [] | constructor].
  - inversion H as [|x l Hnin Hnd]; subst.
    destruct (String.eqb k k0) eqn:E; simpl.
    + constructor; assumption.
    + constructor; [|now apply IH].
      intros Hin. apply (dict_keys_set d k k0 v) in Hin. destruct Hin as [->|Hin].
      * rewrite String.eqb_refl in E. discriminate.
      * contradiction.
Qed.

Lemma dict_in_get {V : Type} (d : Dict.t V) (k : string) (v : V) :
  NoDup (Dict.keys d) -> In (k, v) d -> Dict.get d k = Some v.
Proof.
  unfold Dict.keys. induction d as [|[k0 v0] d IH]; simpl; intros Hnd Hin; [contradiction|].
  inversion Hnd as [|x l Hnin Hnd']; subst.
  destruct Hin as [[= -> ->]|Hin].
  - now rewrite String.eqb_refl.
  - destruct (String.eqb k k0) eqn:E; [|now apply IH].
    apply String.eqb_eq in E. subst k0. exfalso. apply Hnin.
    apply in_map_iff. exists (k, v). split; [reflexivity | assumption].
Qed.

(** The entry stored for a task, by its outcome. *)
Definition result_of (agent_name : string) (outcome : TaskOutcome) : AgentResult :=
  match outcome with
  | Returned content tokens => mkResult content tokens agent_name
  | TaskRaised e => mkResult (failure_placeholder agent_name e) 0 agent_name
  end.

Definition collect (d : Dict.t AgentResult) (completed : list (string * TaskOutcome))
  : Dict.t AgentResult :=
  fold_left (fun d task => Dict.set d (fst task) (result_of (fst task) (snd task))) completed d.

Lemma run_agents_collect (self : t) (completed : list (string * TaskOutcome)) :
  fst (_run_agents_parallel self completed) = collect [] completed.
Proof.
  unfold _run_agents_parallel, collect.
  generalize (@nil (string * AgentResult)) as d. revert self.
  induction completed as [|[a o] completed IH]; intros self d; simpl; [reflexivity|].
  destruct o; simpl; apply IH.
Qed.

Lemma collect_nodup (completed : list (string * TaskOutcome)) (d : Dict.t AgentResult) :
  NoDup (Dict.keys d) -> NoDup (Dict.keys (collect d completed)).
Proof.
  revert d. induction completed as [|task completed IH]; intros d H; simpl; [exact H|].
  apply IH. now apply dict_set_nodup.
Qed.

Lemma collect_get_other (completed : list (string * TaskOutcome)) (d : Dict.t AgentResult)
      (a : string) :
  ~ In a (map fst completed) -> Dict.get (collect d completed) a = Dict.get d a.
Proof.
  revert d. induction completed as [|[a' o] completed IH]; intros d H; simpl; [reflexivity|].
  simpl in H. rewrite IH by tauto. apply dict_get_set_other. intros ->. tauto.
Qed.

(** When every agent completes once, the dict holds for each agent the entry
    of its outcome. *)
Lemma collect_get (completed : list (string * TaskOutcome)) (d : Dict.t AgentResult)
      (a : string) (o : TaskOutcome) :
  NoDup (map fst completed) -> In (a, o) completed ->
  Dict.get (collect d completed) a = Some (result_of a o).
Proof.
  revert d. induction completed as [|[a' o'] completed IH]; intros d Hnd Hin; [contradiction|].
  simpl in Hnd. inversion Hnd as [|x l Hnin Hnd']; subst.
  destruct Hin as [[= -> ->]|Hin]; simpl.
  - rewrite collect_get_other by assumption. apply dict_get_set_same.
  - now apply IH.
Qed.

Lemma enhanced_origin (agent_results : Dict.t AgentResult) (pd : ProjectSnapshot)
      (a : string) (r : AgentResult) :
  In (a, r) (_enhance_cross_references agent_results pd) ->
  exists r0 summary,
    In (a, r0) agent_results
    /\ r = mkResult (_add_cross_references (res_content r0) a summary pd)
                    (res_tokens r0) (res_agent r0).
Proof.
  unfold _enhance_cross_references. intros H. apply in_map_iff in H.
  destruct H as [[a' r0] [[= -> <-] Hin]]. cbn [fst snd] in *.
  eexists r0, _. split; [exact Hin | reflexivity].
Qed.
End Results.

(** ** Where the tabs of a result come from *)

Section Origins.
Import PyStr OrchestratorAgent.

(** A tab built by [_try_add_tab] from a result that passed validation. *)
Definition from_valid_result (enhanced : Dict.t AgentResult) (t : Tab) : Prop :=
  exists r,
    In (agent t, r) enhanced
    /\ is_valid_result r = true
    /\ tab_content t = strip (res_content r)
    /\ word_count t = List.length (non_heading_words (tab_content t)).

Lemma assembled_tab_cases (enhanced : Dict.t AgentResult) (pd : ProjectSnapshot)
      (now : string) (l : list Tab) (t : Tab) :
  AssembledTabs enhanced pd now l -> In t l ->
  (exists tab_name, t = fallback_tab tab_name (_create_fallback_documentation pd))
  \/ t = overview_tab (toc_of (valid_results_of enhanced) pd now)
  \/ from_valid_result enhanced t.
Proof.
  intros [tab_name | st overview Hwf Hne Hov] Hin.
  - left. exists tab_name. destruct Hin as [<-|[]]. reflexivity.
  - apply in_app_or in Hin. destruct Hin as [Hin|Hin].
    + destruct Hov as [-> | ->]; [contradiction|].
      destruct Hin as [<-|[]]. right. now left.
    + right. right.
      destruct (wf_origin _ _ Hwf t Hin) as (c & Hc & Ht & Hcontent & Hagent & Hwords).
      destruct (candidate_origin enhanced c Hc) as (r & Hr & Hvalid & Hstrip).
      exists r. rewrite Hagent, Hcontent, Hwords. repeat split; assumption.
Qed.

Definition simulated_agents : list string :=
  "Orchestrator" :: map (fun p => fst p ++ " Agent") agent_sections.

Lemma simulation_agents (pd : ProjectSnapshot) (clock : Clock) :
  map agent (gen_tabs (_simulate_comprehensive_generation pd clock)) = simulated_agents.
Proof.
  unfold _simulate_comprehensive_generation. cbn [gen_tabs]. rewrite map_cons, map_map.
  reflexivity.
Qed.

Lemma roster_names_reserved (a : string) :
  In a section_order ->
  a <> "Fallback" /\ a <> "Orchestrator" /\ ~ In a simulated_agents.
Proof.
  intros H.
  assert (forallb (fun a => negb (mem a ("Fallback" :: simulated_agents))) section_order = true)
    as Hall by (vm_compute; reflexivity).
  rewrite forallb_forall in Hall. specialize (Hall a H).
  apply negb_true_iff, mem_false_not_In in Hall.
  split; [|split]; intros Hx; apply Hall.
  - subst. now left.
  - subst. right. now left.
  - now right.
Qed.

(** C10.  The content stored for an agent whose task raised names the
    failure, so with its cross references it is dropped by the validation
    filter; and when each agent completes once, no tab of the returned
    result belongs to an agent of the roster whose task raised. *)
Theorem failed_agent_never_becomes_a_tab
        (self : t) (pd : ProjectSnapshot) (completed : list (string * TaskOutcome))
        (clock : Clock) (a e : string) :
  In a section_order ->
  NoDup (map fst completed) ->
  In (a, TaskRaised e) completed ->
  (forall summary tokens stored,
      is_valid_result
        (mkResult (_add_cross_references (failure_placeholder a e) a summary pd)
                  tokens stored) = false)
  /\ (forall tab, In tab (gen_tabs (generate_comprehensive_documentation self pd completed clock)) ->
                  agent tab <> a).
Proof.
  intros Hroster Hnd Hin.
  split; [intros; apply enhanced_placeholder_invalid|].
  destruct (roster_names_reserved a Hroster) as (Hfb & Horch & Hsim).
  intros tab Htab Hagent.
  destruct (generate_cases self pd completed clock) as [Heq | Hasm].
  - rewrite Heq in Htab. apply Hsim. rewrite <- (simulation_agents pd clock), <- Hagent.
    now apply in_map.
  - destruct (assembled_tab_cases _ _ _ _ tab Hasm Htab) as [[n ->] | [-> | (r & Hr & Hvalid & _)]];
      [now apply Hfb | now apply Horch |].
    rewrite Hagent in Hr. unfold enhanced_results in Hr.
    apply enhanced_origin in Hr. destruct Hr as (r0 & summary & Hr0 & ->).
    rewrite run_agents_collect in Hr0.
    apply dict_in_get in Hr0; [|apply collect_nodup; constructor].
    rewrite (collect_get completed [] a (TaskRaised e) Hnd Hin) in Hr0.
    injection Hr0 as <-. cbn [result_of res_content res_tokens res_agent] in Hvalid.
    rewrite enhanced_placeholder_invalid in Hvalid. discriminate.
Qed.

(** A run in which the first agent's task raised and a second one returned. *)
Definition one_failed : list (string * TaskOutcome) :=
  [ ("Code Architecture Agent", TaskRaised "connection reset");
    ("System Architecture Agent", Returned (sample_content "Architecture" "arch" 8) 120) ].

Lemma failed_agent_never_becomes_a_tab_witness :
  In "Code Architecture Agent" section_order
  /\ NoDup (map fst one_failed)
  /\ In ("Code Architecture Agent", TaskRaised "connection reset") one_failed
  /\ map agent (gen_tabs (generate_comprehensive_documentation
                            sample_orchestrator demo_snapshot one_failed demo_clock))
     = ["System Architecture Agent"]
  /\ (forall tab,
         In tab (gen_tabs (generate_comprehensive_documentation
                             sample_orchestrator demo_snapshot one_failed demo_clock)) ->
         agent tab <> "Code Architecture Agent").
Proof.
  assert (In "Code Architecture Agent" section_order) as H1 by (simpl; tauto).
  assert (NoDup (map fst one_failed)) as H2.
  { simpl. constructor; [simpl; intros [H|[]]; discriminate|].
    constructor; [intros [] | constructor]. }
  assert (In ("Code Architecture Agent", TaskRaised "connection reset") one_failed) as H3
      by (simpl; tauto).
  split; [exact H1|]. split; [exact H2|]. split; [exact H3|].
  split; [vm_compute; reflexivity|].
  exact (proj2 (failed_agent_never_becomes_a_tab
                  sample_orchestrator demo_snapshot one_failed demo_clock
                  "Code Architecture Agent" "connection reset" H1 H2 H3)).
Defined.
End Origins.

(** ** Counting words *)

Section WordCounts.
Import PyStr.









End WordCounts.


Section TabWordCounts.
Import PyStr OrchestratorAgent.


End TabWordCounts.

(** ** Content and word count of the tabs *)

Section TabContents.
Import PyStr OrchestratorAgent.









End TabContents.

(** ** The retry loop of an agent *)

Section RetryLoop.
Import PyStr DocumentationAgent.

(** One attempt answered by the empty string: the draft fails the gate, the
    best draft is unchanged and the loop goes on with one more call made. *)
Lemma attempt_on_empty_reply (self : t) (backend : Backend) (user_prompt : string)
      (attempt : nat) (rest : list nat) (st : LoopState) :
  (forall n request, exists tokens,
        backend n request = Completed (mkResponse (Some "") tokens)) ->
  exists msgs total,
    attempts self backend user_prompt (attempt :: rest) st
    = attempts self backend user_prompt rest
               (mkLoop msgs total (best_content st) (best_len st) (S (calls st))).
Proof.
  intros Hb. cbn [attempts].
  destruct (Hb (calls st)
               (mkRequest (model self) (messages st)
                          (if (attempt =? 1)%nat then 20 else 15) 4500)) as [tokens ->].
  cbn [resp_content resp_total_tokens get_or].
  change (strip "") with "". change (_passes_quality "") with false.
  change (len "") with 0. change (best_len st <? 0)%nat with false.
  cbv iota. eexists _, _. reflexivity.
Qed.

(** C6.  With a client that answers every request with the empty string,
    [analyze_project] sends exactly three requests and returns the
    non-empty text that stands for a missing draft. *)
Theorem empty_replies_cost_three_calls
        (self : t) (backend : Backend) (pd : ProjectSnapshot)
        (shared_context : Dict.t string) :
  openai_client self = Some backend ->
  (forall n request, exists tokens,
        backend n request = Completed (mkResponse (Some "") tokens)) ->
  run_calls (analyze_project self pd shared_context) = 3
  /\ run_content (analyze_project self pd shared_context) <> ""
  /\ run_content (analyze_project self pd shared_context)
     = "# Draft Incomplete" ++ nl ++ nl ++ "No content.".
Proof.
  intros Hclient Hb. unfold analyze_project. rewrite Hclient. cbv zeta.
  set (user_prompt := _create_user_prompt self pd (_build_context self pd shared_context)).
  change (seq 1 3) with [1; 2; 3].
  do 3 match goal with
       | |- context [attempts self backend user_prompt (?a :: ?r) ?st] =>
           let msgs := fresh "msgs" in
           let total := fresh "total" in
           let E := fresh "E" in
           destruct (attempt_on_empty_reply self backend user_prompt a r st Hb)
             as (msgs & total & E);
           rewrite E; clear E; cbn [best_content best_len calls]
       end.
  cbn. split; [reflexivity|]. split; [discriminate | reflexivity].
Qed.

Definition empty_backend : Backend :=
  fun _ _ => Completed (mkResponse (Some "") (Some 12)).

Definition sample_agent : t :=
  mkAgent "Security Implementation Agent"
          "Principal Security Engineer and Authentication Specialist"
          "You are a principal security engineer." (Some empty_backend) "gpt-4o-mini" 0.

Lemma empty_replies_cost_three_calls_witness :
  openai_client sample_agent = Some empty_backend
  /\ run_calls (analyze_project sample_agent demo_snapshot []) = 3
  /\ run_tokens (analyze_project sample_agent demo_snapshot []) = 36
  /\ run_content (analyze_project sample_agent demo_snapshot []) <> "".
Proof.
  split; [reflexivity|].
  destruct (empty_replies_cost_three_calls sample_agent empty_backend demo_snapshot []
              eq_refl (fun _ _ => ex_intro _ (Some 12) eq_refl)) as (H3 & Hne & _).
  split; [exact H3|]. split; [vm_compute; reflexivity | exact Hne].
Defined.
End RetryLoop.

(** ** The quality gate *)

(** The heading tally of the gate, read on the lines of the text. *)

Section HeadingTally.
Import PyStr DocumentationAgent.








End HeadingTally.


Section QualityGate.
Import PyStr DocumentationAgent.







(** A draft: an opening and [n] more words. *)
Definition draft_with (opening : string) (n : nat) : string :=
  opening ++ String.concat "" (repeat " word" n).





Definition three_headings_after_summary : string :=
  "Summary" ++ nl ++ nl ++ "# Usage" ++ nl ++ nl ++ "# Notes" ++ nl ++ nl ++ "# Limits"
  ++ nl ++ nl ++ "- item".


End QualityGate.

(** ** Images embedded by an agent *)

Section Images.
Import PyStr DocumentationAgent.













End Images.


(* ========================================================================= *)
(** * Further properties of the service

    Properties of the functions above beyond those the specification states:
    the retry loop of an agent, the fan-out of the orchestrator, the
    assembler, the image and prompt helpers and the file listings. *)

(** * Texts that are not blank *)

Section Visible.
Import PyStr.

(** Some character of [s] is not whitespace. *)
Fixpoint visible (s : string) : bool :=
  match s with
  | "" => false
  | String c s' => negb (isspace c) || visible s'
  end.

Lemma visible_append (a b : string) : visible (a ++ b) = visible a || visible b.
Proof.
  induction a as [|c a IH]; [reflexivity|].
  change (String c a ++ b) with (String c (a ++ b)). cbn [visible].
  now rewrite IH, orb_assoc.
Qed.

Lemma visible_rev (s : string) : visible (rev s) = visible s.
Proof.
  induction s as [|c s IH]; [reflexivity|].
  rewrite rev_cons, visible_append, IH. cbn [visible]. rewrite orb_false_r. apply orb_comm.
Qed.

Lemma visible_lstrip (s : string) : visible (lstrip_by isspace s) = visible s.
Proof.
  induction s as [|c s IH]; [reflexivity|]. cbn [lstrip_by visible].
  destruct (isspace c) eqn:E; [exact IH | cbn [visible]; now rewrite E].
Qed.

Lemma lstrip_starts_visible (s : string) :
  lstrip_by isspace s <> "" -> visible (lstrip_by isspace s) = true.
Proof.
  induction s as [|c s IH]; cbn [lstrip_by]; [congruence|].
  destruct (isspace c) eqn:E; [exact IH|]. intros _. cbn [visible]. now rewrite E.
Qed.

Lemma visible_strip (s : string) : visible (strip s) = visible s.
Proof.
  unfold strip, strip_by, rstrip_by.
  now rewrite visible_rev, visible_lstrip, visible_rev, visible_lstrip.
Qed.

(** [s.strip()] is empty exactly when [s] has no visible character. *)
Lemma blank_iff (s : string) : is_empty (strip s) = negb (visible s).
Proof.
  destruct (visible s) eqn:V.
  - rewrite <- visible_strip in V. destruct (strip s); [discriminate | reflexivity].
  - unfold strip, strip_by, rstrip_by in *.
    destruct (lstrip_by isspace (rev (lstrip_by isspace s))) as [|c r] eqn:E; [reflexivity|].
    assert (H : visible (lstrip_by isspace (rev (lstrip_by isspace s))) = true)
      by (apply lstrip_starts_visible; rewrite E; discriminate).
    rewrite visible_lstrip, visible_rev, visible_lstrip in H. congruence.
Qed.

Lemma visible_join_In (sep x : string) (l : list string) :
  In x l -> visible x = true -> visible (join sep l) = true.
Proof.
  intros Hin Hx. induction l as [|y l IH]; [contradiction|].
  destruct l as [|z l].
  - destruct Hin as [->|[]]. exact Hx.
  - change (join sep (y :: z :: l)) with (y ++ sep ++ join sep (z :: l)).
    rewrite !visible_append. destruct Hin as [->|Hin].
    + now rewrite Hx.
    + rewrite (IH Hin). now rewrite !orb_true_r.
Qed.

Lemma visible_nonempty (s : string) : visible s = true -> s <> "".
Proof. intros H ->. discriminate. Qed.
End Visible.

(** * Further properties of the assembler *)

Section AssemblerSections.
Import PyStr OrchestratorAgent.

Lemma accepts_initial (toc : string) (c : Candidate) :
  accepts (initial_assembly toc) c = true.
Proof. reflexivity. Qed.

Lemma tabs_grow (cands : list Candidate) (st : Assembly) :
  tabs st <> [] -> tabs (fold_left add_candidate cands st) <> [].
Proof.
  intros H. apply (fold_candidates_invariant (fun s => tabs s <> [])); [|exact H].
  intros s c _ Hs _. simpl. intros Hnil. apply app_eq_nil in Hnil. tauto.
Qed.

Lemma dict_get_head {V : Type} (k : string) (v : V) (d : Dict.t V) :
  Dict.get ((k, v) :: d) k = Some v.
Proof. simpl. now rewrite String.eqb_refl. Qed.

(** A dict of valid results with an entry gives the loops a candidate. *)
Lemma candidates_nonempty (enhanced : Dict.t AgentResult) :
  valid_results_of enhanced <> [] -> candidates (valid_results_of enhanced) <> [].
Proof.
  destruct (valid_results_of enhanced) as [|[k r] valid] eqn:Hv; [congruence|]. intros _.
  assert (is_valid_result r = true) as Hr.
  { assert (In (k, r) (valid_results_of enhanced)) as Hin by (rewrite Hv; now left).
    unfold valid_results_of in Hin. apply filter_In in Hin. tauto. }
  unfold candidates. destruct (mem k section_order) eqn:Hk.
  - apply mem_In in Hk. intros Hnil. apply app_eq_nil in Hnil. destruct Hnil as [Hnil _].
    unfold ordered_candidates in Hnil.
    assert (In (mkCandidate (replace k " Agent" " Analysis") (strip (res_content r)) k)
               (flat_map (fun agent_name =>
                            match Dict.get ((k, r) :: valid) agent_name with
                            | Some result =>
                                [mkCandidate (replace agent_name " Agent" " Analysis")
                                             (strip (res_content result)) agent_name]
                            | None => []
                            end) section_order)) as Hin.
    { apply in_flat_map. exists k. split; [exact Hk|]. rewrite dict_get_head. now left. }
    rewrite Hnil in Hin. contradiction.
  - intros Hnil. apply app_eq_nil in Hnil. destruct Hnil as [_ Hnil].
    unfold other_candidates in Hnil. cbn [flat_map fst snd] in Hnil. rewrite Hk in Hnil.
    unfold is_valid_result in Hr.
    destruct (is_empty (strip (res_content r))); [discriminate|].
    cbn in Hnil. discriminate.
Qed.

Lemma assembled_tabs_nonempty (enhanced : Dict.t AgentResult) (toc : string) :
  valid_results_of enhanced <> [] ->
  tabs (assembled_state (valid_results_of enhanced) (initial_assembly toc)) <> [].
Proof.
  intros Hv. apply candidates_nonempty in Hv. unfold assembled_state.
  destruct (candidates (valid_results_of enhanced)) as [|c cands]; [congruence|].
  cbn [fold_left]. apply tabs_grow.
  rewrite add_candidate_eq, accepts_initial. simpl. discriminate.
Qed.

(** The assembler, when some result passes validation: the second fallback
    of the source is never taken. *)
Lemma assemble_with_valid (enhanced : Dict.t AgentResult) (pd : ProjectSnapshot)
      (now : string) :
  valid_results_of enhanced <> [] ->
  let toc := toc_of (valid_results_of enhanced) pd now in
  let st := assembled_state (valid_results_of enhanced) (initial_assembly toc) in
  _assemble_final_documentation enhanced pd now
  = mkDocumentation (join nl (full_content_parts st)) (with_overview toc (tabs st))
  /\ tabs st <> [].
Proof.
  intros Hv. cbv zeta.
  pose proof (assembled_tabs_nonempty enhanced (toc_of (valid_results_of enhanced) pd now) Hv)
    as Hne.
  split; [|exact Hne]. rewrite assemble_eq.
  destruct (valid_results_of enhanced) as [|kv valid]; [congruence|]. cbv zeta.
  destruct (tabs (assembled_state (kv :: valid) _)); [congruence | reflexivity].
Qed.

Lemma accepted_with_overview (toc : string) (st : Assembly) (cands : list Candidate) :
  WellFormed cands st -> accepted (with_overview toc (tabs st)) = tabs st.
Proof.
  intros Hwf. unfold with_overview.
  destruct (1 <? _)%nat; cbn [accepted filter numbered overview_tab section_number];
    apply accepted_of_numbered, (wf_numbers _ _ Hwf).
Qed.

(** The fallback tab stands for the whole document exactly when no agent
    result passes the validation filter; otherwise the first candidate is
    always accepted, as section 1. *)
Theorem fallback_only_without_valid_results
        (enhanced : Dict.t AgentResult) (pd : ProjectSnapshot) (now : string) :
  (valid_results_of enhanced = [] ->
   _assemble_final_documentation enhanced pd now
   = mkDocumentation (_create_fallback_documentation pd)
       [fallback_tab "Project Overview" (_create_fallback_documentation pd)])
  /\ (valid_results_of enhanced <> [] ->
      exists first rest,
        accepted (doc_tabs (_assemble_final_documentation enhanced pd now)) = first :: rest
        /\ section_number first = Some 1
        /\ from_valid_result enhanced first).
Proof.
  split; intros Hv.
  - rewrite assemble_eq, Hv. reflexivity.
  - destruct (assemble_with_valid enhanced pd now Hv) as [-> Hne]. cbn [doc_tabs].
    pose proof (well_formed_assembled (valid_results_of enhanced)
                  (toc_of (valid_results_of enhanced) pd now)) as Hwf.
    rewrite (accepted_with_overview _ _ _ Hwf).
    destruct (tabs (assembled_state _ _)) as [|first rest] eqn:E; [congruence|].
    exists first, rest. split; [reflexivity|].
    pose proof (wf_numbers _ _ Hwf) as Hn. rewrite E in Hn. cbn in Hn.
    injection Hn as Hfirst _. split; [exact Hfirst|].
    destruct (wf_origin _ _ Hwf first) as (c & Hc & Ht & Hcontent & Hagent & Hwords);
      [rewrite E; now left|].
    destruct (candidate_origin enhanced c Hc) as (r & Hr & Hvalid & Hstrip).
    exists r. rewrite Hagent, Hcontent, Hwords. repeat split; assumption.
Qed.
End AssemblerSections.

Section AssemblerOrder.
Import PyStr OrchestratorAgent.

Definition section_key (t : Tab) : string := normalize_title (tab_title t).

Lemma NoDup_snoc {A : Type} (l : list A) (x : A) :
  NoDup l -> ~ In x l -> NoDup (l ++ [x]).
Proof.
  induction l as [|y l IH]; intros Hnd Hx; simpl.
  - constructor; [intros [] | constructor].
  - inversion Hnd as [|z l' Hy Hl]; subst. constructor.
    + intros Hin. apply in_app_or in Hin. destruct Hin as [Hin|[<-|[]]]; [tauto|].
      apply Hx. now left.
    + apply IH; [assumption|]. intros Hin. apply Hx. now right.
Qed.

(** What the title test of [_try_add_tab] maintains. *)
Definition TitlesKept (st : Assembly) : Prop :=
  (forall t, In t (tabs st) -> In (section_key t) (seen_titles st))
  /\ NoDup (map section_key (tabs st)).

Lemma titles_kept_assembled (valid : Dict.t AgentResult) (toc : string) :
  TitlesKept (assembled_state valid (initial_assembly toc)).
Proof.
  unfold assembled_state. apply (fold_candidates_invariant TitlesKept).
  - intros st c _ [Hseen Hnd] Hacc.
    unfold accepts in Hacc. rewrite !andb_true_iff, !negb_true_iff in Hacc.
    destruct Hacc as [[Htitle _] _]. apply mem_false_not_In in Htitle.
    split; simpl.
    + intros t Hin. apply in_app_or in Hin. destruct Hin as [Hin|[<-|[]]].
      * right. now apply Hseen.
      * now left.
    + rewrite map_app. apply NoDup_snoc; [exact Hnd|]. simpl.
      intros Hin. apply in_map_iff in Hin. destruct Hin as (t & Ht & Hin).
      apply Htitle. unfold section_key in Ht. cbn [accepted_tab tab_title] in Ht.
      rewrite <- Ht. now apply Hseen.
  - split; [intros t [] | constructor].
Qed.

(** No two accepted sections of a returned document have titles that agree
    once lowercased and stripped of the words "analysis", "documentation",
    "implementation", "operations", "assurance" and "optimization". *)
Theorem accepted_titles_distinct
        (enhanced : Dict.t AgentResult) (pd : ProjectSnapshot) (now : string) :
  NoDup (map section_key
             (accepted (doc_tabs (_assemble_final_documentation enhanced pd now)))).
Proof.
  destruct (valid_results_of enhanced) as [|kv valid] eqn:Hv.
  - rewrite assemble_eq, Hv. constructor.
  - assert (valid_results_of enhanced <> []) as Hne by (rewrite Hv; discriminate).
    destruct (assemble_with_valid enhanced pd now Hne) as [-> _]. cbn [doc_tabs].
    rewrite (accepted_with_overview _ _ _ (well_formed_assembled _ _)).
    apply titles_kept_assembled.
Qed.

(** [l1] is [l2] with some elements left out. *)
Inductive Subsequence {A : Type} : list A -> list A -> Prop :=
| subseq_nil : Subsequence [] []
| subseq_skip (x : A) (l1 l2 : list A) : Subsequence l1 l2 -> Subsequence l1 (x :: l2)
| subseq_keep (x : A) (l1 l2 : list A) : Subsequence l1 l2 -> Subsequence (x :: l1) (x :: l2).

Lemma subsequence_refl {A : Type} (l : list A) : Subsequence l l.
Proof. induction l; constructor; assumption. Qed.

Lemma subsequence_nil {A : Type} (l : list A) : Subsequence [] l.
Proof. induction l; constructor; assumption. Qed.

Lemma subsequence_app {A : Type} (a1 a2 b1 b2 : list A) :
  Subsequence a1 a2 -> Subsequence b1 b2 -> Subsequence (a1 ++ b1) (a2 ++ b2).
Proof.
  induction 1 as [|x l1 l2 H IH|x l1 l2 H IH]; intros Hb; simpl.
  - exact Hb.
  - apply subseq_skip. now apply IH.
  - apply subseq_keep. now apply IH.
Qed.

(** The agents of the tabs added by the loops, in order, are among the
    agents of the candidates, in order. *)
Lemma added_tabs_in_order (cands : list Candidate) (st : Assembly) :
  exists added,
    map agent (tabs (fold_left add_candidate cands st)) = (map agent (tabs st) ++ added)%list
    /\ Subsequence added (map cand_agent cands).
Proof.
  revert st. induction cands as [|c cands IH]; intros st; cbn [fold_left map].
  - exists []. rewrite app_nil_r. split; [reflexivity | constructor].
  - destruct (IH (add_candidate st c)) as (added & Heq & Hsub).
    rewrite add_candidate_eq in Heq. rewrite add_candidate_eq.
    destruct (accepts st c).
    + exists (cand_agent c :: added). split; [|now apply subseq_keep].
      rewrite Heq. cbn [accepted_state tabs]. rewrite map_app, <- app_assoc. reflexivity.
    + exists added. split; [exact Heq | now apply subseq_skip].
Qed.

(** The canonical order, restricted to the agents with a valid result,
    then the other agents in the order of the dict. *)
Definition display_order (valid : Dict.t AgentResult) : list string :=
  (filter (Dict.has_key valid) section_order
   ++ filter (fun k => negb (mem k section_order)) (Dict.keys valid))%list.

Lemma candidate_agents_in_order (valid : Dict.t AgentResult) :
  Subsequence (map cand_agent (candidates valid)) (display_order valid).
Proof.
  unfold candidates, display_order. rewrite map_app. apply subsequence_app.
  - unfold ordered_candidates. induction section_order as [|a order IH]; [constructor|].
    cbn [flat_map filter]. unfold Dict.has_key at 1.
    destruct (Dict.get valid a); cbn [map app]; [now apply subseq_keep | exact IH].
  - unfold other_candidates, Dict.keys. induction valid as [|[k r] valid IH]; [constructor|].
    cbn [flat_map map filter fst snd].
    destruct (mem k section_order); cbn [negb app map]; [exact IH|].
    destruct (is_empty _); cbn [app map]; [apply subseq_skip | apply subseq_keep]; exact IH.
Qed.

Lemma subsequence_trans {A : Type} (l1 l2 l3 : list A) :
  Subsequence l1 l2 -> Subsequence l2 l3 -> Subsequence l1 l3.
Proof.
  intros H12 H23. revert l1 H12. induction H23; intros l1' H12.
  - exact H12.
  - apply subseq_skip. now apply IHSubsequence.
  - inversion H12; subst.
    + apply subseq_skip. now apply IHSubsequence.
    + apply subseq_keep. now apply IHSubsequence.
Qed.

(** The accepted sections come in the canonical order of the agents, whatever
    the order of the results dict; sections of agents outside the canonical
    list follow, in the order of the dict. *)
Theorem sections_in_canonical_order
        (enhanced : Dict.t AgentResult) (pd : ProjectSnapshot) (now : string) :
  Subsequence
    (map agent (accepted (doc_tabs (_assemble_final_documentation enhanced pd now))))
    (display_order (valid_results_of enhanced)).
Proof.
  destruct (valid_results_of enhanced) as [|kv valid] eqn:Hv.
  - rewrite assemble_eq, Hv. apply subsequence_nil.
  - assert (valid_results_of enhanced <> []) as Hne by (rewrite Hv; discriminate).
    destruct (assemble_with_valid enhanced pd now Hne) as [-> _]. cbn [doc_tabs].
    rewrite (accepted_with_overview _ _ _ (well_formed_assembled _ _)).
    unfold assembled_state. rewrite Hv.
    destruct (added_tabs_in_order (candidates (kv :: valid))
                (initial_assembly (toc_of (kv :: valid) pd now))) as (added & -> & Hsub).
    cbn [initial_assembly tabs map app].
    eapply subsequence_trans; [exact Hsub | apply candidate_agents_in_order].
Qed.
End AssemblerOrder.

Section AssemblerText.
Import PyStr OrchestratorAgent.

(** The three parts of the text that stand for a numbered tab. *)
Definition tab_parts (t : Tab) : list string :=
  match section_number t with
  | Some n => section_parts n (tab_title t) (tab_content t)
  | None => []
  end.

Lemma parts_follow_tabs (valid : Dict.t AgentResult) (toc : string) :
  full_content_parts (assembled_state valid (initial_assembly toc))
  = (full_content_parts (initial_assembly toc)
     ++ flat_map tab_parts (tabs (assembled_state valid (initial_assembly toc))))%list.
Proof.
  unfold assembled_state.
  apply (fold_candidates_invariant
           (fun st => full_content_parts st
                      = (full_content_parts (initial_assembly toc)
                         ++ flat_map tab_parts (tabs st))%list)).
  - intros st c _ Hst _. cbn [accepted_state full_content_parts tabs].
    rewrite Hst, flat_map_app, <- app_assoc. cbn [flat_map accepted_tab tab_parts
      section_number tab_title tab_content]. now rewrite app_nil_r.
  - reflexivity.
Qed.

(** The text of the document agrees with its tabs: when some result passes
    validation it is the table of contents followed, for each accepted
    section in order, by its numbered heading line, its content and a
    rule, joined by line feeds; otherwise it is the fallback text. *)
Theorem text_follows_accepted_sections
        (enhanced : Dict.t AgentResult) (pd : ProjectSnapshot) (now : string) :
  doc_content (_assemble_final_documentation enhanced pd now)
  = match valid_results_of enhanced with
    | [] => _create_fallback_documentation pd
    | _ :: _ =>
        join nl (full_content_parts
                   (initial_assembly (toc_of (valid_results_of enhanced) pd now))
                 ++ flat_map tab_parts
                      (accepted (doc_tabs (_assemble_final_documentation enhanced pd now))))%list
    end.
Proof.
  destruct (valid_results_of enhanced) as [|kv valid] eqn:Hv.
  - rewrite assemble_eq, Hv. reflexivity.
  - assert (valid_results_of enhanced <> []) as Hne by (rewrite Hv; discriminate).
    destruct (assemble_with_valid enhanced pd now Hne) as [-> _].
    cbn [doc_tabs doc_content].
    rewrite (accepted_with_overview _ _ _ (well_formed_assembled _ _)).
    rewrite Hv. now rewrite <- parts_follow_tabs.
Qed.

(** The overview tab is present exactly when two or more sections were
    accepted, and then it is the first tab and holds the table of contents. *)
Theorem overview_iff_several_sections
        (enhanced : Dict.t AgentResult) (pd : ProjectSnapshot) (now : string) :
  let d := _assemble_final_documentation enhanced pd now in
  (2 <= List.length (accepted (doc_tabs d)) ->
   doc_tabs d = overview_tab (toc_of (valid_results_of enhanced) pd now) :: accepted (doc_tabs d))
  /\ (List.length (accepted (doc_tabs d)) = 1 -> doc_tabs d = accepted (doc_tabs d))
  /\ (accepted (doc_tabs d) = [] ->
      doc_tabs d = [fallback_tab "Project Overview" (_create_fallback_documentation pd)]).
Proof.
  cbv zeta. destruct (valid_results_of enhanced) as [|kv valid] eqn:Hv.
  - rewrite assemble_eq, Hv. cbn [doc_tabs accepted filter numbered fallback_tab section_number
                                  List.length].
    split; [intros; lia|]. split; [discriminate | reflexivity].
  - assert (valid_results_of enhanced <> []) as Hne by (rewrite Hv; discriminate).
    destruct (assemble_with_valid enhanced pd now Hne) as [-> Htabs].
    cbn [doc_tabs]. rewrite Hv in *.
    rewrite (accepted_with_overview _ _ _ (well_formed_assembled _ _)).
    unfold with_overview.
    destruct (tabs (assembled_state (kv :: valid) _)) as [|t1 [|t2 ts]]; [congruence| |].
    + change (1 <? List.length [t1])%nat with false. cbn [List.length].
      split; [intros; lia|]. split; [reflexivity | discriminate].
    + change (1 <? List.length (t1 :: t2 :: ts))%nat with true. cbn [List.length].
      split; [reflexivity|]. split; [intros; lia | discriminate].
Qed.
End AssemblerText.

From Stdlib Require Import Permutation.

(** * Further properties of the fan-out *)

Section FanOut.
Import PyStr OrchestratorAgent.

(** The tokens reported by the tasks that returned. *)
Fixpoint returned_tokens (completed : list (string * TaskOutcome)) : nat :=
  match completed with
  | [] => 0
  | (_, Returned _ tokens) :: rest => tokens + returned_tokens rest
  | (_, TaskRaised _) :: rest => returned_tokens rest
  end.

Definition with_total_tokens (self : t) (n : nat) : t :=
  mkOrchestrator (client self) (model self) (agents self) (shared_context self) n.

Lemma run_agents_state (self : t) (completed : list (string * TaskOutcome)) :
  snd (_run_agents_parallel self completed)
  = with_total_tokens self (total_tokens self + returned_tokens completed).
Proof.
  unfold _run_agents_parallel.
  generalize (@nil (string * AgentResult)) as d. revert self.
  induction completed as [|[a o] completed IH]; intros self d; cbn [fold_left returned_tokens].
  - cbn [snd]. destruct self. unfold with_total_tokens. cbn. now rewrite Nat.add_0_r.
  - destruct o as [content tokens|e]; cbn [fst snd]; rewrite IH;
      unfold with_total_tokens; cbn; [f_equal; lia | reflexivity].
Qed.

Lemma run_agents_pair (self : t) (completed : list (string * TaskOutcome)) :
  _run_agents_parallel self completed
  = (collect [] completed,
     with_total_tokens self (total_tokens self + returned_tokens completed)).
Proof.
  rewrite (surjective_pairing (_run_agents_parallel self completed)).
  now rewrite run_agents_collect, run_agents_state.
Qed.

Lemma collect_keys (completed : list (string * TaskOutcome)) (d : Dict.t AgentResult)
      (a : string) :
  In a (Dict.keys (collect d completed)) <-> In a (Dict.keys d) \/ In a (map fst completed).
Proof.
  revert d. induction completed as [|[a' o] completed IH]; intros d.
  - simpl. tauto.
  - change (collect d ((a', o) :: completed))
      with (collect (Dict.set d a' (result_of a' o)) completed).
    rewrite IH, dict_keys_set. cbn [map fst In]. split; intros H; intuition auto.
Qed.

Lemma dict_set_length {V : Type} (d : Dict.t V) (k : string) (v : V) :
  List.length (Dict.set d k v) <= S (List.length d).
Proof.
  induction d as [|[k' v'] d IH]; simpl; [lia|].
  destruct (String.eqb k k'); simpl; lia.
Qed.

Lemma collect_length (completed : list (string * TaskOutcome)) (d : Dict.t AgentResult) :
  List.length (collect d completed) <= List.length d + List.length completed.
Proof.
  revert d. induction completed as [|[a o] completed IH]; intros d.
  - simpl. lia.
  - change (collect d ((a, o) :: completed))
      with (collect (Dict.set d a (result_of a o)) completed).
    specialize (IH (Dict.set d a (result_of a o))).
    pose proof (dict_set_length d a (result_of a o)). simpl. simpl in IH. lia.
Qed.

(** The bookkeeping of [_run_agents_parallel]: the results dict has one entry
    per agent that completed, never two for the same agent, and the token
    total grows by what the returning tasks reported; a task that raised
    adds an entry and no tokens. *)
Theorem fan_out_bookkeeping (self : t) (completed : list (string * TaskOutcome)) :
  let results := fst (_run_agents_parallel self completed) in
  let self' := snd (_run_agents_parallel self completed) in
  NoDup (Dict.keys results)
  /\ (forall a, In a (Dict.keys results) <-> In a (map fst completed))
  /\ List.length results <= List.length completed
  /\ total_tokens self' = total_tokens self + returned_tokens completed
  /\ agents self' = agents self
  /\ client self' = client self.
Proof.
  cbv zeta. rewrite run_agents_pair. cbn [fst snd].
  split; [apply collect_nodup; constructor|].
  split; [intros a; rewrite collect_keys; simpl; tauto|].
  split; [apply (collect_length completed [])|].
  repeat split.
Qed.
End FanOut.

(** * The completion order of the agents *)

Section CompletionOrder.
Import PyStr OrchestratorAgent.

Definition entry_of (task : string * TaskOutcome) : string * AgentResult :=
  (fst task, result_of (fst task) (snd task)).

Lemma dict_set_fresh {V : Type} (d : Dict.t V) (k : string) (v : V) :
  ~ In k (Dict.keys d) -> Dict.set d k v = (d ++ [(k, v)])%list.
Proof.
  unfold Dict.keys. induction d as [|[k' v'] d IH]; intros H; simpl; [reflexivity|].
  simpl in H. destruct (String.eqb k k') eqn:E.
  - apply String.eqb_eq in E. subst. tauto.
  - rewrite IH; [reflexivity | tauto].
Qed.

(** When every agent completes once, the dict lists them in completion order. *)
Lemma collect_distinct (completed : list (string * TaskOutcome)) (d : Dict.t AgentResult) :
  NoDup (Dict.keys d ++ map fst completed)%list ->
  collect d completed = (d ++ map entry_of completed)%list.
Proof.
  revert d. induction completed as [|[a o] completed IH]; intros d H.
  - simpl. now rewrite app_nil_r.
  - change (collect d ((a, o) :: completed))
      with (collect (Dict.set d a (result_of a o)) completed).
    cbn [map fst] in H.
    assert (Hfresh : ~ In a (Dict.keys d)).
    { apply NoDup_remove_2 in H. intros Hin. apply H. apply in_or_app. now left. }
    rewrite dict_set_fresh by exact Hfresh.
    rewrite IH.
    + rewrite <- app_assoc. reflexivity.
    + unfold Dict.keys in *. rewrite map_app, <- app_assoc. exact H.
Qed.

Lemma enhance_is_map (d : Dict.t AgentResult) (pd : ProjectSnapshot) :
  _enhance_cross_references d pd
  = map (fun kv =>
           (fst kv,
            mkResult (_add_cross_references (res_content (snd kv)) (fst kv) [] pd)
                     (res_tokens (snd kv)) (res_agent (snd kv)))) d.
Proof. reflexivity. Qed.

Lemma enhance_keys (d : Dict.t AgentResult) (pd : ProjectSnapshot) :
  Dict.keys (_enhance_cross_references d pd) = Dict.keys d.
Proof.
  rewrite enhance_is_map. unfold Dict.keys. rewrite map_map. reflexivity.
Qed.

Lemma permutation_filter {A : Type} (p : A -> bool) (l1 l2 : list A) :
  Permutation l1 l2 -> Permutation (filter p l1) (filter p l2).
Proof.
  induction 1 as [|x l1 l2 _ IH|x y l|l1 l2 l3 _ IH1 _ IH2]; simpl.
  - constructor.
  - destruct (p x); [now constructor | exact IH].
  - destruct (p x), (p y); try reflexivity. constructor.
  - now transitivity (filter p l2).
Qed.

(** Dropping entries of a dict keeps its keys distinct. *)
Lemma filtered_keys_distinct {V : Type} (keep : string * V -> bool) (d : Dict.t V) :
  NoDup (Dict.keys d) -> NoDup (Dict.keys (filter keep d)).
Proof.
  unfold Dict.keys. intros Hnd.
  induction d as [|kv d IH]; cbn [filter map]; [constructor|].
  cbn [map] in Hnd. apply NoDup_cons_iff in Hnd. destruct Hnd as [Hfresh Hrest].
  destruct (keep kv); cbn [map]; [|now apply IH].
  apply NoDup_cons_iff. split; [|now apply IH].
  intros Hin. apply Hfresh. apply in_map_iff in Hin. destruct Hin as (kv' & Hk & Hin).
  apply filter_In in Hin. apply in_map_iff. exists kv'. tauto.
Qed.

Lemma dict_get_permutation {V : Type} (d1 d2 : Dict.t V) (k : string) :
  Permutation d1 d2 -> NoDup (Dict.keys d1) -> Dict.get d1 k = Dict.get d2 k.
Proof.
  intros Hp Hnd1.
  assert (Hnd2 : NoDup (Dict.keys d2)).
  { unfold Dict.keys in *. eapply Permutation_NoDup; [|exact Hnd1].
    now apply Permutation_map. }
  destruct (Dict.get d1 k) as [v1|] eqn:E1.
  - apply dict_get_In in E1. symmetry. apply dict_in_get; [exact Hnd2|].
    eapply Permutation_in; eassumption.
  - destruct (Dict.get d2 k) as [v2|] eqn:E2; [|reflexivity].
    apply dict_get_In in E2.
    assert (Hin : In (k, v2) d1) by (eapply Permutation_in; [symmetry|]; eassumption).
    apply (dict_in_get d1 k v2 Hnd1) in Hin. congruence.
Qed.

Lemma ordered_candidates_ext (v1 v2 : Dict.t AgentResult) :
  (forall k, Dict.get v1 k = Dict.get v2 k) ->
  ordered_candidates v1 = ordered_candidates v2.
Proof.
  intros H. unfold ordered_candidates.
  induction section_order as [|a l IH]; simpl; [reflexivity|].
  now rewrite H, IH.
Qed.

Lemma no_other_candidates (v : Dict.t AgentResult) :
  (forall k, In k (Dict.keys v) -> In k section_order) -> other_candidates v = [].
Proof.
  unfold other_candidates, Dict.keys.
  induction v as [|[k r] v IH]; intros H; [reflexivity|].
  cbn [flat_map fst].
  assert (Hk : mem k section_order = true) by (apply mem_In, H; now left).
  rewrite Hk. cbn [List.app]. apply IH. intros k' Hin. apply H. now right.
Qed.

Lemma toc_ext (v1 v2 : Dict.t AgentResult) (pd : ProjectSnapshot) (now : string) :
  (forall k, Dict.get v1 k = Dict.get v2 k) ->
  List.length v1 = List.length v2 ->
  toc_of v1 pd now = toc_of v2 pd now.
Proof.
  intros Hget Hlen. unfold toc_of. rewrite Hlen.
  assert (Hf : filter (Dict.has_key v1) section_order = filter (Dict.has_key v2) section_order).
  { apply filter_ext. intros k. unfold Dict.has_key. now rewrite Hget. }
  now rewrite Hf.
Qed.

(** The assembler reads a dict of reserved agent names only through its
    lookups and its size. *)
Lemma assemble_permutation (e1 e2 : Dict.t AgentResult) (pd : ProjectSnapshot)
      (now : string) :
  Permutation e1 e2 ->
  NoDup (Dict.keys e1) ->
  (forall k, In k (Dict.keys e1) -> In k section_order) ->
  _assemble_final_documentation e1 pd now = _assemble_final_documentation e2 pd now.
Proof.
  intros Hp Hnd Hsub.
  pose proof (permutation_filter (fun kv => is_valid_result (snd kv)) _ _ Hp) as Hpv.
  fold (valid_results_of e1) in Hpv. fold (valid_results_of e2) in Hpv.
  assert (Hndv : NoDup (Dict.keys (valid_results_of e1))).
  { unfold valid_results_of. now apply filtered_keys_distinct. }
  assert (Hget : forall k, Dict.get (valid_results_of e1) k = Dict.get (valid_results_of e2) k).
  { intros k. now apply dict_get_permutation. }
  assert (Hlen : List.length (valid_results_of e1) = List.length (valid_results_of e2))
    by now apply Permutation_length.
  assert (Hsub1 : forall k, In k (Dict.keys (valid_results_of e1)) -> In k section_order).
  { intros k Hin. apply Hsub. unfold Dict.keys, valid_results_of in *.
    apply in_map_iff in Hin. destruct Hin as [kv [Hk Hin]].
    apply filter_In in Hin. apply in_map_iff. exists kv. tauto. }
  assert (Hsub2 : forall k, In k (Dict.keys (valid_results_of e2)) -> In k section_order).
  { intros k Hin. apply Hsub1. unfold Dict.keys in *.
    eapply Permutation_in; [|exact Hin]. apply Permutation_map. now symmetry. }
  assert (Hc : candidates (valid_results_of e1) = candidates (valid_results_of e2)).
  { unfold candidates. rewrite (ordered_candidates_ext _ _ Hget).
    now rewrite !no_other_candidates. }
  rewrite !assemble_eq. cbv zeta. unfold assembled_state.
  rewrite Hc, (toc_ext _ _ pd now Hget Hlen).
  destruct (valid_results_of e1) as [|x1 l1], (valid_results_of e2) as [|x2 l2];
    try reflexivity; discriminate.
Qed.

Lemma returned_tokens_permutation (c1 c2 : list (string * TaskOutcome)) :
  Permutation c1 c2 -> returned_tokens c1 = returned_tokens c2.
Proof.
  induction 1 as [|[a o] l1 l2 _ IH|[a o] [b o'] l|l1 l2 l3 _ IH1 _ IH2]; simpl.
  - reflexivity.
  - destruct o; now rewrite IH.
  - destruct o, o'; lia.
  - congruence.
Qed.

Lemma forallb_permutation {A : Type} (p : A -> bool) (l1 l2 : list A) :
  Permutation l1 l2 -> forallb p l1 = forallb p l2.
Proof.
  induction 1 as [|x l1 l2 _ IH|x y l|l1 l2 l3 _ IH1 _ IH2]; simpl.
  - reflexivity.
  - now rewrite IH.
  - destruct (p x), (p y); reflexivity.
  - congruence.
Qed.

(** The order in which the agents complete does not show in the outcome:
    when every agent completes once and carries a name of the canonical
    section order, any two completion orders of the same outcomes give the
    same documentation, tabs, token total and metadata. *)
Theorem completion_order_irrelevant (self : t) (pd : ProjectSnapshot) (clock : Clock)
        (completed1 completed2 : list (string * TaskOutcome)) :
  Permutation completed1 completed2 ->
  NoDup (map fst completed1) ->
  (forall a, In a (map fst completed1) -> In a section_order) ->
  generate_comprehensive_documentation self pd completed1 clock
  = generate_comprehensive_documentation self pd completed2 clock.
Proof.
  intros Hp Hnd Hsub.
  assert (Hnd2 : NoDup (map fst completed2)).
  { eapply Permutation_NoDup; [|exact Hnd]. now apply Permutation_map. }
  unfold generate_comprehensive_documentation.
  destruct (client self) as [c|]; [|reflexivity].
  rewrite !run_agents_pair.
  rewrite (collect_distinct completed1 []) by exact Hnd.
  rewrite (collect_distinct completed2 []) by exact Hnd2.
  cbn [List.app].
  rewrite (returned_tokens_permutation _ _ Hp).
  assert (Hpe : Permutation (map entry_of completed1) (map entry_of completed2))
    by now apply Permutation_map.
  rewrite (forallb_permutation _ _ _ Hpe).
  destruct (forallb _ (map entry_of completed2)); [reflexivity|].
  cbv zeta.
  assert (Hkeys : Dict.keys (map entry_of completed1) = map fst completed1).
  { unfold Dict.keys. rewrite map_map. reflexivity. }
  rewrite (assemble_permutation
             (_enhance_cross_references (map entry_of completed1) pd)
             (_enhance_cross_references (map entry_of completed2) pd) pd
             (strftime_now clock)).
  - reflexivity.
  - rewrite !enhance_is_map. now apply Permutation_map.
  - now rewrite enhance_keys, Hkeys.
  - intros k. rewrite enhance_keys, Hkeys. apply Hsub.
Qed.
End CompletionOrder.

(** * Which path a run takes *)

Section RunPaths.
Import PyStr OrchestratorAgent.

Definition raised (task : string * TaskOutcome) : Prop :=
  exists e, snd task = TaskRaised e.

Definition returned_blank (task : string * TaskOutcome) : Prop :=
  exists content tokens, snd task = Returned content tokens /\ strip content = "".

Definition blank_entry (kv : string * AgentResult) : bool :=
  is_empty (strip (res_content (snd kv))).

Lemma collect_In (completed : list (string * TaskOutcome)) (d : Dict.t AgentResult)
      (a : string) (r : AgentResult) :
  In (a, r) (collect d completed) ->
  In (a, r) d \/ exists o, In (a, o) completed /\ r = result_of a o.
Proof.
  revert d. induction completed as [|[a' o'] completed IH]; intros d H; [now left|].
  change (collect d ((a', o') :: completed))
    with (collect (Dict.set d a' (result_of a' o')) completed) in H.
  destruct (IH _ H) as [Hin|(o & Hin & ->)].
  - assert (Hset : In (a, r) d \/ (a, r) = (a', result_of a' o')).
    { clear -Hin. induction d as [|[k v] d IHd]; simpl in Hin.
      - destruct Hin as [<-|[]]. now right.
      - destruct (String.eqb a' k) eqn:E.
        + apply String.eqb_eq in E. subst k.
          destruct Hin as [<-|Hin]; [now right | left; now right].
        + destruct Hin as [<-|Hin]; [left; now left|].
          destruct (IHd Hin) as [H'|H']; [left; now right | now right]. }
    destruct Hset as [Hd|[= -> ->]]; [now left|].
    right. exists o'. split; [now left | reflexivity].
  - right. exists o. split; [now right | reflexivity].
Qed.

Lemma placeholder_not_blank (agent_name e : string) :
  is_empty (strip (failure_placeholder agent_name e)) = false.
Proof.
  apply is_empty_false. intros Hempty.
  pose proof (placeholder_names_failure agent_name e "") as H.
  rewrite append_nil_r in H.
  apply (strip_keeps_occurrence isspace "A" "d" "nalysis faile") in H; auto.
  unfold strip in Hempty. rewrite Hempty in H. discriminate.
Qed.

Lemma filter_none {A : Type} (p : A -> bool) (l : list A) :
  (forall x, In x l -> p x = false) -> filter p l = [].
Proof.
  induction l as [|x l IH]; intros H; simpl; [reflexivity|].
  rewrite (H x) by now left. apply IH. intros y Hy. apply H. now right.
Qed.

Lemma collect_nonempty (completed : list (string * TaskOutcome)) :
  completed <> [] -> collect [] completed <> [].
Proof.
  destruct completed as [|[a o] completed]; [congruence|]. intros _ Hnil.
  assert (Hin : In a (Dict.keys (collect [] ((a, o) :: completed)))).
  { apply collect_keys. right. now left. }
  rewrite Hnil in Hin. exact Hin.
Qed.

(** A run in which every agent task raised is still reported as a
    multi-agent run: the outcome is the fallback overview in a single tab
    titled "Project Overview", under the method "multi-agent-parallel",
    with the token total unchanged. *)
Theorem all_tasks_raised_gives_fallback (self : t) (pd : ProjectSnapshot)
        (completed : list (string * TaskOutcome)) (clock : Clock) :
  client self <> None ->
  completed <> [] ->
  Forall raised completed ->
  let r := generate_comprehensive_documentation self pd completed clock in
  gen_content r = _create_fallback_documentation pd
  /\ gen_tabs r = [fallback_tab "Project Overview" (_create_fallback_documentation pd)]
  /\ gen_method r = "multi-agent-parallel"
  /\ gen_tokens_used r = total_tokens self.
Proof.
  intros Hclient Hne Hall. cbv zeta.
  unfold generate_comprehensive_documentation.
  destruct (client self) as [backend|]; [clear Hclient | congruence].
  rewrite run_agents_pair.
  assert (Hentries : forall a r, In (a, r) (collect [] completed) ->
                                 exists e, r = mkResult (failure_placeholder a e) 0 a).
  { intros a r Hin. apply collect_In in Hin. destruct Hin as [[]|(o & Hin & ->)].
    rewrite Forall_forall in Hall. destruct (Hall _ Hin) as [e He].
    cbn [snd] in He. subst o. now exists e. }
  assert (Hblank : forallb blank_entry (collect [] completed) = false).
  { destruct (collect [] completed) as [|[a r] rest] eqn:E.
    - now apply collect_nonempty in E.
    - destruct (Hentries a r (or_introl eq_refl)) as [e ->].
      cbn [forallb]. unfold blank_entry at 1. cbn [snd res_content].
      now rewrite placeholder_not_blank. }
  unfold blank_entry in Hblank. rewrite Hblank. cbv zeta.
  assert (Hvalid : valid_results_of (_enhance_cross_references (collect [] completed) pd) = []).
  { apply filter_none. intros [a r] Hin. cbn [snd].
    apply enhanced_origin in Hin. destruct Hin as (r0 & summary & Hin & ->).
    destruct (Hentries a r0 Hin) as [e ->]. cbn [res_content].
    apply enhanced_placeholder_invalid. }
  rewrite assemble_eq, Hvalid. cbn [doc_tabs doc_content gen_content gen_tabs gen_method gen_tokens_used].
  assert (Htok : returned_tokens completed = 0).
  { clear -Hall. induction Hall as [|[a o] l [e He] _ IH]; [reflexivity|].
    cbn [snd] in He. subst o. exact IH. }
  cbn [total_tokens with_total_tokens]. rewrite Htok, Nat.add_0_r. repeat split.
Qed.

Lemma all_tasks_raised_gives_fallback_witness :
  client sample_orchestrator <> None
  /\ [("Code Architecture Agent", TaskRaised "timeout");
      ("Quality Assurance Agent", TaskRaised "rate limit")] <> []
  /\ gen_method (generate_comprehensive_documentation
                   sample_orchestrator demo_snapshot
                   [("Code Architecture Agent", TaskRaised "timeout");
                    ("Quality Assurance Agent", TaskRaised "rate limit")] demo_clock)
     = "multi-agent-parallel"
  /\ map tab_title
         (gen_tabs (generate_comprehensive_documentation
                      sample_orchestrator demo_snapshot
                      [("Code Architecture Agent", TaskRaised "timeout");
                       ("Quality Assurance Agent", TaskRaised "rate limit")] demo_clock))
     = ["Project Overview"].
Proof.
  assert (H1 : client sample_orchestrator <> None) by discriminate.
  assert (H2 : [("Code Architecture Agent", TaskRaised "timeout");
                ("Quality Assurance Agent", TaskRaised "rate limit")] <> [])
    by discriminate.
  split; [exact H1|]. split; [exact H2|].
  pose proof (all_tasks_raised_gives_fallback sample_orchestrator demo_snapshot
                [("Code Architecture Agent", TaskRaised "timeout");
                 ("Quality Assurance Agent", TaskRaised "rate limit")] demo_clock H1 H2) as H.
  cbv zeta in H.
  destruct H as (_ & Htabs & Hmethod & _).
  - repeat constructor; eexists; reflexivity.
  - split; [exact Hmethod|]. rewrite Htabs. reflexivity.
Defined.

Lemma collect_blank (completed : list (string * TaskOutcome)) :
  NoDup (map fst completed) ->
  (forallb blank_entry (collect [] completed) = true <-> Forall returned_blank completed).
Proof.
  intros Hnd. rewrite (collect_distinct completed []) by exact Hnd. cbn [List.app].
  clear Hnd. induction completed as [|[a o] completed IH]; cbn [map forallb].
  - split; [constructor | reflexivity].
  - rewrite andb_true_iff, IH. unfold blank_entry at 1, entry_of at 1. cbn [fst snd].
    split.
    + intros [Hb Hall]. constructor; [|exact Hall].
      destruct o as [content tokens|e]; cbn [result_of res_content] in Hb.
      * exists content, tokens. split; [reflexivity | now apply is_empty_true].
      * now rewrite placeholder_not_blank in Hb.
    + intros H. inversion H as [|x l (content & tokens & Ho & Hs) Hall]; subst.
      cbn [snd] in Ho. subst o. cbn [result_of res_content].
      split; [now apply is_empty_true | exact Hall].
Qed.

(** A run is simulated exactly when the orchestrator has no client or every
    agent returned a blank text: a single raised task, whose placeholder is
    not blank, is enough to leave the simulation path.  Each agent is
    taken to complete once. *)
Theorem simulated_exactly_when (self : t) (pd : ProjectSnapshot)
        (completed : list (string * TaskOutcome)) (clock : Clock) :
  NoDup (map fst completed) ->
  (generate_comprehensive_documentation self pd completed clock
   = _simulate_comprehensive_generation pd clock
   <-> client self = None \/ Forall returned_blank completed)
  /\ (gen_method (generate_comprehensive_documentation self pd completed clock)
      = "multi-agent-simulation"
      <-> client self = None \/ Forall returned_blank completed).
Proof.
  intros Hnd. pose proof (collect_blank completed Hnd) as Hb.
  unfold generate_comprehensive_documentation.
  destruct (client self) as [backend|].
  - rewrite run_agents_pair. fold blank_entry.
    destruct (forallb blank_entry (collect [] completed)).
    + split; (split; [intros _; right; now apply Hb | reflexivity]).
    + cbv zeta. cbn [gen_method].
      split; (split; [intros H | intros [H|H]]); try discriminate;
        apply Hb in H; discriminate.
  - split; (split; [now left | reflexivity]).
Qed.

Lemma simulated_exactly_when_witness :
  NoDup (map fst one_failed)
  /\ gen_method (generate_comprehensive_documentation
                   sample_orchestrator demo_snapshot one_failed demo_clock)
     <> "multi-agent-simulation"
  /\ ~ Forall returned_blank one_failed.
Proof.
  assert (Hnd : NoDup (map fst one_failed)).
  { simpl. constructor; [simpl; intros [H|[]]; discriminate|].
    constructor; [simpl; tauto | constructor]. }
  split; [exact Hnd|].
  destruct (simulated_exactly_when sample_orchestrator demo_snapshot one_failed demo_clock Hnd)
    as [_ Hiff].
  assert (Hno : ~ (client sample_orchestrator = None \/ Forall returned_blank one_failed)).
  { intros [H|H]; [discriminate|].
    inversion H as [|x l (content & tokens & Ho & _) _]. discriminate. }
  split; [intros Hm; apply Hno, Hiff, Hm | intros H; apply Hno; now right].
Defined.
End RunPaths.

(** * Nothing distinct is lost *)

Section AssemblerCompleteness.
Import PyStr OrchestratorAgent.




Definition section_title (agent_name : string) : string :=
  replace agent_name " Agent" " Analysis".








End AssemblerCompleteness.

(** ** The properties above on sample runs *)

Section AssemblerSamples.
Import PyStr OrchestratorAgent.

Definition two_sections_enhanced : Dict.t AgentResult :=
  enhanced_results sample_orchestrator demo_snapshot two_sections.

Definition one_section_enhanced : Dict.t AgentResult :=
  enhanced_results sample_orchestrator demo_snapshot one_failed.

Lemma two_sections_valid : List.length (valid_results_of two_sections_enhanced) = 2.
Proof. vm_compute. reflexivity. Qed.

Lemma fallback_only_without_valid_results_witness :
  valid_results_of [] = []
  /\ valid_results_of two_sections_enhanced <> []
  /\ doc_tabs (_assemble_final_documentation [] demo_snapshot "2026-01-01 00:00:00")
     = [fallback_tab "Project Overview" (_create_fallback_documentation demo_snapshot)]
  /\ exists first rest,
       accepted (doc_tabs (_assemble_final_documentation
                             two_sections_enhanced demo_snapshot "2026-01-01 00:00:00"))
       = first :: rest
       /\ section_number first = Some 1.
Proof.
  assert (H1 : valid_results_of (@nil (string * AgentResult)) = []) by reflexivity.
  assert (H2 : valid_results_of two_sections_enhanced <> []).
  { intros Hnil. pose proof two_sections_valid as Hlen. rewrite Hnil in Hlen. discriminate. }
  split; [exact H1|]. split; [exact H2|].
  split.
  - destruct (fallback_only_without_valid_results [] demo_snapshot "2026-01-01 00:00:00")
      as [Hfallback _].
    rewrite (Hfallback H1). reflexivity.
  - destruct (fallback_only_without_valid_results
                two_sections_enhanced demo_snapshot "2026-01-01 00:00:00") as [_ Hfirst].
    destruct (Hfirst H2) as (first & rest & Heq & Hnum & _).
    exists first, rest. split; assumption.
Defined.

Lemma overview_iff_several_sections_witness :
  List.length (accepted (doc_tabs (_assemble_final_documentation
                                     two_sections_enhanced demo_snapshot "2026-01-01 00:00:00")))
  = 2
  /\ List.length (accepted (doc_tabs (_assemble_final_documentation
                                        one_section_enhanced demo_snapshot
                                        "2026-01-01 00:00:00")))
     = 1
  /\ accepted (doc_tabs (_assemble_final_documentation [] demo_snapshot "2026-01-01 00:00:00"))
     = []
  /\ hd_error (doc_tabs (_assemble_final_documentation
                           two_sections_enhanced demo_snapshot "2026-01-01 00:00:00"))
     = Some (overview_tab (toc_of (valid_results_of two_sections_enhanced) demo_snapshot
                                  "2026-01-01 00:00:00"))
  /\ doc_tabs (_assemble_final_documentation one_section_enhanced demo_snapshot
                                             "2026-01-01 00:00:00")
     = accepted (doc_tabs (_assemble_final_documentation one_section_enhanced demo_snapshot
                                                         "2026-01-01 00:00:00"))
  /\ doc_tabs (_assemble_final_documentation [] demo_snapshot "2026-01-01 00:00:00")
     = [fallback_tab "Project Overview" (_create_fallback_documentation demo_snapshot)].
Proof.
  assert (H2 : List.length
                 (accepted (doc_tabs (_assemble_final_documentation
                                        two_sections_enhanced demo_snapshot
                                        "2026-01-01 00:00:00"))) = 2)
    by (vm_compute; reflexivity).
  assert (H1 : List.length
                 (accepted (doc_tabs (_assemble_final_documentation
                                        one_section_enhanced demo_snapshot
                                        "2026-01-01 00:00:00"))) = 1)
    by (vm_compute; reflexivity).
  assert (H0 : accepted (doc_tabs (_assemble_final_documentation
                                     [] demo_snapshot "2026-01-01 00:00:00")) = [])
    by reflexivity.
  split; [exact H2|]. split; [exact H1|]. split; [exact H0|].
  split; [|split].
  - destruct (overview_iff_several_sections
                two_sections_enhanced demo_snapshot "2026-01-01 00:00:00") as [Hseveral _].
    rewrite Hseveral; [reflexivity|]. rewrite H2. lia.
  - destruct (overview_iff_several_sections
                one_section_enhanced demo_snapshot "2026-01-01 00:00:00") as (_ & Hone & _).
    exact (Hone H1).
  - destruct (overview_iff_several_sections
                [] demo_snapshot "2026-01-01 00:00:00") as (_ & _ & Hnone).
    exact (Hnone H0).
Defined.

Definition two_sections_swapped : list (string * TaskOutcome) :=
  [ ("Code Architecture Agent", Returned (sample_content "Code" "code" 8) 100);
    ("System Architecture Agent", Returned (sample_content "Architecture" "arch" 8) 120) ].

Lemma two_sections_reserved (a : string) :
  In a (map fst two_sections) -> In a section_order.
Proof. intros [<-|[<-|[]]]; simpl; tauto. Qed.

Lemma two_sections_nodup : NoDup (map fst two_sections).
Proof.
  simpl. constructor; [simpl; intros [H|[]]; discriminate|].
  constructor; [simpl; tauto | constructor].
Qed.

Lemma completion_order_irrelevant_witness :
  Permutation two_sections two_sections_swapped
  /\ NoDup (map fst two_sections)
  /\ generate_comprehensive_documentation sample_orchestrator demo_snapshot
                                          two_sections demo_clock
     = generate_comprehensive_documentation sample_orchestrator demo_snapshot
                                            two_sections_swapped demo_clock.
Proof.
  assert (Hp : Permutation two_sections two_sections_swapped) by apply perm_swap.
  split; [exact Hp|]. split; [exact two_sections_nodup|].
  exact (completion_order_irrelevant sample_orchestrator demo_snapshot demo_clock
           two_sections two_sections_swapped Hp two_sections_nodup two_sections_reserved).
Defined.



End AssemblerSamples.

(** * The retry loop of an agent *)

Section AgentLoop.
Import PyStr DocumentationAgent.

Lemma list_insert_In {A : Type} (i : nat) (x : A) (l : list A) : In x (list_insert i x l).
Proof. unfold list_insert. apply in_or_app. right. now left. Qed.

Lemma add_images_visible (self : t) (content : string) (pd : ProjectSnapshot) :
  visible content = true -> visible (_add_images_to_content self content pd) = true.
Proof.
  intros H. unfold _add_images_to_content.
  destruct (_extract_embedded_images pd) as [|img imgs]; [exact H|].
  destruct (relevant_images self (img :: imgs)) as [|r rs]; [exact H|].
  apply (visible_join_In nl (image_section (r :: rs))); [apply list_insert_In|].
  unfold image_section. rewrite visible_append. reflexivity.
Qed.

Lemma simulate_content_visible (self : t) (pd : ProjectSnapshot) :
  visible (_simulate_content self pd) = true.
Proof.
  unfold _simulate_content. cbv zeta. rewrite visible_append.
  apply orb_true_iff. left. reflexivity.
Qed.

Lemma passing_draft_visible (draft : string) :
  _passes_quality draft = true -> visible draft = true.
Proof.
  unfold _passes_quality. rewrite blank_iff.
  destruct (visible draft); [reflexivity|]. now rewrite orb_true_r.
Qed.

Definition best_is_visible (st : LoopState) : Prop :=
  best_content st = "" \/ visible (best_content st) = true.

(** What the loop leaves after the attempts [todo]: at most one call per
    attempt, an accepted draft has passed the gate, and the best draft is
    empty or has a visible character. *)
Lemma attempts_bound (self : t) (backend : Backend) (user_prompt : string)
      (todo : list nat) (st : LoopState) :
  best_is_visible st ->
  match attempts self backend user_prompt todo st with
  | Accepted draft st' =>
      _passes_quality draft = true /\ calls st' <= calls st + List.length todo
  | Exhausted st' => calls st' = calls st + List.length todo /\ best_is_visible st'
  | Failed n => n <= calls st + List.length todo
  end.
Proof.
  revert st. induction todo as [|attempt rest IH]; intros st Hbest; cbn [attempts].
  - simpl. split; [lia | exact Hbest].
  - cbv zeta. destruct (backend (calls st) _) as [resp|e]; [|simpl; lia].
    destruct (_passes_quality _) eqn:Hq.
    + split; [exact Hq | simpl; lia].
    + match goal with
      | |- context [attempts self backend user_prompt rest ?s] =>
          specialize (IH s);
          assert (Hs : best_is_visible s)
      end.
      { unfold best_is_visible. cbn [best_content].
        destruct (best_len st <? len (strip (get_or (resp_content resp) "")))%nat eqn:E;
          [|exact Hbest].
        right. rewrite visible_strip.
        apply Nat.ltb_lt in E.
        destruct (visible (get_or (resp_content resp) "")) eqn:V; [reflexivity|].
        pose proof (blank_iff (get_or (resp_content resp) "")) as Hb. rewrite V in Hb.
        apply is_empty_true in Hb. rewrite Hb in E. simpl in E. lia. }
      specialize (IH Hs).
      match goal with
      | |- context [attempts self backend user_prompt rest ?s] =>
          destruct (attempts self backend user_prompt rest s)
      end; cbn [calls List.length] in *; try split; try tauto; lia.
Qed.

Lemma analyze_project_visible (self : t) (pd : ProjectSnapshot)
      (shared_context : Dict.t string) :
  run_calls (analyze_project self pd shared_context) <= 3
  /\ visible (run_content (analyze_project self pd shared_context)) = true.
Proof.
  unfold analyze_project.
  destruct (openai_client self) as [backend|].
  - cbv zeta.
    match goal with
    | |- context [attempts self backend ?up ?todo ?st] =>
        pose proof (attempts_bound self backend up todo st (or_introl eq_refl)) as H;
        destruct (attempts self backend up todo st) as [draft st'|st'|n]
    end; cbn [calls List.length seq] in H; cbn [run_calls run_content].
    + destruct H as [Hq Hc]. split; [lia|].
      apply add_images_visible. now apply passing_draft_visible.
    + destruct H as [Hc Hbest]. split; [lia|].
      destruct (is_empty (best_content st')) eqn:E; [reflexivity|].
      apply add_images_visible. apply is_empty_false in E.
      destruct Hbest as [Hb|Hb]; [contradiction | exact Hb].
    + split; [lia | apply simulate_content_visible].
  - cbn [run_calls run_content]. split; [lia | apply simulate_content_visible].
Qed.

Lemma analyze_project_counter (self : t) (pd : ProjectSnapshot)
      (shared_context : Dict.t string) :
  let r := analyze_project self pd shared_context in
  tokens_used (run_self r) = tokens_used self + run_tokens r
  /\ name (run_self r) = name self
  /\ role (run_self r) = role self.
Proof.
  cbv zeta. unfold analyze_project.
  destruct (openai_client self) as [backend|]; [|cbn; repeat split; lia].
  cbv zeta.
  match goal with
  | |- context [attempts self backend ?up ?todo ?st] =>
      destruct (attempts self backend up todo st) as [draft st'|st'|n]
  end; cbn [run_tokens run_self add_tokens tokens_used name role]; repeat split; lia.
Qed.

(** Whatever the client does, [analyze_project] sends at most three
    requests, returns a text that is not blank, and raises the agent's
    token counter by exactly the tokens it reports. *)
Theorem analyze_project_contract (self : t) (pd : ProjectSnapshot)
        (shared_context : Dict.t string) :
  let r := analyze_project self pd shared_context in
  run_calls r <= 3
  /\ strip (run_content r) <> ""
  /\ tokens_used (run_self r) = tokens_used self + run_tokens r
  /\ name (run_self r) = name self
  /\ role (run_self r) = role self.
Proof.
  cbv zeta.
  destruct (analyze_project_visible self pd shared_context) as [Hcalls Hvisible].
  split; [exact Hcalls|]. split; [|apply analyze_project_counter].
  apply is_empty_false. now rewrite blank_iff, Hvisible.
Qed.

(** ** A client whose reply depends on the call only *)

Definition draft_of (resp : Response) : string := strip (get_or (resp_content resp) "").

Definition tokens_of (resp : Response) : nat := get_or (resp_total_tokens resp) 0.

(** The tokens of the first [n] replies. *)
Fixpoint tokens_before (reply : nat -> Response) (n : nat) : nat :=
  match n with
  | 0 => 0
  | S m => tokens_before reply m + tokens_of (reply m)
  end.

Definition keep_longer (best draft : string) : string :=
  if (len best <? len draft)%nat then draft else best.

Lemma attempt_rejected (self : t) (backend : Backend) (user_prompt : string)
      (attempt : nat) (rest : list nat) (st : LoopState) (resp : Response) :
  (forall request, backend (calls st) request = Completed resp) ->
  _passes_quality (draft_of resp) = false ->
  best_len st = len (best_content st) ->
  exists msgs,
    attempts self backend user_prompt (attempt :: rest) st
    = attempts self backend user_prompt rest
               (mkLoop msgs (total_tokens_used st + tokens_of resp)
                       (keep_longer (best_content st) (draft_of resp))
                       (len (keep_longer (best_content st) (draft_of resp)))
                       (S (calls st))).
Proof.
  intros Hb Hq Hlen. cbn [attempts]. rewrite Hb. cbv zeta.
  fold (draft_of resp). fold (tokens_of resp). rewrite Hq.
  unfold keep_longer. rewrite <- Hlen.
  destruct (best_len st <? len (draft_of resp))%nat; eexists; rewrite ?Hlen; reflexivity.
Qed.

Lemma attempt_accepted (self : t) (backend : Backend) (user_prompt : string)
      (attempt : nat) (rest : list nat) (st : LoopState) (resp : Response) :
  (forall request, backend (calls st) request = Completed resp) ->
  _passes_quality (draft_of resp) = true ->
  exists best blen,
    attempts self backend user_prompt (attempt :: rest) st
    = Accepted (draft_of resp)
               (mkLoop (messages st) (total_tokens_used st + tokens_of resp) best blen
                       (S (calls st))).
Proof.
  intros Hb Hq. cbn [attempts]. rewrite Hb. cbv zeta.
  fold (draft_of resp). fold (tokens_of resp). rewrite Hq.
  eexists _, _. reflexivity.
Qed.

Lemma attempt_raised (self : t) (backend : Backend) (user_prompt : string)
      (attempt : nat) (rest : list nat) (st : LoopState) (e : string) :
  (forall request, backend (calls st) request = CallRaised e) ->
  attempts self backend user_prompt (attempt :: rest) st = Failed (S (calls st)).
Proof. intros Hb. cbn [attempts]. now rewrite Hb. Qed.

(** The loop after [k] rejected drafts. *)
Lemma rejected_prefix (self : t) (backend : Backend) (user_prompt : string)
      (reply : nat -> Response) (k : nat) (todo : list nat) (st : LoopState) :
  k <= List.length todo ->
  (forall j request, j < k -> backend (calls st + j) request = Completed (reply (calls st + j))) ->
  (forall j, j < k -> _passes_quality (draft_of (reply (calls st + j))) = false) ->
  best_len st = len (best_content st) ->
  exists st',
    attempts self backend user_prompt todo st
    = attempts self backend user_prompt (skipn k todo) st'
    /\ calls st' = calls st + k
    /\ best_len st' = len (best_content st')
    /\ total_tokens_used st' + tokens_before reply (calls st)
       = total_tokens_used st + tokens_before reply (calls st + k)
    /\ best_content st'
       = fold_left keep_longer (map (fun j => draft_of (reply (calls st + j))) (seq 0 k))
                   (best_content st).
Proof.
  revert todo st. induction k as [|k IH]; intros todo st Hk Hb Hq Hlen.
  - exists st. rewrite Nat.add_0_r. cbn [skipn seq map fold_left]. repeat split; auto.
  - destruct todo as [|attempt rest]; [simpl in Hk; lia|].
    assert (Hb0 : forall request, backend (calls st) request = Completed (reply (calls st))).
    { intros request. specialize (Hb 0 request). rewrite Nat.add_0_r in Hb. apply Hb. lia. }
    assert (Hq0 : _passes_quality (draft_of (reply (calls st))) = false).
    { specialize (Hq 0). rewrite Nat.add_0_r in Hq. apply Hq. lia. }
    destruct (attempt_rejected self backend user_prompt attempt rest st _ Hb0 Hq0 Hlen)
      as [msgs E].
    rewrite E. clear E.
    match goal with
    | |- context [attempts self backend user_prompt rest ?s] => set (st1 := s)
    end.
    destruct (IH rest st1) as (st' & E & Hc & Hl & Ht & Hbest).
    + simpl in Hk. lia.
    + intros j request Hj. cbn [st1 calls].
      replace (S (calls st) + j) with (calls st + S j) by lia. apply Hb. lia.
    + intros j Hj. cbn [st1 calls].
      replace (S (calls st) + j) with (calls st + S j) by lia. apply Hq. lia.
    + reflexivity.
    + exists st'. cbn [st1 calls total_tokens_used best_content] in *.
      split; [exact E|]. split; [lia|]. split; [exact Hl|].
      split.
      * replace (calls st + S k) with (S (calls st) + k) by lia.
        cbn [tokens_before] in Ht. lia.
      * rewrite Hbest. cbn [seq map fold_left]. rewrite Nat.add_0_r.
        rewrite <- seq_shift, map_map. f_equal. apply map_ext. intros j.
        now replace (S (calls st) + j) with (calls st + S j) by lia.
Qed.
End AgentLoop.

Section AgentLoopOutcomes.
Import PyStr DocumentationAgent.

Variables (self : t) (backend : Backend) (pd : ProjectSnapshot)
          (shared_context : Dict.t string) (reply : nat -> Response).

Hypothesis has_client : openai_client self = Some backend.

Let user_prompt : string :=
  _create_user_prompt self pd (_build_context self pd shared_context).

Let st0 : LoopState :=
  mkLoop [mkMessage "system" (system_prompt self); mkMessage "user" user_prompt] 0 "" 0 0.

Lemma analyze_unfold :
  analyze_project self pd shared_context
  = match attempts self backend user_prompt [1; 2; 3] st0 with
    | Accepted draft st =>
        mkRun (_add_images_to_content self draft pd)
              (total_tokens_used st) (calls st) (add_tokens self (total_tokens_used st))
    | Exhausted st =>
        mkRun (if is_empty (best_content st)
               then "# Draft Incomplete" ++ nl ++ nl ++ "No content."
               else _add_images_to_content self (best_content st) pd)
              (total_tokens_used st) (calls st) (add_tokens self (total_tokens_used st))
    | Failed n => mkRun (_simulate_content self pd) 0 n self
    end.
Proof. unfold analyze_project. rewrite has_client. reflexivity. Qed.

Lemma after_rejections (k : nat) :
  k <= 3 ->
  (forall j request, j < k -> backend j request = Completed (reply j)) ->
  (forall j, j < k -> _passes_quality (draft_of (reply j)) = false) ->
  exists st,
    attempts self backend user_prompt [1; 2; 3] st0
    = attempts self backend user_prompt (skipn k [1; 2; 3]) st
    /\ calls st = k
    /\ total_tokens_used st = tokens_before reply k
    /\ best_content st
       = fold_left keep_longer (map (fun j => draft_of (reply j)) (seq 0 k)) "".
Proof.
  intros Hk Hb Hq.
  destruct (rejected_prefix self backend user_prompt reply k [1; 2; 3] st0)
    as (st & E & Hc & _ & Ht & Hbest); auto.
  exists st. cbn [st0 calls total_tokens_used best_content tokens_before] in *.
  rewrite Nat.add_0_l in *. rewrite Nat.add_0_r in Ht. auto.
Qed.

Lemma remaining_attempts (k : nat) :
  k < 3 -> exists attempt rest, skipn k [1; 2; 3] = attempt :: rest.
Proof.
  intros Hk. destruct k as [|[|[|k]]]; [eexists _, _; reflexivity ..| lia].
Qed.

(** The first draft that passes the gate ends the loop: when the drafts
    before reply [k] are rejected and reply [k] passes, [analyze_project]
    has sent [k + 1] requests, returns that draft with the images added,
    and reports the tokens of all [k + 1] replies. *)
Theorem first_passing_draft_is_returned (k : nat) :
  k < 3 ->
  (forall j request, j <= k -> backend j request = Completed (reply j)) ->
  (forall j, j < k -> _passes_quality (draft_of (reply j)) = false) ->
  _passes_quality (draft_of (reply k)) = true ->
  let r := analyze_project self pd shared_context in
  run_calls r = S k
  /\ run_content r = _add_images_to_content self (draft_of (reply k)) pd
  /\ run_tokens r = tokens_before reply (S k)
  /\ tokens_used (run_self r) = tokens_used self + tokens_before reply (S k).
Proof.
  intros Hk Hb Hq Hpass. cbv zeta. rewrite analyze_unfold.
  destruct (after_rejections k) as (st & E & Hc & Ht & _); [lia | | exact Hq |].
  { intros j request Hj. apply Hb. lia. }
  destruct (remaining_attempts k Hk) as (attempt & rest & Hrest).
  rewrite E, Hrest.
  destruct (attempt_accepted self backend user_prompt attempt rest st (reply k))
    as (best & blen & E'); [| exact Hpass |].
  { intros request. rewrite Hc. now apply Hb. }
  rewrite E'. cbn [run_calls run_content run_tokens run_self total_tokens_used calls
                   add_tokens tokens_used tokens_before].
  rewrite Hc, Ht. repeat split.
Qed.

(** A request that raises discards the whole run of the agent: whatever the
    earlier replies cost, [analyze_project] returns the simulated text with
    0 tokens and leaves the agent's counter as it was. *)
Theorem raised_request_discards_drafts (k : nat) (e : string) :
  k < 3 ->
  (forall j request, j < k -> backend j request = Completed (reply j)) ->
  (forall j, j < k -> _passes_quality (draft_of (reply j)) = false) ->
  (forall request, backend k request = CallRaised e) ->
  analyze_project self pd shared_context
  = mkRun (_simulate_content self pd) 0 (S k) self.
Proof.
  intros Hk Hb Hq Hraise. rewrite analyze_unfold.
  destruct (after_rejections k) as (st & E & Hc & _); [lia | exact Hb | exact Hq |].
  destruct (remaining_attempts k Hk) as (attempt & rest & Hrest).
  rewrite E, Hrest.
  rewrite (attempt_raised self backend user_prompt attempt rest st e).
  - now rewrite Hc.
  - intros request. rewrite Hc. apply Hraise.
Qed.


End AgentLoopOutcomes.

Section AgentLoopSamples.
Import PyStr DocumentationAgent.

(** A client whose first reply is too short and whose second passes the gate. *)
Definition second_reply_passes (n : nat) : Response :=
  if (n =? 1)%nat
  then mkResponse (Some (draft_with three_headings_after_summary 691)) (Some 900)
  else mkResponse (Some "# Notes") (Some 40).

(** A client that answers once with a short text and then fails. *)
Definition fails_after_one : Backend :=
  fun n _ =>
    if (n =? 0)%nat then Completed (mkResponse (Some "# Notes") (Some 40))
    else CallRaised "connection reset".


Definition agent_with (backend : Backend) : t :=
  mkAgent "Security Implementation Agent"
          "Principal Security Engineer and Authentication Specialist"
          "You are a principal security engineer." (Some backend) "gpt-4o-mini" 7.

Lemma first_passing_draft_is_returned_witness :
  _passes_quality (draft_of (second_reply_passes 0)) = false
  /\ _passes_quality (draft_of (second_reply_passes 1)) = true
  /\ run_calls (analyze_project (agent_with (fun n _ => Completed (second_reply_passes n)))
                                demo_snapshot []) = 2
  /\ run_tokens (analyze_project (agent_with (fun n _ => Completed (second_reply_passes n)))
                                 demo_snapshot []) = 940.
Proof.
  assert (H0 : _passes_quality (draft_of (second_reply_passes 0)) = false)
    by (vm_compute; reflexivity).
  assert (H1 : _passes_quality (draft_of (second_reply_passes 1)) = true)
    by (vm_compute; reflexivity).
  split; [exact H0|]. split; [exact H1|].
  destruct (first_passing_draft_is_returned
              (agent_with (fun n _ => Completed (second_reply_passes n)))
              (fun n _ => Completed (second_reply_passes n))
              demo_snapshot [] second_reply_passes eq_refl 1)
    as (Hcalls & _ & Htokens & _).
  - lia.
  - reflexivity.
  - intros j Hj. assert (j = 0) as -> by lia. exact H0.
  - exact H1.
  - split; [exact Hcalls | exact Htokens].
Defined.

Lemma raised_request_discards_drafts_witness :
  analyze_project (agent_with fails_after_one) demo_snapshot []
  = mkRun (_simulate_content (agent_with fails_after_one) demo_snapshot) 0 2
          (agent_with fails_after_one).
Proof.
  apply (raised_request_discards_drafts
           (agent_with fails_after_one) fails_after_one demo_snapshot []
           (fun _ => mkResponse (Some "# Notes") (Some 40)) eq_refl 1 "connection reset").
  - lia.
  - intros j request Hj. assert (j = 0) as -> by lia. reflexivity.
  - intros j Hj. vm_compute. reflexivity.
  - intros request. reflexivity.
Defined.

End AgentLoopSamples.

(** * A run with a client *)

Section RunWithClient.
Import PyStr OrchestratorAgent.

Lemma submitted_tasks_returned (self : t) (pd : ProjectSnapshot) (order : list string)
      (task : string * TaskOutcome) :
  In task (submitted_tasks self pd order) ->
  exists content tokens,
    snd task = Returned content tokens /\ visible content = true.
Proof.
  unfold submitted_tasks. intros Hin. apply in_flat_map in Hin.
  destruct Hin as (a & _ & Hin).
  destruct (Dict.get (agents self) a) as [ag|]; [|contradiction].
  destruct Hin as [<-|[]]. cbn [snd]. eexists _, _. split; [reflexivity|].
  apply analyze_project_visible.
Qed.

Lemma submitted_tasks_nonempty (self : t) (pd : ProjectSnapshot) (order : list string)
      (a : string) :
  In a order -> Dict.get (agents self) a <> None -> submitted_tasks self pd order <> [].
Proof.
  intros Hin Hget Hnil. unfold submitted_tasks in Hnil.
  destruct (Dict.get (agents self) a) as [ag|] eqn:E; [|congruence].
  assert (H : In (a, Returned
                       (DocumentationAgent.run_content
                          (DocumentationAgent.analyze_project ag pd (shared_context self)))
                       (DocumentationAgent.run_tokens
                          (DocumentationAgent.analyze_project ag pd (shared_context self))))
                 (flat_map (fun agent_name =>
                              match Dict.get (agents self) agent_name with
                              | Some a0 =>
                                  [(agent_name,
                                    Returned
                                      (DocumentationAgent.run_content
                                         (DocumentationAgent.analyze_project
                                            a0 pd (shared_context self)))
                                      (DocumentationAgent.run_tokens
                                         (DocumentationAgent.analyze_project
                                            a0 pd (shared_context self))))]
                              | None => []
                              end) order)).
  { apply in_flat_map. exists a. split; [exact Hin|]. rewrite E. now left. }
  rewrite Hnil in H. exact H.
Qed.

(** With a client, a run over at least one agent of the roster is never
    simulated, whatever the client does: every agent hands back a text that
    is not blank, so the orchestrator always assembles, under the method
    "multi-agent-parallel", and reports the tokens the agents report. *)
Theorem run_with_client_never_simulated (self : t) (pd : ProjectSnapshot)
        (order : list string) (clock : Clock) (a : string) :
  client self <> None ->
  In a order ->
  Dict.get (agents self) a <> None ->
  gen_method (run self pd order clock) = "multi-agent-parallel"
  /\ gen_model (run self pd order clock) = "gpt-4-turbo-multi-agent"
  /\ gen_tabs (run self pd order clock) <> []
  /\ gen_tokens_used (run self pd order clock)
     = total_tokens self + returned_tokens (submitted_tasks self pd order).
Proof.
  intros Hclient Hin Hget. unfold run, generate_comprehensive_documentation.
  destruct (client self) as [backend|]; [clear Hclient | congruence].
  rewrite run_agents_pair.
  assert (Hblank : forallb blank_entry (collect [] (submitted_tasks self pd order)) = false).
  { destruct (collect [] (submitted_tasks self pd order)) as [|[k r] rest] eqn:E.
    - apply collect_nonempty in E; [contradiction|].
      now apply (submitted_tasks_nonempty self pd order a).
    - assert (Hk : In (k, r) (collect [] (submitted_tasks self pd order)))
        by (rewrite E; now left).
      apply collect_In in Hk. destruct Hk as [[]|(o & Ho & ->)].
      destruct (submitted_tasks_returned self pd order _ Ho) as (content & tokens & Hr & V).
      cbn [snd] in Hr. subst o. cbn [forallb]. unfold blank_entry at 1. cbn [snd result_of res_content].
      now rewrite blank_iff, V. }
  unfold blank_entry in Hblank. rewrite Hblank. cbv zeta.
  cbn [gen_method gen_model gen_tabs gen_tokens_used total_tokens with_total_tokens].
  split; [reflexivity|]. split; [reflexivity|]. split; [|reflexivity].
  destruct (doc_tabs (_assemble_final_documentation _ pd (strftime_now clock))) eqn:E;
    cbn [doc_tabs]; [|rewrite E]; discriminate.
Qed.

Lemma run_with_client_never_simulated_witness :
  client sample_orchestrator <> None
  /\ Dict.get (agents sample_orchestrator) "Security Implementation Agent" <> None
  /\ gen_method (run sample_orchestrator demo_snapshot ["Security Implementation Agent"]
                     demo_clock)
     = "multi-agent-parallel".
Proof.
  assert (H1 : client sample_orchestrator <> None) by discriminate.
  assert (H2 : Dict.get (agents sample_orchestrator) "Security Implementation Agent" <> None).
  { assert (H : Dict.has_key (agents sample_orchestrator) "Security Implementation Agent"
                = true) by (vm_compute; reflexivity).
    unfold Dict.has_key in H. intros E. rewrite E in H. discriminate. }
  split; [exact H1|]. split; [exact H2|].
  apply (run_with_client_never_simulated
           sample_orchestrator demo_snapshot ["Security Implementation Agent"] demo_clock
           "Security Implementation Agent" H1 (or_introl eq_refl) H2).
Defined.
End RunWithClient.

(** * What the validation filter guarantees of the delivered sections *)

Section DeliveredSections.
Import PyStr OrchestratorAgent.



End DeliveredSections.

(** * The text around the embedded images *)

Section ImagesKeepText.
Import PyStr DocumentationAgent.

Lemma split_on_nonempty (sep : ascii) (s : string) : split_on sep s <> [].
Proof.
  induction s as [|c s IH]; cbn [split_on]; [discriminate|].
  destruct (Ascii.eqb c sep); [discriminate|].
  destruct (split_on sep s); [congruence | discriminate].
Qed.

Lemma join_cons (sep x y : string) (l : list string) :
  join sep (x :: y :: l) = x ++ sep ++ join sep (y :: l).
Proof. reflexivity. Qed.

(** [sep.join(s.split(sep)) == s] *)
Lemma join_split_on (sep : ascii) (s : string) :
  join (String sep "") (split_on sep s) = s.
Proof.
  induction s as [|c s IH]; cbn [split_on]; [reflexivity|].
  pose proof (split_on_nonempty sep s) as Hne.
  destruct (split_on sep s) as [|w ws]; [congruence|].
  destruct (Ascii.eqb c sep) eqn:E.
  - apply Ascii.eqb_eq in E. subst c. rewrite join_cons, IH. reflexivity.
  - cbn [push_char]. destruct ws as [|w' ws].
    + cbn [join] in *. now rewrite IH.
    + rewrite join_cons. rewrite join_cons in IH.
      change (String c w ++ String sep "" ++ join (String sep "") (w' :: ws))
        with (String c (w ++ String sep "" ++ join (String sep "") (w' :: ws))).
      now rewrite IH.
Qed.

Lemma join_app (sep : string) (l1 l2 : list string) :
  l1 <> [] -> l2 <> [] ->
  join sep (l1 ++ l2) = join sep l1 ++ sep ++ join sep l2.
Proof.
  intros H1 H2. induction l1 as [|x l1 IH]; [congruence|].
  destruct l1 as [|y l1].
  - destruct l2 as [|z l2]; [congruence|]. reflexivity.
  - change ((x :: y :: l1) ++ l2)%list with (x :: y :: (l1 ++ l2))%list.
    rewrite !join_cons.
    change (y :: (l1 ++ l2))%list with ((y :: l1) ++ l2)%list.
    rewrite IH by discriminate. now rewrite !append_assoc.
Qed.

Lemma find_insert_index_positive (lines : list string) (base : nat) :
  1 <= find_insert_index lines base.
Proof.
  revert base. induction lines as [|line lines IH]; intros base; cbn [find_insert_index].
  - lia.
  - destruct (startswith line "##"); [lia | apply IH].
Qed.

(** Embedding images changes nothing of the agent's text: without a
    relevant image the content is returned as it is, and otherwise the
    result is the content with one block, the image subsection after a line
    feed, put between two parts of it. *)
Theorem images_keep_the_text (self : t) (content : string) (pd : ProjectSnapshot) :
  match relevant_images self (_extract_embedded_images pd) with
  | [] => _add_images_to_content self content pd = content
  | relevant =>
      exists before after,
        content = before ++ after
        /\ _add_images_to_content self content pd
           = before ++ nl ++ image_section relevant ++ after
  end.
Proof.
  unfold _add_images_to_content.
  destruct (_extract_embedded_images pd) as [|img imgs] eqn:Himgs.
  - reflexivity.
  - destruct (relevant_images self (img :: imgs)) as [|r rs]; [reflexivity|].
    set (lines := split_on nl_char content).
    set (k := find_insert_index lines 0).
    assert (Hlines : lines <> []) by apply split_on_nonempty.
    assert (Hk : 1 <= k) by apply find_insert_index_positive.
    assert (Hhead : firstn k lines <> []).
    { destruct lines as [|l ls]; [congruence|]. destruct k; [lia | discriminate]. }
    assert (Hcontent : content = join nl (firstn k lines ++ skipn k lines)).
    { rewrite firstn_skipn. symmetry. apply join_split_on. }
    unfold list_insert.
    exists (join nl (firstn k lines)).
    destruct (skipn k lines) as [|l ls] eqn:Htail.
    + exists "". rewrite app_nil_r in Hcontent.
      split; [now rewrite append_nil_r|].
      rewrite join_app by (assumption || discriminate).
      cbn [join]. now rewrite append_nil_r.
    + exists (nl ++ join nl (l :: ls)).
      split; [rewrite Hcontent; apply join_app; [assumption | discriminate]|].
      rewrite join_app by (assumption || discriminate).
      rewrite join_cons. reflexivity.
Qed.
End ImagesKeepText.

(** * What the prompt reads of the snapshot *)

Section PromptInputs.
Import PyStr DocumentationAgent.

(** The snapshot with the payload of every embedded image rewritten by [g]. *)
Definition redata_image (g : string -> string) (img : ImageRef) : ImageRef :=
  mkImageRef (img_name img) (g (img_data img)) (img_context img) (img_placement img)
             (img_source img).

Definition redata_file (g : string -> string) (f : FileRecord) : FileRecord :=
  mkFileRecord (f_name f) (f_size f) (f_content f) (f_type f)
               (option_map (map (redata_image g)) (f_embedded_images f)).

Definition redata (g : string -> string) (pd : ProjectSnapshot) : ProjectSnapshot :=
  mkProjectSnapshot (title pd) (description pd) (map (redata_file g) (files pd)).

(** A dict of groups with [h] applied to every member. *)
Definition map_groups {A B : Type} (h : A -> B) (d : Dict.t (list A)) : Dict.t (list B) :=
  map (fun kv => (fst kv, map h (snd kv))) d.

Lemma append_to_map_groups {A B : Type} (h : A -> B) (d : Dict.t (list A))
      (k : string) (x : A) :
  map_groups h (Dict.append_to d k x) = Dict.append_to (map_groups h d) k (h x).
Proof.
  induction d as [|[k' vs] d IH]; cbn [Dict.append_to map_groups map fst snd].
  - reflexivity.
  - destruct (String.eqb k k'); cbn [map fst snd].
    + now rewrite map_app.
    + fold (map_groups h d). fold (map_groups h (Dict.append_to d k x)). now rewrite IH.
Qed.

Lemma group_map {A B : Type} (h : A -> B) (key : A -> string) (key' : B -> string)
      (l : list A) (d : Dict.t (list A)) :
  (forall x, key' (h x) = key x) ->
  fold_left (fun d y => Dict.append_to d (key' y) y) (map h l) (map_groups h d)
  = map_groups h (fold_left (fun d x => Dict.append_to d (key x) x) l d).
Proof.
  intros Hkey. revert d. induction l as [|x l IH]; intros d; cbn [map fold_left].
  - reflexivity.
  - rewrite Hkey, <- append_to_map_groups. apply IH.
Qed.

Lemma group_map_all {A B : Type} (h : A -> B) (key : A -> string) (key' : B -> string)
      (l : list A) :
  (forall x, key' (h x) = key x) ->
  fold_left (fun d y => Dict.append_to d (key' y) y) (map h l) []
  = map_groups h (fold_left (fun d x => Dict.append_to d (key x) x) l []).
Proof. intros Hkey. now apply (group_map h key key' l []). Qed.

Lemma flat_map_map {A B C : Type} (f : B -> list C) (m : A -> B) (l : list A) :
  flat_map f (map m l) = flat_map (fun x => f (m x)) l.
Proof. induction l as [|x l IH]; [reflexivity|]. cbn [map flat_map]. now rewrite IH. Qed.

Lemma extract_redata (g : string -> string) (pd : ProjectSnapshot) :
  _extract_embedded_images (redata g pd)
  = map (redata_image g) (_extract_embedded_images pd).
Proof.
  unfold _extract_embedded_images, redata. cbn [files].
  induction (files pd) as [|f fs IH]; [reflexivity|].
  cbn [map flat_map]. rewrite map_app, IH. f_equal.
  cbn [redata_file f_embedded_images]. now destruct (f_embedded_images f).
Qed.

Lemma process_redata (g : string -> string) (pd : ProjectSnapshot) :
  _process_embedded_images (redata g pd)
  = map_groups (redata_image g) (_process_embedded_images pd).
Proof.
  unfold _process_embedded_images. rewrite extract_redata.
  apply (group_map_all (redata_image g)
           (fun image => match img_placement image with
                         | Some p => get_or (pl_section p) "overview"
                         | None => "overview"
                         end)
           (fun image => match img_placement image with
                         | Some p => get_or (pl_section p) "overview"
                         | None => "overview"
                         end)
           (_extract_embedded_images pd)).
  reflexivity.
Qed.

Lemma build_context_redata (self : t) (g : string -> string) (pd : ProjectSnapshot)
      (shared_context : Dict.t string) :
  _build_context self (redata g pd) shared_context = _build_context self pd shared_context.
Proof.
  unfold _build_context. cbv zeta. cbn [redata files title description].
  rewrite length_map.
  rewrite (group_map_all (redata_file g)
             (fun f => _get_file_category (get_or (f_name f) ""))
             (fun f => _get_file_category (get_or (f_name f) ""))
             (files pd)) by reflexivity.
  unfold map_groups. rewrite flat_map_map.
  destruct (files pd) as [|f fs] eqn:Hfs; [reflexivity|].
  cbn [map]. rewrite <- Hfs. do 4 f_equal.
  apply flat_map_ext. intros kv. cbn [fst snd]. f_equal.
  rewrite firstn_map, map_map. reflexivity.
Qed.

(** The prompt sent to the model does not depend on the payload of the
    embedded images: rewriting every payload leaves the context and the
    user prompt as they are. *)
Theorem prompt_ignores_image_data (self : t) (g : string -> string)
        (pd : ProjectSnapshot) (shared_context : Dict.t string) :
  _create_user_prompt self (redata g pd) (_build_context self (redata g pd) shared_context)
  = _create_user_prompt self pd (_build_context self pd shared_context).
Proof.
  rewrite build_context_redata.
  generalize (_build_context self pd shared_context) as context. intros context.
  unfold _create_user_prompt. cbv zeta. rewrite process_redata.
  destruct (_process_embedded_images pd) as [|kv d]; [reflexivity|].
  unfold map_groups. cbn [map]. 
  repeat (f_equal; []). f_equal.
  - cbn [fst snd]. now rewrite firstn_map, map_map.
  - rewrite map_map. apply map_ext. intros x. cbn [fst snd].
    now rewrite firstn_map, map_map.
Qed.
End PromptInputs.

(** * Grouping into a dict of lists *)

Section Grouping.
Import PyStr.

Context {A B : Type} (key : A -> string) (val : A -> B).

(** [for x in l: d.setdefault(key(x), []).append(val(x))] *)
Definition group_into (d : Dict.t (list B)) (l : list A) : Dict.t (list B) :=
  fold_left (fun d x => Dict.append_to d (key x) (val x)) l d.

Definition members (k : string) (l : list A) : list B :=
  map val (filter (fun x => String.eqb (key x) k) l).

Definition group_size (d : Dict.t (list B)) : nat :=
  list_sum (map (fun kv => List.length (snd kv)) d).

Lemma append_to_get_same (d : Dict.t (list B)) (k : string) (v : B) :
  Dict.get (Dict.append_to d k v) k = Some (get_or (Dict.get d k) [] ++ [v])%list.
Proof.
  induction d as [|[k' vs] d IH]; cbn [Dict.append_to Dict.get get_or].
  - now rewrite String.eqb_refl.
  - destruct (String.eqb k k') eqn:E; cbn [Dict.get]; rewrite E; [reflexivity | exact IH].
Qed.

Lemma append_to_get_other (d : Dict.t (list B)) (k k' : string) (v : B) :
  k' <> k -> Dict.get (Dict.append_to d k v) k' = Dict.get d k'.
Proof.
  intros Hne. induction d as [|[k0 vs] d IH]; cbn [Dict.append_to Dict.get].
  - apply String.eqb_neq in Hne. now rewrite Hne.
  - destruct (String.eqb k k0) eqn:E; cbn [Dict.get].
    + apply String.eqb_eq in E. subst k0. apply String.eqb_neq in Hne. now rewrite Hne.
    + destruct (String.eqb k' k0); [reflexivity | exact IH].
Qed.

Lemma append_to_keys (d : Dict.t (list B)) (k : string) (v : B) :
  NoDup (Dict.keys d) -> NoDup (Dict.keys (Dict.append_to d k v)).
Proof.
  unfold Dict.keys. induction d as [|[k' vs] d IH]; intros Hnd; cbn [Dict.append_to map fst].
  - constructor; [intros [] | constructor].
  - inversion Hnd as [|x l Hnin Hnd']; subst.
    destruct (String.eqb k k') eqn:E; cbn [map fst]; [exact Hnd|].
    constructor; [|now apply IH].
    intros Hin. apply Hnin. clear -Hin E.
    induction d as [|[k0 v0] d IHd]; cbn [Dict.append_to map fst In] in *.
    + destruct Hin as [->|[]]. now rewrite String.eqb_refl in E.
    + destruct (String.eqb k k0); cbn [map fst In] in Hin; [exact Hin|].
      destruct Hin as [H|H]; [now left | right; now apply IHd].
Qed.

Lemma list_sum_head (n : nat) (l : list nat) : list_sum (n :: l) = n + list_sum l.
Proof. reflexivity. Qed.

Lemma append_to_size (d : Dict.t (list B)) (k : string) (v : B) :
  group_size (Dict.append_to d k v) = S (group_size d).
Proof.
  unfold group_size. induction d as [|[k' vs] d IH]; cbn [Dict.append_to].
  - reflexivity.
  - destruct (String.eqb k k'); cbn [map snd]; rewrite !list_sum_head.
    + rewrite length_app. simpl. lia.
    + rewrite IH. lia.
Qed.

Lemma append_to_nonempty (d : Dict.t (list B)) (k : string) (v : B) :
  Forall (fun kv => snd kv <> []) d ->
  Forall (fun kv => snd kv <> []) (Dict.append_to d k v).
Proof.
  induction d as [|[k' vs] d IH]; intros H; cbn [Dict.append_to].
  - constructor; [discriminate | constructor].
  - inversion H as [|x l Hx Hl]; subst.
    destruct (String.eqb k k'); constructor; auto.
    cbn [snd]. intros Hnil. apply app_eq_nil in Hnil. destruct Hnil. discriminate.
Qed.

(** The groups after the loop: keys are distinct, no group is empty, the
    group of [k] holds the values of the elements of key [k] in their order
    after what it held before, and every element went into one group. *)
Lemma group_into_spec (l : list A) (d : Dict.t (list B)) :
  NoDup (Dict.keys d) ->
  Forall (fun kv => snd kv <> []) d ->
  NoDup (Dict.keys (group_into d l))
  /\ Forall (fun kv => snd kv <> []) (group_into d l)
  /\ (forall k, get_or (Dict.get (group_into d l) k) []
                = (get_or (Dict.get d k) [] ++ members k l)%list)
  /\ group_size (group_into d l) = group_size d + List.length l.
Proof.
  unfold group_into. revert d. induction l as [|x l IH]; intros d Hnd Hne; cbn [fold_left].
  - split; [exact Hnd|]. split; [exact Hne|]. split; [|simpl; lia].
    intros k. unfold members. simpl. now rewrite app_nil_r.
  - destruct (IH (Dict.append_to d (key x) (val x))) as (H1 & H2 & H3 & H4).
    + now apply append_to_keys.
    + now apply append_to_nonempty.
    + split; [exact H1|]. split; [exact H2|]. split.
      * intros k. rewrite H3. unfold members. cbn [filter].
        destruct (String.eqb (key x) k) eqn:E.
        -- apply String.eqb_eq in E. subst k. rewrite append_to_get_same.
           cbn [get_or map]. now rewrite <- app_assoc.
        -- apply String.eqb_neq in E.
           rewrite append_to_get_other by congruence. reflexivity.
      * rewrite H4, append_to_size. simpl. lia.
Qed.
End Grouping.

Section GroupedListings.
Import PyStr OrchestratorAgent.

(** The key of a file in the listing of the fallback documentation. *)
Definition extension_of (file_name : string) : string :=
  if contains "." file_name then lower (last (split_on "."%char file_name) "") else "other".

Definition file_name_of (f : FileRecord) : string := get_or (f_name f) "".

(** The section an image is filed under. *)
Definition section_of (image : ImageRef) : string :=
  match img_placement image with
  | Some p => get_or (pl_section p) "overview"
  | None => "overview"
  end.

Lemma filter_of_map {X Y : Type} (g : X -> Y) (p : Y -> bool) (l : list X) :
  filter p (map g l) = map g (filter (fun x => p (g x)) l).
Proof.
  induction l as [|x l IH]; [reflexivity|]. cbn [map filter].
  destruct (p (g x)); cbn [map]; now rewrite IH.
Qed.

(** The listing of the fallback documentation files every file once: the
    groups have distinct extensions, none is empty, the group of an
    extension holds exactly the names of the files with that extension, in
    the order of the snapshot, and the sizes of the groups add up to the
    number of files. *)
Theorem files_grouped_by_extension (fs : list FileRecord) :
  let groups := grouped_by_extension fs in
  NoDup (Dict.keys groups)
  /\ Forall (fun kv => snd kv <> []) groups
  /\ (forall ext, get_or (Dict.get groups ext) []
                  = filter (fun n => String.eqb (extension_of n) ext) (map file_name_of fs))
  /\ list_sum (map (fun kv => List.length (snd kv)) groups) = List.length fs.
Proof.
  cbv zeta.
  destruct (group_into_spec (fun f => extension_of (file_name_of f)) file_name_of fs [])
    as (H1 & H2 & H3 & H4); [constructor | constructor |].
  split; [exact H1|]. split; [exact H2|]. split; [|exact H4].
  intros ext. unfold grouped_by_extension. 
  change (fold_left _ fs [])
    with (group_into (fun f => extension_of (file_name_of f)) file_name_of [] fs).
  rewrite H3. cbn [Dict.get get_or List.app]. unfold members.
  symmetry. apply filter_of_map.
Qed.

(** [_process_embedded_images] files every embedded image once: under the
    section of its placement, or under "overview" without one, in the
    order of the snapshot. *)
Theorem images_grouped_by_section (pd : ProjectSnapshot) :
  let groups := DocumentationAgent._process_embedded_images pd in
  let images := DocumentationAgent._extract_embedded_images pd in
  NoDup (Dict.keys groups)
  /\ Forall (fun kv => snd kv <> []) groups
  /\ (forall section, get_or (Dict.get groups section) []
                      = filter (fun image => String.eqb (section_of image) section) images)
  /\ list_sum (map (fun kv => List.length (snd kv)) groups) = List.length images.
Proof.
  cbv zeta.
  destruct (group_into_spec section_of (fun image => image)
              (DocumentationAgent._extract_embedded_images pd) [])
    as (H1 & H2 & H3 & H4); [constructor | constructor |].
  split; [exact H1|]. split; [exact H2|]. split; [|exact H4].
  intros section. unfold DocumentationAgent._process_embedded_images.
  change (fold_left _ (DocumentationAgent._extract_embedded_images pd) [])
    with (group_into section_of (fun image : ImageRef => image) []
                     (DocumentationAgent._extract_embedded_images pd)).
  rewrite H3. cbn [Dict.get get_or List.app]. unfold members. apply map_id.
Qed.
End GroupedListings.

(** * File categories *)

Section FileCategories.
Import PyStr DocumentationAgent.

Lemma lower_char_dot (c : ascii) :
  Ascii.eqb "."%char (lower_char c) = Ascii.eqb "."%char c.
Proof. destruct c as [[] [] [] [] [] [] [] []]; reflexivity. Qed.

Lemma prefix_dot (c : ascii) (s : string) :
  String.prefix "." (String c s) = Ascii.eqb "."%char c.
Proof.
  cbn [String.prefix]. destruct (ascii_dec "." c) as [<-|Hne].
  - now destruct s.
  - symmetry. now apply Ascii.eqb_neq.
Qed.

Lemma contains_dot_lower (s : string) : contains "." (lower s) = contains "." s.
Proof.
  induction s as [|c s IH]; [reflexivity|].
  change (lower (String c s)) with (String (lower_char c) (lower s)).
  rewrite !contains_cons, !prefix_dot, lower_char_dot. now rewrite IH.
Qed.

Lemma is_empty_lower (s : string) : is_empty (lower s) = is_empty s.
Proof. now destruct s. Qed.

(** The category of a file does not depend on the letter case of its name. *)
Theorem file_category_ignores_case (name1 name2 : string) :
  lower name1 = lower name2 ->
  _get_file_category name1 = _get_file_category name2.
Proof.
  intros H. unfold _get_file_category.
  rewrite <- (is_empty_lower name1), <- (is_empty_lower name2).
  rewrite <- (contains_dot_lower name1), <- (contains_dot_lower name2).
  cbv zeta. now rewrite H.
Qed.

Lemma file_category_ignores_case_witness :
  lower "Main.PY" = lower "main.py"
  /\ _get_file_category "Main.PY" = "Source Code".
Proof.
  assert (H : lower "Main.PY" = lower "main.py") by reflexivity.
  split; [exact H|].
  rewrite (file_category_ignores_case "Main.PY" "main.py" H). reflexivity.
Defined.

Definition source_extensions : list string :=
  ["py"; "js"; "jsx"; "ts"; "tsx"; "java"; "cpp"; "c"; "cs"; "php";
   "rb"; "go"; "rs"; "swift"; "kt"; "scala"].

Lemma push_char_app (c : ascii) (l1 l2 : list string) :
  l1 <> [] -> push_char c (l1 ++ l2) = (push_char c l1 ++ l2)%list.
Proof. destruct l1; [congruence | reflexivity]. Qed.

(** [(s + sep + t).split(sep) == s.split(sep) + t.split(sep)] *)
Lemma split_on_app (sep : ascii) (s t : string) :
  split_on sep (s ++ String sep t) = (split_on sep s ++ split_on sep t)%list.
Proof.
  induction s as [|c s IH].
  - cbn [append split_on List.app]. now rewrite Ascii.eqb_refl.
  - change (String c s ++ String sep t) with (String c (s ++ String sep t)).
    cbn [split_on]. rewrite IH. destruct (Ascii.eqb c sep); [reflexivity|].
    apply push_char_app. clear. induction s as [|c s IH]; cbn [split_on]; [discriminate|].
    destruct (Ascii.eqb c sep); [discriminate|].
    destruct (split_on sep s); [congruence | discriminate].
Qed.

Lemma last_app_nonempty {X : Type} (l1 l2 : list X) (d : X) :
  l2 <> [] -> last (l1 ++ l2) d = last l2 d.
Proof.
  intros H. induction l1 as [|x l1 IH]; [reflexivity|].
  cbn [List.app]. destruct (l1 ++ l2)%list eqn:E.
  - apply app_eq_nil in E. tauto.
  - rewrite <- E in *. cbn [last]. rewrite E. rewrite <- E. exact IH.
Qed.

Lemma source_extension_plain (ext : string) :
  In ext source_extensions -> split_on "."%char ext = [ext].
Proof.
  unfold source_extensions. cbn [In].
  intros H. repeat (destruct H as [<-|H]; [reflexivity|]). contradiction.
Qed.

(** The extension is looked at before the name: a file whose name ends
    with a dot and one of the source extensions, in any letter case, is
    "Source Code", also when its name mentions "test" or "config". *)
Theorem source_extension_decides (stem ext : string) :
  In (lower ext) source_extensions ->
  _get_file_category (stem ++ "." ++ ext) = "Source Code".
Proof.
  intros Hext. unfold _get_file_category.
  assert (Hdot : contains "." (stem ++ "." ++ ext) = true).
  { apply contains_occurs. exists stem, ext. reflexivity. }
  assert (Hne : is_empty (stem ++ "." ++ ext) = false).
  { apply is_empty_false, append_nonempty_r. discriminate. }
  rewrite Hdot, Hne. cbn [orb negb]. cbv zeta.
  assert (Hlast : last (split_on "."%char (lower (stem ++ "." ++ ext))) "" = lower ext).
  { unfold lower. rewrite map_str_append.
    change (map_str lower_char ("." ++ ext)) with (String "."%char (map_str lower_char ext)).
    rewrite split_on_app.
    fold (lower ext). rewrite (source_extension_plain _ Hext).
    rewrite last_app_nonempty by discriminate. reflexivity. }
  rewrite Hlast.
  apply mem_In in Hext. unfold source_extensions in Hext. now rewrite Hext.
Qed.

Lemma source_extension_decides_witness :
  In (lower "PY") source_extensions
  /\ contains "test" (lower "test_config.PY") = true
  /\ _get_file_category "test_config.PY" = "Source Code".
Proof.
  assert (H : In (lower "PY") source_extensions) by (simpl; tauto).
  split; [exact H|]. split; [reflexivity|].
  exact (source_extension_decides "test_config" "PY" H).
Defined.
End FileCategories.

(** * The similarity test *)

Section Similarity.
Import PyStr OrchestratorAgent.

Lemma dedup_In (x : string) (l : list string) : In x (dedup l) <-> In x l.
Proof.
  induction l as [|y l IH]; cbn [dedup]; [tauto|].
  destruct (mem y l) eqn:E.
  - rewrite IH. cbn [In]. split; [tauto|]. intros [<-|H]; [|exact H].
    now apply mem_In.
  - cbn [In]. rewrite IH. tauto.
Qed.

Lemma dedup_nodup (l : list string) : NoDup (dedup l).
Proof.
  induction l as [|y l IH]; cbn [dedup]; [constructor|].
  destruct (mem y l) eqn:E; [exact IH|].
  constructor; [|exact IH]. rewrite dedup_In. now apply mem_false_not_In.
Qed.

(** Over duplicate-free lists, the common words are counted the same from
    either side. *)
Lemma common_words_sym (ew cw : list string) :
  NoDup ew -> NoDup cw -> common_words ew cw = common_words cw ew.
Proof.
  intros He Hc. unfold common_words.
  apply Permutation_length, NoDup_Permutation.
  - now apply NoDup_filter.
  - now apply NoDup_filter.
  - intros x. rewrite !filter_In, !mem_In. tauto.
Qed.

(** The similarity test of [_try_add_tab] is symmetric: which of two texts
    is the section already accepted and which the candidate does not change
    the verdict. *)
Theorem similarity_is_symmetric (existing candidate : string) :
  too_similar (word_set existing) (word_set candidate)
  = too_similar (word_set candidate) (word_set existing).
Proof.
  unfold word_set.
  pose proof (common_words_sym (dedup (split (lower existing)))
                               (dedup (split (lower candidate)))
                               (dedup_nodup _) (dedup_nodup _)) as Hc.
  unfold too_similar.
  destruct (dedup (split (lower existing))) as [|e ew];
    destruct (dedup (split (lower candidate))) as [|c cw]; try reflexivity.
  now rewrite Hc, Nat.max_comm.
Qed.
End Similarity.
